(** * brightwind.analyse: sector binning and long-term reference utilities

    A shallow embedding of [brightwind/analyse/analyse.py].

    Conventions of the embedding.
    - Python [float] / numpy [float64] values are idealised as exact
      rationals ([Q]); a missing value (NaN) is [None] in [option Q].
    - Python [int] is [Z]; list positions and counts are [nat].
    - numpy [datetime64[ns]] timestamps are [Z] nanoseconds since the epoch,
      and [timedelta64[ns]] durations are [Z] nanoseconds.
    - A raised Python exception is the [Raise] branch of [result]. *)

From Stdlib Require Import ZArith QArith Qround Qfield List Bool Lia String Ascii.
From Stdlib Require Import DecimalString Lqa Permutation Sorted FinFun.
Import ListNotations.

Local Open Scope Z_scope.

(** ** Exceptions *)

(** The exceptions the code can raise; [OutOfBoundsDatetime] is the one
    pandas raises for an instant that no [Timestamp] can hold. *)
Inductive exn : Type :=
| ZeroDivisionError
| ValueError
| IndexError
| TypeError
| KeyError
| OutOfBoundsDatetime.

Inductive result (A : Type) : Type :=
| Ok (a : A)
| Raise (e : exn).

Arguments Ok {A} a.
Arguments Raise {A} e.

Definition bind {A B : Type} (r : result A) (k : A -> result B) : result B :=
  match r with
  | Ok a => k a
  | Raise e => Raise e
  end.

Notation "x <- r ;; k" := (bind r (fun x => k))
  (at level 61, r at next level, right associativity).

Definition rmap {A B : Type} (f : A -> B) (r : result A) : result B :=
  x <- r ;; Ok (f x).

(** ** Rational helpers *)

Definition Qltb (x y : Q) : bool := negb (Qle_bool y x).

(** ** numpy primitives used by the binner *)

Module np.

(** [np.arange(start, stop, step)] on floats: [ceil((stop - start)/step)]
    values [start + i*step]; a zero step is an error. *)
Definition arange_len (start stop step : Q) : nat :=
  Z.to_nat (Qceiling ((stop - start) / step)).

Definition arange (start stop step : Q) : result (list Q) :=
  if Qeq_bool step 0 then Raise ZeroDivisionError
  else Ok (map (fun i : nat => (start + inject_Z (Z.of_nat i) * step)%Q)
               (seq 0 (arange_len start stop step))).

(** [np.insert(a, 0, v)] and [np.append(a, v)]. *)
Definition insert0 (a : list Q) (v : Q) : list Q := v :: a.
Definition append (a : list Q) (v : Q) : list Q := a ++ [v].

(** Monotonicity test of [np.digitize]: [1] when non-decreasing, [-1]
    when non-increasing, [0] otherwise. *)
Fixpoint nondecreasing (l : list Q) : bool :=
  match l with
  | a :: (b :: _) as t => Qle_bool a b && nondecreasing t
  | _ => true
  end.

Fixpoint nonincreasing (l : list Q) : bool :=
  match l with
  | a :: (b :: _) as t => Qle_bool b a && nonincreasing t
  | _ => true
  end.

Definition monotonicity (l : list Q) : Z :=
  if nondecreasing l then 1 else if nonincreasing l then -1 else 0.

Inductive side : Type := Left | Right.

(** [np.searchsorted(a, v, side)] on a sorted array: the number of
    elements strictly below [v] ([Left]) or not above [v] ([Right]). *)
Definition searchsorted (a : list Q) (v : Q) (s : side) : nat :=
  match s with
  | Left => List.length (filter (fun e => Qltb e v) a)
  | Right => List.length (filter (fun e => Qle_bool e v) a)
  end.

(** [np.digitize([x], bins, right)[0]]. *)
Definition digitize (x : Q) (bins : list Q) (right : bool) : result Z :=
  let sd := if right then Left else Right in
  match monotonicity bins with
  | 0 => Raise ValueError
  | Zneg _ =>
      Ok (Z.of_nat (List.length bins)
          - Z.of_nat (searchsorted (rev bins) x sd))
  | Zpos _ => Ok (Z.of_nat (searchsorted bins x sd))
  end.

End np.

(** Python's builtin [max] over a sequence: the first maximal element;
    [ValueError] on an empty sequence. *)
Definition py_max (l : list Q) : result Q :=
  match l with
  | [] => Raise ValueError
  | x :: t => Ok (fold_left (fun m y => if Qltb m y then y else m) t x)
  end.

(** ** The circular sector binner *)

(** [get_direction_bin_array(sectors)] *)
Definition get_direction_bin_array (sectors : Z) : result (list Q) :=
  if sectors =? 0 then Raise ZeroDivisionError
  else
    let bin_start := (180 / inject_Z sectors)%Q in
    direction_bins <- np.arange bin_start 360 (360 / inject_Z sectors) ;;
    let direction_bins := np.insert0 direction_bins 0 in
    let direction_bins := np.append direction_bins 360 in
    Ok direction_bins.

(** [map_direction_bin(wdir, bins, sectors)] *)
Definition map_direction_bin (wdir : Q) (bins : list Q) (sectors : Z)
  : result Z :=
  m <- py_max bins ;;
  let right := Qeq_bool wdir m in
  bin_num <- np.digitize wdir bins right ;;
  if bin_num =? sectors + 1 then Ok 1 else Ok bin_num.

(** Python sequence indexing [l[i]] (negative positions count from the
    end) and the slice [l[:k]]. *)
Definition py_index {A : Type} (l : list A) (i : Z) : result A :=
  let n := Z.of_nat (List.length l) in
  let j := if i <? 0 then i + n else i in
  if (0 <=? j) && (j <? n) then
    match nth_error l (Z.to_nat j) with
    | Some x => Ok x
    | None => Raise IndexError
    end
  else Raise IndexError.

Definition py_slice_to {A : Type} (l : list A) (k : Z) : list A :=
  let n := Z.of_nat (List.length l) in
  firstn (Z.to_nat (if k <? 0 then k + n else k)) l.

(** A Python [dict] with integer keys, in insertion order. *)
Definition dict (V : Type) : Type := list (Z * V).

Fixpoint dict_set {V : Type} (d : dict V) (k : Z) (v : V) : dict V :=
  match d with
  | [] => [(k, v)]
  | (k', v') :: t =>
      if k' =? k then (k, v) :: t else (k', v') :: dict_set t k v
  end.

Definition dict_values {V : Type} (d : dict V) : list V := map snd d.

Section Labels.

(** How Python renders a float inside ['{0}-{1}'.format]. *)
Variable float_str : Q -> string.

Definition format_label (lower upper : Q) : string :=
  (float_str lower ++ "-" ++ float_str upper)%string.

(** The body of the [for i, lower_bound in enumerate(...)] loop of
    [_get_direction_bin_labels], threaded over the remaining items. *)
Fixpoint labels_loop (direction_bins : list Q) (zero_centred : bool)
         (i : Z) (items : list Q) (mapper : dict string)
  : result (dict string) :=
  match items with
  | [] => Ok mapper
  | lower_bound :: rest =>
      label <-
        (if (i =? 0) && zero_centred then
           a <- py_index direction_bins (-2) ;;
           b <- py_index direction_bins 1 ;;
           Ok (format_label a b)
         else
           b <- py_index direction_bins (i + 1) ;;
           Ok (format_label lower_bound b)) ;;
      labels_loop direction_bins zero_centred (i + 1) rest
                  (dict_set mapper (i + 1) label)
  end.

(** [_get_direction_bin_labels(sectors, direction_bins, zero_centred)] *)
Definition _get_direction_bin_labels (sectors : Z)
           (direction_bins : list Q) (zero_centred : bool)
  : result (list string) :=
  mapper <- labels_loop direction_bins zero_centred 0
                        (py_slice_to direction_bins sectors) [] ;;
  Ok (dict_values mapper).

End Labels.

(** ** Series and the binned direction series *)

(** A pandas [Series] of floats: index label (a timestamp) and value. *)
Definition Series : Type := list (Z * option Q).

(** [Series.dropna()] *)
Definition dropna (s : Series) : list (Z * Q) :=
  flat_map (fun r => match snd r with
                     | Some v => [(fst r, v)]
                     | None => []
                     end) s.

(** [Series.apply(f)] for a function that may raise. *)
Fixpoint series_apply {A B : Type} (f : A -> result B) (s : list (Z * A))
  : result (list (Z * B)) :=
  match s with
  | [] => Ok []
  | (t, v) :: rest =>
      b <- f v ;;
      rest' <- series_apply f rest ;;
      Ok ((t, b) :: rest')
  end.

(** [get_binned_direction_series(direction_series, sectors,
    direction_bin_array)] on a series without missing values. *)
Definition get_binned_direction_series (direction_series : list (Z * Q))
           (sectors : Z) (direction_bin_array : option (list Q))
  : result (list (Z * Z)) :=
  direction_bin_array <-
    match direction_bin_array with
    | None => get_direction_bin_array sectors
    | Some a => Ok a
    end ;;
  series_apply (fun wdir => map_direction_bin wdir direction_bin_array sectors)
               direction_series.

(** The state both [get_distribution_by_wind_sector] and [get_freq_table]
    reach before they aggregate: the sectors count in force, the edges,
    the zero-centering flag, the labels and the binned direction series
    ([get_freq_table] has the binned variable series beside it). *)
Record sector_binning : Type := {
  sb_sectors : Z;
  sb_direction_bin_array : list Q;
  sb_zero_centered : bool;
  sb_direction_bin_labels : list string;
  sb_direction_binned_series : list (Z * Z)
}.

Section Distribution.

Variable float_str : Q -> string.

(** [get_distribution_by_wind_sector], up to and including the
    computation of [direction_binned_series]. *)
Definition get_distribution_by_wind_sector_binning
           (direction_series : Series) (sectors : Z)
           (direction_bin_array : option (list Q))
           (direction_bin_labels : option (list string))
  : result sector_binning :=
  let direction_series := dropna direction_series in
  st <- match direction_bin_array with
        | None =>
            a <- get_direction_bin_array sectors ;;
            Ok (sectors, a, true)
        | Some a =>
            Ok (Z.of_nat (List.length a) - 1, a, false)
        end ;;
  let '(sectors, direction_bin_array, zero_centered) := st in
  direction_bin_labels <-
    match direction_bin_labels with
    | None => _get_direction_bin_labels float_str sectors
                                        direction_bin_array zero_centered
    | Some l => Ok l
    end ;;
  direction_binned_series <-
    get_binned_direction_series direction_series sectors
                                (Some direction_bin_array) ;;
  Ok {| sb_sectors := sectors;
        sb_direction_bin_array := direction_bin_array;
        sb_zero_centered := zero_centered;
        sb_direction_bin_labels := direction_bin_labels;
        sb_direction_binned_series := direction_binned_series |}.

End Distribution.

(** ** Time *)

(** [pd.Timedelta('1 days')] and one hour, in nanoseconds. *)
Definition ns_per_day : Z := 86400 * 1000000000.
Definition ns_per_hour : Z := 3600 * 1000000000.

(** Days since 1970-01-01 of a date of the proleptic Gregorian calendar,
    and back (the calendar of [datetime64] and of Python's [datetime]). *)
Definition days_from_civil (y m d : Z) : Z :=
  let y := if m <=? 2 then y - 1 else y in
  let era := y / 400 in
  let yoe := y - era * 400 in
  let mp := if 2 <? m then m - 3 else m + 9 in
  let doy := (153 * mp + 2) / 5 + d - 1 in
  let doe := yoe * 365 + yoe / 4 - yoe / 100 + doy in
  era * 146097 + doe - 719468.

Definition civil_from_days (z : Z) : Z * Z * Z :=
  let z := z + 719468 in
  let era := z / 146097 in
  let doe := z - era * 146097 in
  let yoe := (doe - doe / 1460 + doe / 36524 - doe / 146096) / 365 in
  let y := yoe + era * 400 in
  let doy := doe - (365 * yoe + yoe / 4 - yoe / 100) in
  let mp := (5 * doy + 2) / 153 in
  let d := doy - (153 * mp + 2) / 5 + 1 in
  let m := if mp <? 10 then mp + 3 else mp - 9 in
  ((if m <=? 2 then y + 1 else y), m, d).

(** [DatetimeIndex.month] of one timestamp: 1..12. *)
Definition month_of (t : Z) : Z :=
  let '(_, m, _) := civil_from_days (t / ns_per_day) in m.

Definition is_leap (y : Z) : bool :=
  ((y mod 4 =? 0) && negb (y mod 100 =? 0)) || (y mod 400 =? 0).

Definition days_in_month (y m : Z) : Z :=
  if m =? 2 then (if is_leap y then 29 else 28)
  else if (m =? 4) || (m =? 6) || (m =? 9) || (m =? 11) then 30
  else 31.

(** ** [datetime.strptime(s, "%Y-%m-%d")] *)

Definition is_digit (c : ascii) : bool :=
  let n := nat_of_ascii c in (48 <=? n)%nat && (n <=? 57)%nat.

Definition digit_val (c : ascii) : Z := Z.of_nat (nat_of_ascii c) - 48.

Definition is_dash (c : ascii) : bool := (nat_of_ascii c =? 45)%nat.
Definition is_space (c : ascii) : bool := (nat_of_ascii c =? 32)%nat.

(** The directive [%m]: the alternation [1[0-2]|0[1-9]|[1-9]]. *)
Definition parse_month (tok : list ascii) : option Z :=
  match tok with
  | [a; b] =>
      if is_digit a && is_digit b then
        let v := 10 * digit_val a + digit_val b in
        if (1 <=? v) && (v <=? 12) then Some v else None
      else None
  | [a] =>
      if is_digit a && (1 <=? digit_val a) then Some (digit_val a) else None
  | _ => None
  end.

(** The directive [%d]: [3[0-1]|[1-2]\d|0[1-9]|[1-9]| [1-9]]. *)
Definition parse_day (tok : list ascii) : option Z :=
  match tok with
  | [a; b] =>
      if is_digit a && is_digit b then
        let v := 10 * digit_val a + digit_val b in
        if (1 <=? v) && (v <=? 31) then Some v else None
      else if is_space a && is_digit b && (1 <=? digit_val b) then
        Some (digit_val b)
      else None
  | [a] =>
      if is_digit a && (1 <=? digit_val a) then Some (digit_val a) else None
  | _ => None
  end.

(** Splits a token at the first dash. *)
Fixpoint split_dash (l : list ascii) : option (list ascii * list ascii) :=
  match l with
  | [] => None
  | c :: t =>
      if is_dash c then Some ([], t)
      else match split_dash t with
           | Some (a, b) => Some (c :: a, b)
           | None => None
           end
  end.

(** The bounds of a pandas [Timestamp] (a signed 64-bit nanosecond count). *)
Definition ts_in_bounds (ns : Z) : bool :=
  (- 2 ^ 63 <? ns) && (ns <? 2 ^ 63).

(** [strptime(s, "%Y-%m-%d")], as the midnight instant in nanoseconds;
    [ValueError] when [s] does not match the format or is not a date of
    the calendar.  Any year from 1 to 9999 is a [datetime]. *)
Definition strptime_ymd (s : string) : result Z :=
  match list_ascii_of_string s with
  | y1 :: y2 :: y3 :: y4 :: dash :: rest =>
      if is_digit y1 && is_digit y2 && is_digit y3 && is_digit y4
         && is_dash dash
      then
        let y := 1000 * digit_val y1 + 100 * digit_val y2
                 + 10 * digit_val y3 + digit_val y4 in
        match split_dash rest with
        | Some (mtok, dtok) =>
            match parse_month mtok, parse_day dtok with
            | Some m, Some d =>
                if (1 <=? y) && (d <=? days_in_month y m) then
                  Ok (days_from_civil y m d * ns_per_day)
                else Raise ValueError
            | _, _ => Raise ValueError
            end
        | None => Raise ValueError
        end
      else Raise ValueError
  | _ => Raise ValueError
  end.

(** ** Data frames *)

(** A pandas [DataFrame] of float columns over a [DatetimeIndex]: the
    column labels (taken to be distinct) and the rows, each an index
    timestamp with one value per column. *)
Record DataFrame : Type := {
  columns : list string;
  rows : list (Z * list (option Q))
}.

Definition index (df : DataFrame) : list Z := map fst (rows df).

(** The values of column number [j] in a list of rows. *)
Definition column_values {K : Type} (j : nat) (rs : list (K * list (option Q)))
  : list (option Q) :=
  map (fun r => nth j (snd r) None) rs.

(** The values that are not missing. *)
Definition present (vals : list (option Q)) : list Q :=
  flat_map (fun v => match v with Some x => [x] | None => [] end) vals.

Definition Qsum (xs : list Q) : Q := fold_right Qplus 0%Q xs.

(** pandas [mean] of one column: missing values are skipped; the mean of
    no value is missing. *)
Definition mean (vals : list (option Q)) : option Q :=
  match present vals with
  | [] => None
  | xs => Some (Qsum xs / inject_Z (Z.of_nat (List.length xs)))%Q
  end.

(** [df.groupby(df.index.month).mean()]: one row per calendar month that
    occurs in the index, in increasing month order. *)
Definition month_group (df : DataFrame) (m : Z) : list (Z * list (option Q)) :=
  filter (fun r => month_of (fst r) =? m) (rows df).

Definition calendar_months : list Z := [1; 2; 3; 4; 5; 6; 7; 8; 9; 10; 11; 12].

Definition groupby_month_mean (df : DataFrame) : list (Z * list (option Q)) :=
  flat_map
    (fun m =>
       match month_group df m with
       | [] => []
       | g => [(m, map (fun j => mean (column_values j g))
                       (seq 0 (List.length (columns df))))]
       end)
    calendar_months.

(** [monthly_df.mean()]: a value per column label. *)
Definition frame_mean (cols : list string) (rs : list (Z * list (option Q)))
  : list (string * option Q) :=
  map (fun j => (nth j cols EmptyString, mean (column_values j rs)))
      (seq 0 (List.length cols)).

(** Label lookup in a list of labelled values; a label that is absent
    yields a missing value (what reindexing to new columns does). *)
Fixpoint reindex1 (s : list (string * option Q)) (label : string) : option Q :=
  match s with
  | [] => None
  | (l, v) :: t => if String.eqb l label then v else reindex1 t label
  end.

Definition momm_series (df : DataFrame) : list (string * option Q) :=
  frame_mean (columns df) (groupby_month_mean df).

(** [mean_of_monthly_means(df)]: [pd.DataFrame([momm_series],
    columns=['MOMM'])] is one row, labelled 0, of the series aligned to
    the single column label ['MOMM']. *)
Definition mean_of_monthly_means (df : DataFrame) : DataFrame :=
  let monthly_df := groupby_month_mean df in
  let momm_series := frame_mean (columns df) monthly_df in
  {| columns := ["MOMM"%string];
     rows := [(0, [reindex1 momm_series "MOMM"])] |}.

(** [df.get_value(index, col)] *)
Fixpoint position (cols : list string) (col : string) : option nat :=
  match cols with
  | [] => None
  | c :: t => if String.eqb c col then Some O
              else option_map S (position t col)
  end.

Definition get_value (df : DataFrame) (idx : Z) (col : string)
  : result (option Q) :=
  match find (fun r => fst r =? idx) (rows df), position (columns df) col with
  | Some r, Some j => Ok (nth j (snd r) None)
  | _, _ => Raise KeyError
  end.

(** [Index.is_monotonic_increasing] and [Index.is_monotonic_decreasing]:
    neither is strict. *)
Fixpoint is_monotonic_increasing (l : list Z) : bool :=
  match l with
  | a :: (b :: _) as t => (a <=? b) && is_monotonic_increasing t
  | _ => true
  end.

Fixpoint is_monotonic_decreasing (l : list Z) : bool :=
  match l with
  | a :: (b :: _) as t => (b <=? a) && is_monotonic_decreasing t
  | _ => true
  end.

(** The position of the first occurrence of a label, the position one
    past its last occurrence (0 when it does not occur), and the number
    of its occurrences. *)
Fixpoint first_position (label : Z) (l : list Z) : nat :=
  match l with
  | [] => O
  | a :: t => if a =? label then O else S (first_position label t)
  end.

Fixpoint stop_position (label : Z) (l : list Z) : nat :=
  match l with
  | [] => O
  | a :: t =>
      match stop_position label t with
      | O => if a =? label then 1%nat else O
      | S n => S (S n)
      end
  end.

Definition occurrences (label : Z) (l : list Z) : nat :=
  List.length (filter (fun t => t =? label) l).

(** [Index.get_slice_bound(label, side)] on a [DatetimeIndex], for a
    [datetime] label.  The label is first turned into a [Timestamp],
    which raises [OutOfBoundsDatetime] outside its range.  A label that
    occurs in the index gives the position of its first occurrence
    (['left']) or one past its last (['right']), and [KeyError] when its
    occurrences are not adjacent.  A label that does not occur is placed
    by bisection when the index is monotonic, increasing or decreasing,
    and raises [KeyError] on any other index. *)
Definition get_slice_bound (idx : list Z) (label : Z) (s : np.side)
  : result nat :=
  if ts_in_bounds label then
    if existsb (fun t => t =? label) idx then
      let first := first_position label idx in
      let stop := stop_position label idx in
      if (stop - first =? occurrences label idx)%nat then
        Ok (match s with np.Left => first | np.Right => stop end)
      else Raise KeyError
    else if is_monotonic_increasing idx then
      Ok (List.length (filter (fun t => t <? label) idx))
    else if is_monotonic_decreasing idx then
      Ok (List.length (filter (fun t => label <? t) idx))
    else Raise KeyError
  else Raise OutOfBoundsDatetime.

(** [data.loc[date_from:date_to, :]]: the start bound is resolved first,
    then the stop bound, and the rows from the one position up to the
    other are kept (none when the stop is not after the start).  On an
    index sorted in increasing order these are the rows between the two
    instants, both included. *)
Definition loc_slice (data : DataFrame) (date_from date_to : Z)
  : result DataFrame :=
  start <- get_slice_bound (index data) date_from np.Left ;;
  stop <- get_slice_bound (index data) date_to np.Right ;;
  Ok {| columns := columns data;
        rows := firstn (stop - start) (skipn start (rows data)) |}.

(** ** Long-term reference speed *)

(** A date argument of [calc_lt_ref_speed]: a [datetime.date] or
    [datetime.datetime] (its instant), or a string. *)
Inductive date_arg : Type :=
| DateLike (t : Z)
| Str (s : string).

Definition is_date (a : date_arg) : bool :=
  match a with DateLike _ => true | Str _ => false end.

(** Python truthiness. *)
Definition truthy (a : date_arg) : bool :=
  match a with
  | DateLike _ => true
  | Str s => negb (String.eqb s EmptyString)
  end.

(** [a[:10]]: only strings can be sliced. *)
Definition slice10 (a : date_arg) : result string :=
  match a with
  | DateLike _ => Raise TypeError
  | Str s => Ok (substring 0 10 s)
  end.

Definition instant (a : date_arg) : Z :=
  match a with DateLike t => t | Str _ => 0 end.

(** [calc_lt_ref_speed(data, date_from, date_to)]; both date arguments
    default to [Str ""]. *)
Definition calc_lt_ref_speed (data : DataFrame) (date_from date_to : date_arg)
  : result (option Q) :=
  data <-
    (if is_date date_from && is_date date_to then
       loc_slice data (instant date_from) (instant date_to)
     else if truthy date_from && truthy date_to then
       s1 <- slice10 date_from ;;
       date_from <- strptime_ymd s1 ;;
       s2 <- slice10 date_to ;;
       date_to <- strptime_ymd s2 ;;
       loc_slice data date_from date_to
     else Ok data) ;;
  get_value (mean_of_monthly_means data) 0 "MOMM".

(** ** Time continuity *)

(** [data.dropna(how='all')]: rows in which every value is missing go. *)
Definition is_missing (v : option Q) : bool :=
  match v with None => true | Some _ => false end.

Definition dropna_all (data : DataFrame) : DataFrame :=
  {| columns := columns data;
     rows := filter (fun r => negb (forallb is_missing (snd r))) (rows data) |}.

(** A row of the continuity table. *)
Record gap : Type := {
  Date_To : Z;
  Date_From : Z;
  Days_Lost : Q
}.

(** The table before filtering: row [i] pairs [indexes[i]] (Date From)
    with [indexes[i+1]] (Date To); rows keep their position as label. *)
Definition days_between (date_from date_to : Z) : Q :=
  (inject_Z (date_to - date_from) / inject_Z ns_per_day)%Q.

Definition continuity_table (indexes : list Z) : list (Z * gap) :=
  map (fun '(i, (date_to, date_from)) =>
         (Z.of_nat i,
          {| Date_To := date_to;
             Date_From := date_from;
             Days_Lost := days_between date_from date_to |}))
      (combine (seq 0 (List.length indexes))
               (combine (tl indexes) (removelast indexes))).

Section Continuity.

(** [transform._get_data_resolution], which is not part of the sources
    at hand: the resolution inferred from an index, as a timedelta in
    nanoseconds. *)
Variable _get_data_resolution : list Z -> result Z.

(** [get_time_continuity_gaps(data)] *)
Definition get_time_continuity_gaps (data : DataFrame)
  : result (list (Z * gap)) :=
  let indexes := index (dropna_all data) in
  let continuity := continuity_table indexes in
  resolution <- _get_data_resolution indexes ;;
  Ok (filter
        (fun r => negb (Qeq_bool (Days_Lost (snd r))
                                 (inject_Z resolution / inject_Z ns_per_day)))
        continuity).

End Continuity.

(** [n] timestamps one hour apart, from [t0]. *)
Definition hourly (t0 : Z) (n : nat) : list Z :=
  map (fun i => t0 + Z.of_nat i * ns_per_hour) (seq 0 n).

(** ** Linear model *)

(** [calc_target_value_by_linear_model(ref_value, slope, offset)] *)
Definition calc_target_value_by_linear_model (ref_value slope offset : Q) : Q :=
  (ref_value * slope + offset)%Q.

(** ** SpeedSort synthesis *)

(** The fitted parameters of one sector. *)
Record SectorSpeedModel : Type := {
  slope : Q;
  offset : Q;
  cutoff : Q;
  target_cutoff : Q
}.

(** A fitted SpeedSort model: the sector count, the bin edges and the
    per-sector models, keyed by sector id. *)
Record SpeedSort : Type := {
  sectors : Z;
  direction_bin_array : list Q;
  speed_model : dict SectorSpeedModel
}.

Fixpoint dict_get {V : Type} (d : dict V) (k : Z) : result V :=
  match d with
  | [] => Raise KeyError
  | (k', v) :: t => if k' =? k then Ok v else dict_get t k
  end.

Section Synthesis.

(** The value used below the cutoff of a sector, which the
    specification leaves open ("a blended/clipped value"). *)
Variable blend : SectorSpeedModel -> Q -> Q.

(** Modelled from the spec: the per-point rule of [SpeedSort.synthesize]
    (module [Correl] is missing from the sources; only its tests are
    present).  The sector of the direction is determined with
    [map_direction_bin], that sector's fitted model is retrieved, and
    then: zero input speed gives zero; a speed below the sector cutoff
    gives the blended value; any other speed goes through the sector's
    linear model. *)
Definition synthesize_point (m : SpeedSort) (input_spd input_dir : Q)
  : result Q :=
  sector <- map_direction_bin input_dir (direction_bin_array m) (sectors m) ;;
  model <- dict_get (speed_model m) sector ;;
  if Qeq_bool input_spd 0 then Ok 0%Q
  else if Qltb input_spd (cutoff model) then Ok (blend model input_spd)
  else Ok (calc_target_value_by_linear_model input_spd (slope model)
                                             (offset model)).

(** Modelled from the spec: [SpeedSort.synthesize(input_spd, input_dir)],
    one output per (speed, direction) pair, in order. *)
Fixpoint synthesize (m : SpeedSort) (input : list (Q * Q))
  : result (list Q) :=
  match input with
  | [] => Ok []
  | (spd, dir) :: rest =>
      y <- synthesize_point m spd dir ;;
      ys <- synthesize m rest ;;
      Ok (y :: ys)
  end.

End Synthesis.

(** A SpeedSort model is fitted when its edges are the zero-centered
    edges of its sector count and every sector 1..sectors has a model. *)
Definition fitted (m : SpeedSort) : Prop :=
  0 < sectors m /\
  get_direction_bin_array (sectors m) = Ok (direction_bin_array m) /\
  forall k, 1 <= k <= sectors m ->
            exists sm, dict_get (speed_model m) k = Ok sm.

(** ** The zero-centered edges in closed form *)

(** Inner edge number [i] (from 0) for [s] sectors, and the whole array
    that [get_direction_bin_array] builds for a positive [s]. *)
Definition inner_edge (s : Z) (i : nat) : Q :=
  (180 / inject_Z s + inject_Z (Z.of_nat i) * (360 / inject_Z s))%Q.

Definition zero_centered_edges (s : Z) : list Q :=
  0%Q :: map (inner_edge s) (seq 0 (Z.to_nat s)) ++ [360%Q].

(** The label of position [j] (sector [j + 1]), read off the edges. *)
Definition label_at (float_str : Q -> string) (direction_bins : list Q)
           (zero_centred : bool) (j : nat) : string :=
  if (j =? 0)%nat && zero_centred then
    format_label float_str
                 (nth (List.length direction_bins - 2) direction_bins 0%Q)
                 (nth 1 direction_bins 0%Q)
  else
    format_label float_str (nth j direction_bins 0%Q)
                 (nth (S j) direction_bins 0%Q).

(** ** Equality of results up to the representation of a rational *)

(** Two float results are the same when both are missing or both are
    present and equal as rationals. *)
Inductive same_value : option Q -> option Q -> Prop :=
| same_missing : same_value None None
| same_present (x y : Q) : (x == y)%Q -> same_value (Some x) (Some y).

Definition same_row {K : Type} (r r' : K * list (option Q)) : Prop :=
  fst r = fst r' /\ Forall2 same_value (snd r) (snd r').

Definition same_frame (a b : DataFrame) : Prop :=
  columns a = columns b /\ Forall2 same_row (rows a) (rows b).

Definition same_series (a b : list (string * option Q)) : Prop :=
  Forall2 (fun x y => fst x = fst y /\ same_value (snd x) (snd y)) a b.

(** ** Operations on frames used to state the properties *)

(** Every row of calendar month [m] repeated [n] times, in place. *)
Definition duplicate_rows (m : Z) (n : nat) (rs : list (Z * list (option Q)))
  : list (Z * list (option Q)) :=
  flat_map (fun r => if month_of (fst r) =? m then repeat r n else [r]) rs.

Definition duplicate_month (m : Z) (n : nat) (df : DataFrame) : DataFrame :=
  {| columns := columns df; rows := duplicate_rows m n (rows df) |}.

(** The calendar months that occur in the index. *)
Definition months_present (df : DataFrame) : list Z :=
  filter (fun m => match month_group df m with [] => false | _ => true end)
         calendar_months.

(** The rows of a frame between two instants, both included. *)
Definition in_range (date_from date_to : Z) (data : DataFrame) : DataFrame :=
  {| columns := columns data;
     rows := filter (fun r => (date_from <=? fst r) && (fst r <=? date_to))
                    (rows data) |}.

(** Hourly timestamps from [t0] with one whole day missing: [k] stamps,
    then none for the next 24 hours, then [n] stamps. *)
Definition hourly_with_gap (t0 : Z) (k n : nat) : list Z :=
  hourly t0 k ++ hourly (t0 + (Z.of_nat k + 24) * ns_per_hour) n.

(** Row [i] of the continuity table of an index. *)
Definition continuity_row (indexes : list Z) (i : nat) : Z * gap :=
  (Z.of_nat i,
   {| Date_To := nth (S i) indexes 0;
      Date_From := nth i indexes 0;
      Days_Lost := days_between (nth i indexes 0) (nth (S i) indexes 0) |}).

(** ** Sample inputs *)

(** A sample rendering of a number, used to run the label code: whole
    numbers as in ["345.0"], any other as a reduced fraction. *)
Definition render_Z (z : Z) : string := NilZero.string_of_int (Z.to_int z).

Definition render_float (q : Q) : string :=
  let r := Qred q in
  if (Qden r =? 1)%positive then (render_Z (Qnum r) ++ ".0")%string
  else (render_Z (Qnum r) ++ "/" ++ render_Z (Zpos (Qden r)))%string.

(** Midnight of a calendar date, in nanoseconds since the epoch. *)
Definition at_midnight (y m d : Z) : Z := days_from_civil y m d * ns_per_day.

(** A frame with one column, labelled like the result column: two
    January rows, one June row. *)
Definition winter_heavy : DataFrame :=
  {| columns := ["MOMM"%string];
     rows := [(at_midnight 2018 1 5, [Some 4%Q]);
              (at_midnight 2018 1 6, [Some 6%Q]);
              (at_midnight 2018 6 1, [Some 10%Q])] |}.

(** A frame with one wind-speed column. *)
Definition mast_speeds : DataFrame :=
  {| columns := ["Spd80mN"%string];
     rows := [(at_midnight 2018 1 5, [Some 4%Q]);
              (at_midnight 2018 1 6, [Some 6%Q]);
              (at_midnight 2018 6 1, [Some 10%Q])] |}.

(** Five hourly readings around one missing day, and one row without any
    value inside the missing day. *)
Definition gappy_mast : DataFrame :=
  {| columns := ["Spd80mN"%string];
     rows := [(at_midnight 2018 1 1, [Some 5%Q]);
              (at_midnight 2018 1 1 + 1 * ns_per_hour, [Some 6%Q]);
              (at_midnight 2018 1 1 + 2 * ns_per_hour, [Some 7%Q]);
              (at_midnight 2018 1 1 + 9 * ns_per_hour, [None]);
              (at_midnight 2018 1 1 + 27 * ns_per_hour, [Some 4%Q]);
              (at_midnight 2018 1 1 + 28 * ns_per_hour, [Some 3%Q])] |}.

(** A way to infer the resolution, used to run the gap code: the most
    frequent step between adjacent timestamps (the earliest on a tie). *)
Definition steps (indexes : list Z) : list Z :=
  map (fun p => fst p - snd p) (combine (tl indexes) (removelast indexes)).

Definition most_frequent_step (indexes : list Z) : result Z :=
  let ds := steps indexes in
  match ds with
  | [] => Raise ValueError
  | d :: rest =>
      Ok (fold_left
            (fun best c => if (count_occ Z.eq_dec ds best
                               <? count_occ Z.eq_dec ds c)%nat
                           then c else best)
            rest d)
  end.

(** A four-sector model and a blend that joins the origin to the cutoff
    point, used to run the synthesis. *)
Definition sample_sector (s o c : Q) : SectorSpeedModel :=
  {| slope := s; offset := o; cutoff := c;
     target_cutoff := calc_target_value_by_linear_model c s o |}.

Definition sample_speedsort : SpeedSort :=
  {| sectors := 4;
     direction_bin_array := zero_centered_edges 4;
     speed_model := [(1, sample_sector 1 (1 # 2) 3);
                     (2, sample_sector (9 # 10) 1 4);
                     (3, sample_sector (11 # 10) (- (1 # 2)) 3);
                     (4, sample_sector 1 0 2)] |}.

Definition origin_blend (sm : SectorSpeedModel) (x : Q) : Q :=
  (x * target_cutoff sm / cutoff sm)%Q.

(** ** Further functions of the module *)

Section BinDict.

Variable float_str : Q -> string.

(** The loop of [_get_direction_bin_dict]: as in
    [_get_direction_bin_labels], with the first sector always wrapped. *)
Fixpoint bin_dict_loop (direction_bins : list Q) (i : Z) (items : list Q)
         (map_ : dict string) : result (dict string) :=
  match items with
  | [] => Ok map_
  | lower_bound :: rest =>
      label <-
        (if i =? 0 then
           a <- py_index direction_bins (-2) ;;
           b <- py_index direction_bins 1 ;;
           Ok (format_label float_str a b)
         else
           b <- py_index direction_bins (i + 1) ;;
           Ok (format_label float_str lower_bound b)) ;;
      bin_dict_loop direction_bins (i + 1) rest (dict_set map_ (i + 1) label)
  end.

(** [_get_direction_bin_dict(direction_bins, sectors)] *)
Definition _get_direction_bin_dict (direction_bins : list Q) (sectors : Z)
  : result (dict string) :=
  bin_dict_loop direction_bins 0 (py_slice_to direction_bins sectors) [].

End BinDict.

(** [map_speed_bin(wdspd, bins)]: [right] is passed to [np.digitize] only
    when the speed equals the last edge and is [False] by default; the
    two look-ups [bins[...]] are evaluated, and may raise, before the
    value is returned. *)
Definition map_speed_bin (wdspd : Q) (bins : list Q) : result Q :=
  m <- py_max bins ;;
  let right := Qeq_bool wdspd m in
  k <- np.digitize wdspd bins right ;;
  bin <- py_index bins k ;;
  k <- np.digitize wdspd bins right ;;
  bin_lower <- py_index bins (k - 1) ;;
  k <- np.digitize wdspd bins right ;;
  Ok (inject_Z k - 1)%Q.

(** [speed_bins = np.arange(-0.5, 41, 1)] of [get_TI_by_Speed]. *)
Definition speed_bins : result (list Q) := np.arange (- (1 # 2)) 41 1.




(** Python's [sub in s] on strings. *)
Fixpoint contains (sub s : string) : bool :=
  prefix sub s
  || match s with
     | EmptyString => false
     | String _ s' => contains sub s'
     end.

(** The renaming at the end of [get_concurrent_coverage]:
    [["Coverage" if "_Coverage" in col else col for col in columns]]. *)
Definition coverage_columns (cols : list string) : list string :=
  map (fun col => if contains "_Coverage" col then "Coverage"%string else col)
      cols.

(** [get_concurrent_coverage], from the frame that
    [transform._preprocess_data_for_correlations] returns. *)
Definition get_concurrent_coverage (coverage_df : DataFrame) : DataFrame :=
  {| columns := coverage_columns (columns coverage_df);
     rows := rows coverage_df |}.

(** The directions of sector [k] among [s] zero-centered sectors: the
    first sector straddles north, every other one spans two half-sectors
    around its centre. *)
Definition in_sector (s k : Z) (d : Q) : Prop :=
  (k = 1 /\ ((d < 180 / inject_Z s)%Q \/ (360 - 180 / inject_Z s <= d)%Q)) \/
  (2 <= k <= s /\
   (inject_Z (2 * k - 3) * (180 / inject_Z s) <= d)%Q /\
   (d < inject_Z (2 * k - 1) * (180 / inject_Z s))%Q).

(** Five directions under their index labels. *)
Definition sample_directions : list (Z * Q) :=
  [(10, 0%Q); (20, 44%Q); (30, 45%Q); (40, 315%Q); (50, 360%Q)].

(** Edge number [i] of the speed bins: [-0.5 + i]. *)
Definition speed_edge (i : nat) : Q :=
  (- (1 # 2) + inject_Z (Z.of_nat i) * 1)%Q.


(** A frame with two readings in January and two in June. *)
Definition balanced_mast : DataFrame :=
  {| columns := ["Spd80mN"%string];
     rows := [(at_midnight 2018 1 5, [Some 4%Q]);
              (at_midnight 2018 1 6, [Some 6%Q]);
              (at_midnight 2018 6 1, [Some 10%Q]);
              (at_midnight 2019 6 1, [Some 12%Q])] |}.

(** Four hourly readings without a hole. *)
Definition regular_mast : DataFrame :=
  {| columns := ["Spd80mN"%string];
     rows := [(at_midnight 2018 1 1, [Some 5%Q]);
              (at_midnight 2018 1 1 + 1 * ns_per_hour, [Some 6%Q]);
              (at_midnight 2018 1 1 + 2 * ns_per_hour, [Some 7%Q]);
              (at_midnight 2018 1 1 + 3 * ns_per_hour, [Some 4%Q])] |}.

(** ** Distribution by wind sector, in full *)

(** The value under an index label. *)
Fixpoint lookup {B : Type} (t : Z) (s : list (Z * B)) : option B :=
  match s with
  | [] => None
  | (t', b) :: rest => if t' =? t then Some b else lookup t rest
  end.

(** [pd.concat([a, b], join='inner', axis=1)] for two series whose index
    labels are distinct within each series: the rows whose label occurs
    in both.  (The order of the rows plays no part in what follows.) *)
Definition inner_join {A B : Type} (a : list (Z * A)) (b : list (Z * B))
  : list (Z * (A * B)) :=
  flat_map (fun r => match lookup (fst r) b with
                     | Some y => [(fst r, (snd r, y))]
                     | None => []
                     end) a.

(** The keys of [groupby]: the values that occur, in increasing order,
    each once. *)
Fixpoint insert_key (k : Z) (l : list Z) : list Z :=
  match l with
  | [] => [k]
  | h :: t => if k <? h then k :: l
              else if k =? h then l
              else h :: insert_key k t
  end.

Definition group_keys (ks : list Z) : list Z := fold_right insert_key [] ks.

(** The ['data'] values of the rows of one direction bin. *)
Definition group_values (data : list (Z * (Q * Z))) (k : Z) : list Q :=
  map (fun r => fst (snd r)) (filter (fun r => snd (snd r) =? k) data).

(** The two aggregation methods that occur in the module:
    ['%frequency'] (the default) and ['mean'] (from [get_sector_ratio]). *)
Inductive aggregation_method : Type :=
| pct_frequency
| agg_mean.

(** One group under an aggregation method: [count()/len(data) * 100.0]
    or the mean of the group. *)
Definition aggregate (method : aggregation_method) (len_data : nat)
           (vals : list Q) : Q :=
  match method with
  | pct_frequency =>
      (inject_Z (Z.of_nat (List.length vals)) / inject_Z (Z.of_nat len_data)
       * 100)%Q
  | agg_mean => (Qsum vals / inject_Z (Z.of_nat (List.length vals)))%Q
  end.

(** [result.index = labels]: the lengths must agree. *)
Definition set_index {A : Type} (labels : list string) (values : list A)
  : result (list (string * A)) :=
  if (List.length labels =? List.length values)%nat
  then Ok (combine labels values)
  else Raise ValueError.

Section DistributionInFull.

Variable float_str : Q -> string.

(** [get_distribution_by_wind_sector(var_series, direction_series,
    sectors, aggregation_method, direction_bin_array,
    direction_bin_labels)]: the binning above, the join of the variable
    with the binned directions, one aggregate per direction bin that
    occurs, and the labels as the new index. *)
Definition get_distribution_by_wind_sector
           (var_series direction_series : Series) (sectors : Z)
           (aggregation : aggregation_method)
           (direction_bin_array : option (list Q))
           (direction_bin_labels : option (list string))
  : result (list (string * Q)) :=
  let var_series := dropna var_series in
  st <- get_distribution_by_wind_sector_binning
          float_str direction_series sectors direction_bin_array
          direction_bin_labels ;;
  let data := inner_join var_series (sb_direction_binned_series st) in
  let result :=
    map (fun k => aggregate aggregation (List.length data)
                            (group_values data k))
        (group_keys (map (fun r => snd (snd r)) data)) in
  set_index (sb_direction_bin_labels st) result.

(** [Series.mod(360)] on one value: the remainder takes the sign of the
    divisor. *)
Definition mod360 (d : Q) : Q := (d - 360 * inject_Z (Qfloor (d / 360)))%Q.

(** [s[s > 3]]: the rows whose value exceeds 3; a missing value does not. *)
Definition above_3 (s : Series) : list (Z * Q) :=
  filter (fun r => Qltb 3 (snd r)) (dropna s).

(** The frame [sec_rat] of [get_sector_ratio]: the rows in which both
    speeds exceed 3, with the direction of the same label. *)
Definition sec_rat_frame (wdspd_1 wdspd_2 direction : Series)
  : list (Z * ((Q * Q) * option Q)) :=
  inner_join (inner_join (above_3 wdspd_1) (above_3 wdspd_2)) direction.

(** [sec_rat['dir'].mod(360)] and [sec_rat['speed_2']/sec_rat['speed_1']]. *)
Definition sec_rat_dir (sec_rat : list (Z * ((Q * Q) * option Q))) : Series :=
  map (fun r => (fst r, option_map mod360 (snd (snd r)))) sec_rat.

Definition sec_rat_ratio (sec_rat : list (Z * ((Q * Q) * option Q)))
  : Series :=
  map (fun r => (fst r, Some (snd (fst (snd r)) / fst (fst (snd r)))%Q))
      sec_rat.

(** [get_sector_ratio(wdspd_1, wdspd_2, direction, sectors)] *)
Definition get_sector_ratio (wdspd_1 wdspd_2 direction : Series)
           (sectors : Z) : result (list (string * Q)) :=
  let sec_rat := sec_rat_frame wdspd_1 wdspd_2 direction in
  get_distribution_by_wind_sector (sec_rat_ratio sec_rat) (sec_rat_dir sec_rat)
                                  sectors agg_mean None None.

End DistributionInFull.

(** Two speed series and a direction series under the same labels; the
    directions are not reduced to one turn. *)
Definition sample_speed_1 : Series :=
  [(10, Some 5%Q); (20, Some 6%Q); (30, None); (40, Some 8%Q);
   (50, Some 4%Q); (60, Some 10%Q); (70, Some 2%Q)].

Definition sample_speed_2 : Series :=
  [(10, Some 10%Q); (20, Some 9%Q); (30, Some 7%Q); (40, Some 4%Q);
   (50, Some 6%Q); (60, Some 5%Q); (70, Some 9%Q)].

Definition sample_direction : Series :=
  [(10, Some 0%Q); (20, Some 90%Q); (30, Some 100%Q); (40, Some 540%Q);
   (50, Some (- (90))%Q); (60, Some 350%Q); (70, Some 10%Q)].

(** The same directions within one turn, and a series that leaves the
    southern and western sectors empty. *)
Definition sample_direction_turn : Series :=
  [(10, Some 0%Q); (20, Some 90%Q); (30, Some 100%Q); (40, Some 180%Q);
   (50, Some 270%Q); (60, Some 350%Q); (70, Some 10%Q)].

Definition sample_direction_north_east : Series :=
  [(10, Some 0%Q); (20, Some 90%Q); (30, Some 100%Q); (40, Some 10%Q);
   (50, Some 20%Q); (60, Some 350%Q); (70, Some 10%Q)].

(** ** Distribution over the bins of a second variable *)

(** A category of [pd.cut]: the interval [[lower, upper)] when no labels
    are given, else the label. *)
Inductive category : Type :=
| Interval (lower upper : Q)
| Label (name : string).

(** The tests [pd.cut] makes on an array of bin edges: no edge below its
    predecessor, and no edge twice unless there are just two edges. *)
Fixpoint any_decrease (bins : list Q) : bool :=
  match bins with
  | a :: (b :: _) as t => Qltb b a || any_decrease t
  | _ => false
  end.

Fixpoint has_duplicates (bins : list Q) : bool :=
  match bins with
  | [] => false
  | a :: t => existsb (Qeq_bool a) t || has_duplicates t
  end.

(** The intervals between adjacent edges. *)
Fixpoint intervals (bins : list Q) : list category :=
  match bins with
  | a :: (b :: _) as t => Interval a b :: intervals t
  | _ => []
  end.

(** The code [pd.cut(..., right=False)] gives one value: the number of
    edges not above it, less one; no code below the first edge or from
    the last edge on. *)
Definition cut_code (bins : list Q) (x : Q) : option nat :=
  let ids := np.searchsorted bins x np.Right in
  if (ids =? 0)%nat || (ids =? List.length bins)%nat then None
  else Some (ids - 1)%nat.

(** [pd.cut(series, bins, right=False, labels=labels)] on a series
    without missing values: the categories and the code of each row. *)
Definition cut (series : list (Z * Q)) (bins : list Q)
           (labels : option (list string))
  : result (list category * list (Z * option nat)) :=
  if any_decrease bins then Raise ValueError
  else if has_duplicates bins && negb (List.length bins =? 2)%nat
  then Raise ValueError
  else
    categories <-
      match labels with
      | None => Ok (intervals bins)
      | Some l =>
          if (List.length l =? List.length bins - 1)%nat
          then Ok (map Label l)
          else Raise ValueError
      end ;;
    Ok (categories, map (fun r => (fst r, cut_code bins (snd r))) series).

(** [get_freq_table], up to and including the computation of
    [direction_binned_series]: the labels are made first, then [pd.cut]
    bins the variable series, then the directions are binned; each of the
    three may raise.  The result is the binned variable series and the
    sector state. *)
Definition get_freq_table_binning (float_str : Q -> string)
           (var_series direction_series : Series) (var_bin_array : list Q)
           (sectors : Z) (var_bin_labels : option (list string))
           (direction_bin_array : option (list Q))
           (direction_bin_labels : option (list string))
  : result ((list category * list (Z * option nat)) * sector_binning) :=
  let var_series := dropna var_series in
  let direction_series := dropna direction_series in
  st <- match direction_bin_array with
        | None =>
            a <- get_direction_bin_array sectors ;;
            Ok (sectors, a, true)
        | Some a =>
            Ok (Z.of_nat (List.length a) - 1, a, false)
        end ;;
  let '(sectors, direction_bin_array, zero_centered) := st in
  direction_bin_labels <-
    match direction_bin_labels with
    | None => _get_direction_bin_labels float_str sectors
                                        direction_bin_array zero_centered
    | Some l => Ok l
    end ;;
  var_binned_series <- cut var_series var_bin_array var_bin_labels ;;
  direction_binned_series <-
    get_binned_direction_series direction_series sectors
                                (Some direction_bin_array) ;;
  Ok (var_binned_series,
      {| sb_sectors := sectors;
         sb_direction_bin_array := direction_bin_array;
         sb_zero_centered := zero_centered;
         sb_direction_bin_labels := direction_bin_labels;
         sb_direction_binned_series := direction_binned_series |}).

(** One category under an aggregation method; dividing a zero count by a
    zero length, and the mean of no value, are missing values. *)
Definition aggregate_category (method : aggregation_method) (len_data : nat)
           (vals : list Q) : option Q :=
  match method with
  | pct_frequency =>
      match len_data with
      | O => None
      | _ => Some (aggregate pct_frequency len_data vals)
      end
  | agg_mean =>
      match vals with
      | [] => None
      | _ => Some (aggregate agg_mean len_data vals)
      end
  end.

(** The ['data'] values of the rows of one category. *)
Definition category_values (data : list (Z * (Q * option nat))) (j : nat)
  : list Q :=
  map (fun r => fst (snd r))
      (filter (fun r => match snd (snd r) with
                        | Some c => (c =? j)%nat
                        | None => false
                        end) data).

(** [get_distribution(var1_series, var2_series, var2_bin_array,
    var2_bin_labels, aggregation_method)]: grouping by the categorical
    column keeps every category, also one without rows. *)
Definition get_distribution (var1_series var2_series : Series)
           (var2_bin_array : list Q) (var2_bin_labels : option (list string))
           (aggregation : aggregation_method)
  : result (list (category * option Q)) :=
  let var1_series := dropna var1_series in
  let var2_series := dropna var2_series in
  binned <- cut var2_series var2_bin_array var2_bin_labels ;;
  let '(categories, var2_binned_series) := binned in
  let data := inner_join var1_series var2_binned_series in
  Ok (map (fun j => (nth j categories (Label EmptyString),
                     aggregate_category aggregation (List.length data)
                                        (category_values data j)))
          (seq 0 (List.length categories))).

(** The rows of the joined data whose second variable lies inside the
    bins. *)
Definition rows_inside (data : list (Z * (Q * option nat)))
  : list (Z * (Q * option nat)) :=
  filter (fun r => match snd (snd r) with Some _ => true | None => false end)
         data.

(** Three edges for the second sample speed series: one of its values
    lies above the last edge. *)
Definition sample_bins : list Q := [4%Q; 6%Q; 19 # 2].

(** The directions of sector [k] read off an array of [sectors + 2]
    edges: sector 1 lies below edge 1 or from edge [sectors] on, and
    sector [k >= 2] between edge [k - 1] and edge [k]. *)
Definition edges_sector (edges : list Q) (sectors k : Z) (d : Q) : Prop :=
  (k = 1 /\ ((d < nth 1 edges 0)%Q \/ (nth (Z.to_nat sectors) edges 0 <= d)%Q)) \/
  (2 <= k <= sectors /\
   (nth (Z.to_nat k - 1) edges 0 <= d)%Q /\ (d < nth (Z.to_nat k) edges 0)%Q).

(** The rows of [winter_heavy] out of time order. *)
Definition unsorted_mast : DataFrame :=
  {| columns := ["MOMM"%string];
     rows := [(at_midnight 2018 6 1, [Some 10%Q]);
              (at_midnight 2018 1 5, [Some 4%Q]);
              (at_midnight 2018 1 6, [Some 6%Q])] |}.

(** * Properties *)

(** ** The definitions at work *)

Example edges_of_twelve_sectors :
  rmap (map Qred) (get_direction_bin_array 12)
  = Ok [0; 15; 45; 75; 105; 135; 165; 195; 225; 255; 285; 315; 345; 360]%Q.
Proof. vm_compute. reflexivity. Qed.

Example edges_of_no_sector : get_direction_bin_array 0 = Raise ZeroDivisionError.
Proof. reflexivity. Qed.

Example bins_over_twelve_sectors :
  map (fun d => a <- get_direction_bin_array 12 ;; map_direction_bin d a 12)
      [0; 14; 15; 200; 344; 345; 360]%Q
  = [Ok 1; Ok 1; Ok 2; Ok 8; Ok 12; Ok 1; Ok 1].
Proof. vm_compute. reflexivity. Qed.

Example digitize_rejects_unsorted_bins :
  np.digitize 5 [0; 20; 10]%Q false = Raise ValueError.
Proof. reflexivity. Qed.

Example digitize_decreasing_bins :
  np.digitize 15 [30; 20; 10; 0]%Q false = Ok 2.
Proof. vm_compute. reflexivity. Qed.

Example epoch_is_first_of_january : civil_from_days 0 = (1970, 1, 1).
Proof. reflexivity. Qed.

Example leap_day_round_trip :
  civil_from_days (days_from_civil 2016 2 29) = (2016, 2, 29).
Proof. vm_compute. reflexivity. Qed.

Example strptime_reads_a_date :
  strptime_ymd (substring 0 10 "2018-01-31 12:30:00")
  = Ok (at_midnight 2018 1 31).
Proof. vm_compute. reflexivity. Qed.

Example strptime_accepts_short_fields :
  rmap (fun t => civil_from_days (t / ns_per_day)) (strptime_ymd "2018-3-7")
  = Ok (2018, 3, 7).
Proof. vm_compute. reflexivity. Qed.

Example strptime_rejects_a_wrong_day :
  strptime_ymd "2018-02-30" = Raise ValueError.
Proof. vm_compute. reflexivity. Qed.

Example mixed_date_arguments_raise :
  calc_lt_ref_speed winter_heavy (DateLike (at_midnight 2018 1 1))
                    (Str "2018-12-31") = Raise TypeError.
Proof. reflexivity. Qed.

Example whole_record_mean :
  rmap (option_map Qred) (calc_lt_ref_speed winter_heavy (Str "") (Str ""))
  = Ok (Some (15 # 2)).
Proof. vm_compute. reflexivity. Qed.

(** ** Arithmetic of the zero-centered edges *)

Lemma Qltb_lt (x y : Q) : Qltb x y = true <-> (x < y)%Q.
Proof.
  unfold Qltb. rewrite negb_true_iff. split.
  - intros H. apply Qnot_le_lt. intros Hle.
    apply Qle_bool_iff in Hle. congruence.
  - intros H. destruct (Qle_bool y x) eqn:E; [|reflexivity].
    apply Qle_bool_iff in E. exfalso. exact (Qlt_not_le _ _ H E).
Qed.

Lemma Qltb_ge (x y : Q) : Qltb x y = false <-> (y <= x)%Q.
Proof.
  unfold Qltb. rewrite negb_false_iff. apply Qle_bool_iff.
Qed.

Lemma inject_Z_nonzero (z : Z) : z <> 0 -> ~ (inject_Z z == 0)%Q.
Proof.
  intros H E. apply H. unfold Qeq in E. simpl in E. lia.
Qed.

Lemma half_sector_count (s : Z) :
  0 < s ->
  ((360 - 180 / inject_Z s) / (360 / inject_Z s) == inject_Z s - (1 # 2))%Q.
Proof.
  intros H. field. apply inject_Z_nonzero. lia.
Qed.

Lemma Qceiling_minus_half (s : Z) : Qceiling (inject_Z s - (1 # 2)) = s.
Proof.
  pose proof (Qle_ceiling (inject_Z s - (1 # 2))) as Hle.
  pose proof (Qceiling_lt (inject_Z s - (1 # 2))) as Hlt.
  set (c := Qceiling (inject_Z s - (1 # 2))) in *.
  unfold Qle, Qlt, Qminus, Qplus, Qopp, inject_Z in *. simpl in *. lia.
Qed.

Lemma arange_len_sectors (s : Z) :
  0 < s ->
  np.arange_len (180 / inject_Z s) 360 (360 / inject_Z s) = Z.to_nat s.
Proof.
  intros H. unfold np.arange_len.
  rewrite (Qceiling_comp _ _ (half_sector_count s H)).
  now rewrite Qceiling_minus_half.
Qed.

Lemma get_direction_bin_array_closed (s : Z) :
  0 < s -> get_direction_bin_array s = Ok (zero_centered_edges s).
Proof.
  intros H. unfold get_direction_bin_array.
  destruct (s =? 0) eqn:E; [lia|].
  unfold np.arange.
  destruct (Qeq_bool (360 / inject_Z s) 0) eqn:E0.
  - apply Qeq_bool_iff in E0. exfalso.
    assert (Hs : ~ (inject_Z s == 0)%Q) by (apply inject_Z_nonzero; lia).
    assert (H360 : (360 == 0)%Q).
    { rewrite <- (Qmult_div_r 360 (inject_Z s) Hs).
      rewrite E0. ring. }
    discriminate H360.
  - cbn [bind]. rewrite arange_len_sectors by assumption. reflexivity.
Qed.

Lemma inner_edge_bounds (s : Z) (i : nat) :
  0 < s -> Z.of_nat i < s -> (0 < inner_edge s i /\ inner_edge s i < 360)%Q.
Proof.
  intros Hs Hi. unfold inner_edge.
  assert (Hq : (0 < inject_Z s)%Q) by (unfold Qlt; simpl; lia).
  assert (Hn : ~ (inject_Z s == 0)%Q) by (apply inject_Z_nonzero; lia).
  assert (E : (180 / inject_Z s + inject_Z (Z.of_nat i) * (360 / inject_Z s)
               == (180 + 360 * inject_Z (Z.of_nat i)) / inject_Z s)%Q)
    by (field; assumption).
  rewrite E. split.
  - apply Qlt_shift_div_l; [assumption|].
    unfold Qlt, Qmult, Qplus, inject_Z; cbn [Qnum Qden]. lia.
  - apply Qlt_shift_div_r; [assumption|].
    unfold Qlt, Qmult, Qplus, inject_Z; cbn [Qnum Qden]. lia.
Qed.

Lemma inner_edge_step (s : Z) (i : nat) :
  0 < s -> (inner_edge s (S i) - inner_edge s i == 360 / inject_Z s)%Q.
Proof.
  intros Hs. unfold inner_edge.
  rewrite Nat2Z.inj_succ. unfold Z.succ. rewrite inject_Z_plus.
  field. apply inject_Z_nonzero. lia.
Qed.

Lemma inner_edge_first (s : Z) : (inner_edge s 0 == 180 / inject_Z s)%Q.
Proof. unfold inner_edge. simpl. ring. Qed.

Lemma zero_centered_edges_length (s : Z) :
  0 <= s -> Z.of_nat (List.length (zero_centered_edges s)) = s + 2.
Proof.
  intros H. unfold zero_centered_edges. cbn [List.length].
  rewrite length_app, length_map, length_seq. cbn [List.length]. lia.
Qed.

(** ** Sorted edges, their maximum and the counts of [searchsorted] *)

Lemma filter_all {A : Type} (p : A -> bool) (l : list A) :
  (forall x, In x l -> p x = true) -> filter p l = l.
Proof.
  induction l as [|a l IH]; intros H; [reflexivity|].
  cbn [filter]. rewrite (H a (or_introl eq_refl)).
  f_equal. apply IH. intros x Hx. apply H. now right.
Qed.

Lemma filter_none {A : Type} (p : A -> bool) (l : list A) :
  (forall x, In x l -> p x = false) -> filter p l = [].
Proof.
  induction l as [|a l IH]; intros H; [reflexivity|].
  cbn [filter]. rewrite (H a (or_introl eq_refl)).
  apply IH. intros x Hx. apply H. now right.
Qed.

Lemma nondecreasing_cons (x : Q) (l : list Q) :
  (forall y, In y l -> (x <= y)%Q) ->
  np.nondecreasing l = true -> np.nondecreasing (x :: l) = true.
Proof.
  intros Hx Hl. destruct l as [|y t]; [reflexivity|].
  cbn [np.nondecreasing] in *. rewrite Hl, andb_true_r.
  apply Qle_bool_iff. apply Hx. now left.
Qed.

Lemma nondecreasing_inner (s : Z) (k a : nat) :
  0 < s -> Z.of_nat (a + k) <= s ->
  np.nondecreasing (map (inner_edge s) (seq a k) ++ [360%Q]) = true.
Proof.
  intros Hs. revert a. induction k as [|k IH]; intros a Ha; [reflexivity|].
  cbn [seq map app]. apply nondecreasing_cons.
  - intros y Hy. apply in_app_or in Hy. destruct Hy as [Hy|Hy].
    + apply in_map_iff in Hy. destruct Hy as [j [<- Hj]].
      apply in_seq in Hj. unfold inner_edge.
      apply Qplus_le_r. apply Qmult_le_compat_r.
      * unfold Qle, inject_Z; cbn [Qnum Qden]. lia.
      * apply Qlt_le_weak. apply Qlt_shift_div_l.
        -- unfold Qlt, inject_Z; cbn [Qnum Qden]. lia.
        -- unfold Qlt, Qmult, inject_Z; cbn [Qnum Qden]. lia.
    + destruct Hy as [<-|[]]. apply Qlt_le_weak.
      apply inner_edge_bounds; lia.
  - apply IH. lia.
Qed.

Lemma zero_centered_edges_sorted (s : Z) :
  0 < s -> np.nondecreasing (zero_centered_edges s) = true.
Proof.
  intros Hs. unfold zero_centered_edges. apply nondecreasing_cons.
  - intros y Hy. apply in_app_or in Hy. destruct Hy as [Hy|Hy].
    + apply in_map_iff in Hy. destruct Hy as [j [<- Hj]].
      apply in_seq in Hj. apply Qlt_le_weak.
      apply inner_edge_bounds; lia.
    + destruct Hy as [<-|[]]. discriminate.
  - apply nondecreasing_inner; lia.
Qed.

Lemma digitize_sorted (x : Q) (bins : list Q) (right : bool) :
  np.nondecreasing bins = true ->
  np.digitize x bins right =
  Ok (Z.of_nat (np.searchsorted bins x (if right then np.Left else np.Right))).
Proof.
  intros H. unfold np.digitize, np.monotonicity. now rewrite H.
Qed.

Lemma fold_max_spec (t : list Q) (x : Q) :
  let m := fold_left (fun m y => if Qltb m y then y else m) t x in
  In m (x :: t) /\ forall e, In e (x :: t) -> (e <= m)%Q.
Proof.
  revert x. induction t as [|y t IH]; intros x; cbn [fold_left].
  - split; [now left|]. intros e [<-|[]]. apply Qle_refl.
  - destruct (Qltb x y) eqn:E.
    + apply Qltb_lt in E. destruct (IH y) as [Hin Hmax]. split.
      * right. exact Hin.
      * intros e [<-|He]; [|now apply Hmax].
        apply Qle_trans with y; [now apply Qlt_le_weak|].
        apply Hmax. now left.
    + apply Qltb_ge in E. destruct (IH x) as [Hin Hmax]. split.
      * destruct Hin as [<-|Hin]; [now left|]. right. now right.
      * intros e [<-|[<-|He]].
        -- apply Hmax. now left.
        -- apply Qle_trans with x; [assumption|]. apply Hmax. now left.
        -- apply Hmax. now right.
Qed.

Lemma zero_centered_edges_in (s : Z) (e : Q) :
  0 < s -> In e (zero_centered_edges s) -> (0 <= e <= 360)%Q.
Proof.
  intros Hs [<-|He]; [split; discriminate|].
  apply in_app_or in He. destruct He as [He|[<-|[]]].
  - apply in_map_iff in He. destruct He as [j [<- Hj]].
    apply in_seq in Hj.
    destruct (inner_edge_bounds s j Hs) as [H1 H2]; [lia|].
    split; now apply Qlt_le_weak.
  - split; [discriminate | apply Qle_refl].
Qed.

Lemma zero_centered_edges_max (s : Z) :
  0 < s -> exists m, py_max (zero_centered_edges s) = Ok m /\ (m == 360)%Q.
Proof.
  intros Hs. unfold zero_centered_edges, py_max.
  eexists. split; [reflexivity|].
  match goal with
  | |- (fold_left ?f ?t ?x == _)%Q =>
      destruct (fold_max_spec t x) as [Hin Hmax]
  end.
  apply Qle_antisym.
  - apply (zero_centered_edges_in s _ Hs Hin).
  - apply Hmax. right. apply in_or_app. right. now left.
Qed.

(** Counting the zero-centered edges on either side of a direction. *)
Lemma count_right_bounds (s : Z) (d : Q) :
  0 < s -> (0 <= d)%Q -> (d < 360)%Q ->
  1 <= Z.of_nat (np.searchsorted (zero_centered_edges s) d np.Right) <= s + 1.
Proof.
  intros Hs H0 H360. unfold np.searchsorted, zero_centered_edges.
  cbn [filter]. destruct (Qle_bool 0 d) eqn:E.
  2:{ apply Qle_bool_iff in H0. congruence. }
  cbn [List.length]. rewrite filter_app. cbn [filter].
  destruct (Qle_bool 360 d) eqn:E'.
  { apply Qle_bool_iff in E'. exfalso. exact (Qlt_not_le _ _ H360 E'). }
  rewrite app_nil_r.
  pose proof (filter_length_le (fun e => Qle_bool e d)
                               (map (inner_edge s) (seq 0 (Z.to_nat s)))) as L.
  rewrite length_map, length_seq in L. lia.
Qed.

Lemma count_right_zero (s : Z) (d : Q) :
  0 < s -> (d == 0)%Q ->
  np.searchsorted (zero_centered_edges s) d np.Right = 1%nat.
Proof.
  intros Hs Hd. unfold np.searchsorted, zero_centered_edges.
  cbn [filter]. destruct (Qle_bool 0 d) eqn:E.
  2:{ assert (H : (0 <= d)%Q) by (rewrite Hd; apply Qle_refl).
      apply Qle_bool_iff in H. congruence. }
  cbn [List.length]. f_equal. rewrite filter_none; [reflexivity|].
  intros e He. apply in_app_or in He.
  destruct (Qle_bool e d) eqn:Ee; [|reflexivity].
  apply Qle_bool_iff in Ee. rewrite Hd in Ee. exfalso.
  destruct He as [He|[<-|[]]].
  - apply in_map_iff in He. destruct He as [j [<- Hj]]. apply in_seq in Hj.
    destruct (inner_edge_bounds s j Hs) as [H1 _]; [lia|].
    exact (Qlt_not_le _ _ H1 Ee).
  - exact (Ee eq_refl).
Qed.

Lemma count_left_full (s : Z) (d : Q) :
  0 < s -> (d == 360)%Q ->
  Z.of_nat (np.searchsorted (zero_centered_edges s) d np.Left) = s + 1.
Proof.
  intros Hs Hd. unfold np.searchsorted, zero_centered_edges.
  cbn [filter]. destruct (Qltb 0 d) eqn:E.
  2:{ apply Qltb_ge in E. rewrite Hd in E. exfalso. exact (E eq_refl). }
  cbn [List.length]. rewrite filter_app. cbn [filter].
  destruct (Qltb 360 d) eqn:E'.
  { apply Qltb_lt in E'. rewrite Hd in E'. discriminate E'. }
  rewrite app_nil_r, filter_all.
  - rewrite length_map, length_seq. lia.
  - intros e He. apply in_map_iff in He. destruct He as [j [<- Hj]].
    apply in_seq in Hj. apply Qltb_lt. rewrite Hd.
    apply inner_edge_bounds; lia.
Qed.

(** ** Sector assignment over the zero-centered edges *)

Lemma map_direction_bin_inside (s : Z) (d : Q) :
  0 < s -> (0 <= d)%Q -> (d < 360)%Q ->
  exists k, map_direction_bin d (zero_centered_edges s) s = Ok k
            /\ 1 <= k <= s.
Proof.
  intros Hs H0 H360. unfold map_direction_bin.
  destruct (zero_centered_edges_max s Hs) as [m [-> Hm]]. cbn [bind].
  assert (E : Qeq_bool d m = false).
  { destruct (Qeq_bool d m) eqn:E; [|reflexivity].
    apply Qeq_bool_iff in E. rewrite E, Hm in H360.
    discriminate H360. }
  rewrite E, digitize_sorted by now apply zero_centered_edges_sorted.
  cbn [bind].
  pose proof (count_right_bounds s d Hs H0 H360) as B.
  destruct (Z.eqb_spec
              (Z.of_nat (np.searchsorted (zero_centered_edges s) d np.Right))
              (s + 1)).
  - exists 1. split; [reflexivity | lia].
  - eexists. split; [reflexivity | lia].
Qed.

Lemma map_direction_bin_north (s : Z) (d : Q) :
  0 < s -> (d == 0)%Q ->
  map_direction_bin d (zero_centered_edges s) s = Ok 1.
Proof.
  intros Hs Hd. unfold map_direction_bin.
  destruct (zero_centered_edges_max s Hs) as [m [-> Hm]]. cbn [bind].
  assert (E : Qeq_bool d m = false).
  { destruct (Qeq_bool d m) eqn:E; [|reflexivity].
    apply Qeq_bool_iff in E. rewrite Hd, Hm in E. discriminate E. }
  rewrite E, digitize_sorted by now apply zero_centered_edges_sorted.
  cbn [bind]. rewrite count_right_zero by assumption.
  destruct (Z.eqb_spec (Z.of_nat 1) (s + 1)); [lia | reflexivity].
Qed.

Lemma map_direction_bin_full_turn (s : Z) (d : Q) :
  0 < s -> (d == 360)%Q ->
  map_direction_bin d (zero_centered_edges s) s = Ok 1.
Proof.
  intros Hs Hd. unfold map_direction_bin.
  destruct (zero_centered_edges_max s Hs) as [m [-> Hm]]. cbn [bind].
  assert (E : Qeq_bool d m = true).
  { apply Qeq_bool_iff. now rewrite Hd, Hm. }
  rewrite E, digitize_sorted by now apply zero_centered_edges_sorted.
  cbn [bind]. rewrite count_left_full by assumption.
  now rewrite Z.eqb_refl.
Qed.

Lemma map_direction_bin_on_circle (s : Z) (d : Q) :
  0 < s -> (0 <= d)%Q -> (d <= 360)%Q ->
  exists k, map_direction_bin d (zero_centered_edges s) s = Ok k
            /\ 1 <= k <= s.
Proof.
  intros Hs H0 H360. destruct (Qlt_le_dec d 360) as [Hlt|Hge].
  - now apply map_direction_bin_inside.
  - exists 1. split; [|lia]. apply map_direction_bin_full_turn; [assumption|].
    now apply Qle_antisym.
Qed.

(** ** The edges of [get_direction_bin_array] *)

(** C1, as the code has it: for a positive sector count the edges number
    [sectors + 2]: 0 comes first, then [sectors] inner edges that start
    at [180/sectors] and advance by [360/sectors], and 360 comes last. *)
Theorem get_direction_bin_array_edges (sectors : Z) :
  0 < sectors ->
  exists edges,
    get_direction_bin_array sectors = Ok edges /\
    Z.of_nat (List.length edges) = sectors + 2 /\
    nth_error edges 0 = Some 0%Q /\
    (exists e1, nth_error edges 1 = Some e1 /\ (e1 == 180 / inject_Z sectors)%Q) /\
    (forall i, (0 < i)%nat -> Z.of_nat i < sectors ->
       exists a b, nth_error edges i = Some a /\ nth_error edges (S i) = Some b
                   /\ (b - a == 360 / inject_Z sectors)%Q) /\
    nth_error edges (Z.to_nat sectors + 1) = Some 360%Q.
Proof.
  intros Hs. exists (zero_centered_edges sectors).
  split; [now apply get_direction_bin_array_closed|].
  split; [apply zero_centered_edges_length; lia|].
  assert (Hnth : forall j, Z.of_nat j < sectors ->
            nth_error (zero_centered_edges sectors) (S j)
            = Some (inner_edge sectors j)).
  { intros j Hj. unfold zero_centered_edges. cbn [nth_error].
    rewrite nth_error_app1 by (rewrite length_map, length_seq; lia).
    rewrite nth_error_map, nth_error_seq.
    destruct (Nat.ltb_spec j (Z.to_nat sectors)); [reflexivity | lia]. }
  split; [reflexivity|]. split; [|split].
  - exists (inner_edge sectors 0). split; [apply Hnth; lia|].
    apply inner_edge_first.
  - intros i Hi Hlt. destruct i as [|j]; [lia|].
    exists (inner_edge sectors j), (inner_edge sectors (S j)).
    split; [apply Hnth; lia|]. split; [apply Hnth; lia|].
    now apply inner_edge_step.
  - unfold zero_centered_edges. rewrite Nat.add_1_r. cbn [nth_error].
    rewrite nth_error_app2 by (rewrite length_map, length_seq; lia).
    rewrite length_map, length_seq, Nat.sub_diag. reflexivity.
Qed.

Lemma get_direction_bin_array_edges_witness :
  0 < 12 /\
  exists edges,
    get_direction_bin_array 12 = Ok edges /\
    Z.of_nat (List.length edges) = 12 + 2 /\
    nth_error edges 0 = Some 0%Q /\
    (exists e1, nth_error edges 1 = Some e1 /\ (e1 == 180 / inject_Z 12)%Q) /\
    (forall i, (0 < i)%nat -> Z.of_nat i < 12 ->
       exists a b, nth_error edges i = Some a /\ nth_error edges (S i) = Some b
                   /\ (b - a == 360 / inject_Z 12)%Q) /\
    nth_error edges (Z.to_nat 12 + 1) = Some 360%Q.
Proof.
  split; [lia | apply (get_direction_bin_array_edges 12); lia].
Defined.

(** C1 as stated fails: twelve sectors give fourteen edges, not thirteen. *)
Lemma get_direction_bin_array_not_sectors_plus_one :
  rmap (fun edges => Z.of_nat (List.length edges)) (get_direction_bin_array 12)
  = Ok 14
  /\ 14 <> 12 + 1.
Proof.
  split; [vm_compute; reflexivity | lia].
Qed.

(** ** Totality of the sector assignment *)

(** C2: over the zero-centered edges of a positive sector count, every
    direction in [0, 360) gets a sector id between 1 and [sectors], and
    the directions 0 and 360 get the same sector, the first one. *)
Theorem map_direction_bin_total (sectors : Z) (d : Q) :
  0 < sectors -> (0 <= d)%Q -> (d < 360)%Q ->
  exists edges,
    get_direction_bin_array sectors = Ok edges /\
    (exists k, map_direction_bin d edges sectors = Ok k /\ 1 <= k <= sectors) /\
    map_direction_bin 0 edges sectors = Ok 1 /\
    map_direction_bin 360 edges sectors = Ok 1.
Proof.
  intros Hs H0 H360. exists (zero_centered_edges sectors).
  split; [now apply get_direction_bin_array_closed|]. split; [|split].
  - now apply map_direction_bin_inside.
  - apply map_direction_bin_north; [assumption | reflexivity].
  - apply map_direction_bin_full_turn; [assumption | reflexivity].
Qed.

Lemma map_direction_bin_total_witness :
  0 < 12 /\ (0 <= 100)%Q /\ (100 < 360)%Q /\
  exists edges,
    get_direction_bin_array 12 = Ok edges /\
    (exists k, map_direction_bin 100 edges 12 = Ok k /\ 1 <= k <= 12) /\
    map_direction_bin 0 edges 12 = Ok 1 /\
    map_direction_bin 360 edges 12 = Ok 1.
Proof.
  assert (H1 : 0 < 12) by lia.
  assert (H2 : (0 <= 100)%Q) by (unfold Qle; simpl; lia).
  assert (H3 : (100 < 360)%Q) by (unfold Qlt; simpl; lia).
  split; [exact H1|]. split; [exact H2|]. split; [exact H3|].
  exact (map_direction_bin_total 12 100 H1 H2 H3).
Defined.

(** ** Sector labels *)

Lemma py_index_nat {A : Type} (l : list A) (i : nat) (d : A) :
  (i < List.length l)%nat -> py_index l (Z.of_nat i) = Ok (nth i l d).
Proof.
  intros H. unfold py_index.
  destruct (Z.ltb_spec (Z.of_nat i) 0); [lia|].
  destruct (Z.leb_spec 0 (Z.of_nat i)); [|lia].
  destruct (Z.ltb_spec (Z.of_nat i) (Z.of_nat (List.length l))); [|lia].
  cbn [andb]. rewrite Nat2Z.id.
  destruct (nth_error l i) eqn:E.
  - now rewrite (nth_error_nth _ _ d E).
  - apply nth_error_None in E. lia.
Qed.

Lemma py_index_penultimate {A : Type} (l : list A) (d : A) :
  (2 <= List.length l)%nat ->
  py_index l (-2) = Ok (nth (List.length l - 2) l d).
Proof.
  intros H. unfold py_index. cbn [Z.ltb Z.compare].
  destruct (Z.leb_spec 0 (-2 + Z.of_nat (List.length l))); [|lia].
  destruct (Z.ltb_spec (-2 + Z.of_nat (List.length l))
                       (Z.of_nat (List.length l))); [|lia].
  cbn [andb].
  replace (Z.to_nat (-2 + Z.of_nat (List.length l)))
    with (List.length l - 2)%nat by lia.
  destruct (nth_error l (List.length l - 2)) eqn:E.
  - now rewrite (nth_error_nth _ _ d E).
  - apply nth_error_None in E. lia.
Qed.

Lemma dict_set_fresh {V : Type} (d : dict V) (k : Z) (v : V) :
  Forall (fun kv => fst kv < k) d -> dict_set d k v = d ++ [(k, v)].
Proof.
  induction 1 as [|[k' v'] t Hk _ IH]; [reflexivity|].
  cbn [dict_set app]. cbn [fst] in Hk.
  destruct (Z.eqb_spec k' k); [lia|]. now rewrite IH.
Qed.

Section LabelProofs.

Variable float_str : Q -> string.
Variable direction_bins : list Q.
Variable zero_centred : bool.

Lemma labels_loop_spec (items : list Q) :
  forall (i : nat) (mapper : dict string),
    firstn (List.length items) (skipn i direction_bins) = items ->
    (i + List.length items < List.length direction_bins)%nat ->
    Forall (fun kv => fst kv <= Z.of_nat i) mapper ->
    labels_loop float_str direction_bins zero_centred (Z.of_nat i) items mapper
    = Ok (mapper
          ++ map (fun j => (Z.of_nat j + 1,
                            label_at float_str direction_bins zero_centred j))
                 (seq i (List.length items))).
Proof.
  induction items as [|x rest IH]; intros i mapper Hitems Hlen Hkeys.
  - cbn. now rewrite app_nil_r.
  - cbn [List.length] in Hlen.
    assert (Hskip : skipn i direction_bins = x :: skipn (S i) direction_bins).
    { destruct (skipn i direction_bins) as [|y t] eqn:E.
      - cbn in Hitems. discriminate.
      - cbn [List.length firstn] in Hitems. injection Hitems as -> _.
        f_equal. replace (S i) with (1 + i)%nat by lia.
        now rewrite <- skipn_skipn, E. }
    assert (Hx : nth i direction_bins 0%Q = x).
    { rewrite <- (firstn_skipn i direction_bins) at 1.
      rewrite app_nth2 by (rewrite length_firstn; lia).
      rewrite length_firstn, Hskip.
      replace (i - Nat.min i (List.length direction_bins))%nat with 0%nat
        by lia.
      reflexivity. }
    assert (Hrest : firstn (List.length rest) (skipn (S i) direction_bins)
                    = rest).
    { rewrite Hskip in Hitems. cbn [List.length firstn] in Hitems.
      now injection Hitems. }
    cbn [labels_loop List.length seq map].
    assert (Hlabel :
      (if (Z.of_nat i =? 0) && zero_centred then
         a <- py_index direction_bins (-2) ;;
         b <- py_index direction_bins 1 ;;
         Ok (format_label float_str a b)
       else
         b <- py_index direction_bins (Z.of_nat i + 1) ;;
         Ok (format_label float_str x b)) = Ok (label_at float_str direction_bins zero_centred i)).
    { unfold label_at.
      replace (Z.of_nat i =? 0) with (i =? 0)%nat
        by (destruct i; reflexivity).
      destruct ((i =? 0)%nat && zero_centred) eqn:Ec.
      - rewrite (py_index_penultimate direction_bins 0%Q) by lia.
        change 1 with (Z.of_nat 1).
        rewrite (py_index_nat direction_bins 1 0%Q) by lia. reflexivity.
      - replace (Z.of_nat i + 1) with (Z.of_nat (S i)) by lia.
        rewrite (py_index_nat direction_bins (S i) 0%Q) by lia.
        cbn [bind]. now rewrite Hx. }
    rewrite Hlabel. cbn [bind].
    rewrite dict_set_fresh.
    2:{ eapply Forall_impl; [|exact Hkeys]. intros kv Hkv. cbn beta in *. lia. }
    replace (Z.of_nat i + 1) with (Z.of_nat (S i)) by lia.
    rewrite (IH (S i)); [| exact Hrest | lia |].
    + rewrite <- app_assoc. reflexivity.
    + apply Forall_app. split.
      * eapply Forall_impl; [|exact Hkeys]. intros kv Hkv. cbn beta in *. lia.
      * constructor; [cbn [fst]; lia | constructor].
Qed.

Lemma get_direction_bin_labels_closed (sectors : Z) :
  0 <= sectors ->
  sectors + 1 <= Z.of_nat (List.length direction_bins) ->
  _get_direction_bin_labels float_str sectors direction_bins zero_centred
  = Ok (map (label_at float_str direction_bins zero_centred) (seq 0 (Z.to_nat sectors))).
Proof.
  intros Hs Hlen. unfold _get_direction_bin_labels, py_slice_to.
  destruct (Z.ltb_spec sectors 0); [lia|].
  assert (L : List.length (firstn (Z.to_nat sectors) direction_bins)
              = Z.to_nat sectors) by (rewrite length_firstn; lia).
  change 0 with (Z.of_nat 0).
  rewrite labels_loop_spec.
  - cbn [bind app]. unfold dict_values. rewrite map_map, L. reflexivity.
  - now rewrite L.
  - rewrite L. lia.
  - constructor.
Qed.

End LabelProofs.

(** C8, as the code has it: for a positive sector count and an edge
    sequence of at least [sectors + 1] values there are exactly [sectors]
    labels; the first is built from [edges[-2]] and [edges[1]] when
    zero-centered, and every other label (and the first one when not
    zero-centered) from the adjacent edges of its sector. *)
Theorem get_direction_bin_labels_count
        (float_str : Q -> string) (sectors : Z) (edges : list Q)
        (zero_centred : bool) :
  0 < sectors ->
  sectors + 1 <= Z.of_nat (List.length edges) ->
  exists labels,
    _get_direction_bin_labels float_str sectors edges zero_centred = Ok labels /\
    Z.of_nat (List.length labels) = sectors /\
    forall i : nat,
      Z.of_nat i < sectors ->
      nth_error labels i =
      Some (if (i =? 0)%nat && zero_centred then
              format_label float_str
                           (nth (List.length edges - 2) edges 0%Q)
                           (nth 1 edges 0%Q)
            else
              format_label float_str (nth i edges 0%Q) (nth (S i) edges 0%Q)).
Proof.
  intros Hs Hlen. eexists. split.
  - apply get_direction_bin_labels_closed; lia.
  - split.
    + rewrite length_map, length_seq. lia.
    + intros i Hi. rewrite nth_error_map, nth_error_seq.
      destruct (Nat.ltb_spec i (Z.to_nat sectors)); [reflexivity | lia].
Qed.

Lemma get_direction_bin_labels_count_witness :
  0 < 4 /\
  4 + 1 <= Z.of_nat (List.length [0; 45; 135; 225; 315; 360]%Q) /\
  exists labels,
    _get_direction_bin_labels render_float 4 [0; 45; 135; 225; 315; 360]%Q true
    = Ok labels /\
    labels = ["315.0-45.0"; "45.0-135.0"; "135.0-225.0"; "225.0-315.0"]%string.
Proof.
  assert (H1 : 0 < 4) by lia.
  assert (H2 : 4 + 1 <= Z.of_nat (List.length [0; 45; 135; 225; 315; 360]%Q))
    by (simpl; lia).
  split; [exact H1|]. split; [exact H2|].
  destruct (get_direction_bin_labels_count
              render_float 4 [0; 45; 135; 225; 315; 360]%Q true H1 H2)
    as [labels [E _]].
  exists labels. split; [exact E|].
  vm_compute in E. now injection E.
Defined.

(** C8 as stated fails for short edge sequences: with two sectors and two
    edges the loop raises [IndexError], and with no edge at all it
    returns no label for one sector. *)
Lemma get_direction_bin_labels_short_edges :
  _get_direction_bin_labels render_float 2 [0; 360]%Q true = Raise IndexError
  /\ _get_direction_bin_labels render_float 1 [] true = Ok []
  /\ Z.of_nat (@List.length string []) <> 1.
Proof.
  split; [vm_compute; reflexivity|].
  split; [vm_compute; reflexivity|]. simpl. lia.
Qed.

(** ** Custom bin arrays *)

Lemma nondecreasing_tail (a : Q) (l : list Q) :
  np.nondecreasing (a :: l) = true -> np.nondecreasing l = true.
Proof.
  destruct l as [|b t]; [reflexivity|].
  cbn [np.nondecreasing]. intros H. now apply andb_prop in H.
Qed.

Lemma nondecreasing_head_le (a : Q) (l : list Q) :
  np.nondecreasing (a :: l) = true -> forall e, In e l -> (a <= e)%Q.
Proof.
  revert a. induction l as [|b t IH]; intros a H e He; [destruct He|].
  pose proof (nondecreasing_tail _ _ H) as Ht.
  cbn [np.nondecreasing] in H. apply andb_prop in H. destruct H as [Hab _].
  apply Qle_bool_iff in Hab. destruct He as [<-|He]; [assumption|].
  apply Qle_trans with b; [assumption|]. now apply IH.
Qed.

(** On sorted bins the elements not above [d] form a prefix. *)
Lemma searchsorted_right_prefix (l : list Q) (d : Q) :
  np.nondecreasing l = true ->
  let c := np.searchsorted l d np.Right in
  (forall i, (i < c)%nat -> (nth i l 0 <= d)%Q) /\
  (forall i, (c <= i < List.length l)%nat -> (d < nth i l 0)%Q).
Proof.
  induction l as [|a l IH]; intros Hs; cbn zeta.
  - split; intros i Hi; cbn in Hi; lia.
  - unfold np.searchsorted. cbn [filter].
    destruct (Qle_bool a d) eqn:E.
    + apply Qle_bool_iff in E. cbn [List.length].
      destruct (IH (nondecreasing_tail _ _ Hs)) as [IH1 IH2].
      unfold np.searchsorted in IH1, IH2. split.
      * intros [|i] Hi; [exact E|]. cbn [nth]. apply IH1. lia.
      * intros [|i] Hi; [lia|]. cbn [nth]. apply IH2. lia.
    + assert (Hd : (d < a)%Q).
      { apply Qnot_le_lt. intros Hle. apply Qle_bool_iff in Hle. congruence. }
      rewrite filter_none.
      * cbn [List.length]. split; [intros i Hi; lia|].
        intros [|i] Hi; [exact Hd|]. cbn [nth].
        apply Qlt_le_trans with a; [exact Hd|].
        apply (nondecreasing_head_le a l Hs). apply nth_In.
        cbn [List.length] in Hi. lia.
      * intros e He. destruct (Qle_bool e d) eqn:Ee; [|reflexivity].
        apply Qle_bool_iff in Ee. exfalso.
        apply (Qlt_not_le _ _ Hd).
        apply Qle_trans with e; [|exact Ee].
        now apply (nondecreasing_head_le a l Hs).
Qed.

Lemma py_max_upper (l : list Q) (m : Q) :
  py_max l = Ok m -> forall e, In e l -> (e <= m)%Q.
Proof.
  destruct l as [|x t]; [discriminate|].
  unfold py_max. intros H. injection H as <-. apply fold_max_spec.
Qed.

Lemma py_max_defined (l : list Q) : l <> [] -> exists m, py_max l = Ok m.
Proof.
  destruct l as [|x t]; [congruence|]. intros _. eexists. reflexivity.
Qed.

(** On sorted bins the elements below [d] form a prefix. *)
Lemma searchsorted_left_prefix (l : list Q) (d : Q) :
  np.nondecreasing l = true ->
  let c := np.searchsorted l d np.Left in
  (forall i, (i < c)%nat -> (nth i l 0 < d)%Q) /\
  (forall i, (c <= i < List.length l)%nat -> (d <= nth i l 0)%Q).
Proof.
  induction l as [|a l IH]; intros Hs; cbn zeta.
  - split; intros i Hi; cbn in Hi; lia.
  - unfold np.searchsorted. cbn [filter].
    destruct (Qltb a d) eqn:E.
    + apply Qltb_lt in E. cbn [List.length].
      destruct (IH (nondecreasing_tail _ _ Hs)) as [IH1 IH2].
      unfold np.searchsorted in IH1, IH2. split.
      * intros [|i] Hi; [exact E|]. cbn [nth]. apply IH1. lia.
      * intros [|i] Hi; [lia|]. cbn [nth]. apply IH2. lia.
    + apply Qltb_ge in E.
      rewrite filter_none.
      * cbn [List.length]. split; [intros i Hi; lia|].
        intros [|i] Hi; [exact E|]. cbn [nth].
        apply Qle_trans with a; [exact E|].
        apply (nondecreasing_head_le a l Hs). apply nth_In.
        cbn [List.length] in Hi. lia.
      * intros e He. apply Qltb_ge.
        apply Qle_trans with a; [exact E|].
        now apply (nondecreasing_head_le a l Hs).
Qed.

Lemma nondecreasing_last_upper (l : list Q) (e : Q) :
  np.nondecreasing l = true -> In e l ->
  (e <= nth (List.length l - 1) l 0)%Q.
Proof.
  revert e. induction l as [|a l IH]; intros e Hs He; [destruct He|].
  destruct l as [|b t].
  - destruct He as [<-|[]]. cbn. apply Qle_refl.
  - pose proof (nondecreasing_tail _ _ Hs) as Ht.
    replace (List.length (a :: b :: t) - 1)%nat
      with (S (List.length (b :: t) - 1)) by (cbn [List.length]; lia).
    change (nth (S (List.length (b :: t) - 1)) (a :: b :: t) 0%Q)
      with (nth (List.length (b :: t) - 1) (b :: t) 0%Q).
    destruct He as [<-|He].
    + apply Qle_trans with b.
      * apply (nondecreasing_head_le a (b :: t) Hs). now left.
      * apply IH; [exact Ht | now left].
    + now apply IH.
Qed.

Lemma py_max_in (l : list Q) (m : Q) : py_max l = Ok m -> In m l.
Proof.
  destruct l as [|x t]; [discriminate|].
  unfold py_max. intros H. injection H as <-. apply fold_max_spec.
Qed.

(** With sorted custom bins and [sectors = len(bins) - 1] every direction
    gets a bin.  A direction inside the bins falls between the two
    adjacent edges of its bin; a direction above the last edge makes
    [np.digitize] return [len(bins)], which is [sectors + 1] and is
    turned into 1; a direction below the first edge gets 0; a direction
    that equals the last edge is binned with [right=True], below that
    edge. *)
Lemma map_direction_bin_custom (arr : list Q) (d : Q) :
  np.nondecreasing arr = true -> arr <> [] ->
  exists k,
    map_direction_bin d arr (Z.of_nat (List.length arr) - 1) = Ok k /\
    ((d < nth 0 arr 0)%Q -> k = 0) /\
    ((nth 0 arr 0 <= d)%Q -> (d < nth (List.length arr - 1) arr 0)%Q ->
     1 <= k <= Z.of_nat (List.length arr) - 1 /\
     (nth (Z.to_nat k - 1) arr 0 <= d)%Q /\ (d < nth (Z.to_nat k) arr 0)%Q) /\
    ((nth (List.length arr - 1) arr 0 < d)%Q -> k = 1) /\
    ((d == nth (List.length arr - 1) arr 0)%Q ->
     0 <= k <= Z.of_nat (List.length arr) - 1 /\
     (forall i, (i < Z.to_nat k)%nat -> (nth i arr 0 < d)%Q) /\
     (forall i, (Z.to_nat k <= i < List.length arr)%nat ->
                (d <= nth i arr 0)%Q)).
Proof.
  intros Hs Hne. unfold map_direction_bin.
  destruct (py_max_defined arr Hne) as [m Hm]. rewrite Hm. cbn [bind].
  rewrite digitize_sorted by assumption. cbn [bind].
  assert (Hlen : (0 < List.length arr)%nat)
    by (destruct arr; [congruence | cbn; lia]).
  assert (Hmax : (m == nth (List.length arr - 1) arr 0)%Q).
  { apply Qle_antisym.
    - apply nondecreasing_last_upper; [exact Hs | now apply py_max_in].
    - apply (py_max_upper arr m Hm). apply nth_In. lia. }
  destruct (searchsorted_right_prefix arr d Hs) as [P1 P2].
  destruct (searchsorted_left_prefix arr d Hs) as [L1 L2].
  assert (Bl : (np.searchsorted arr d np.Left <= List.length arr)%nat)
    by (unfold np.searchsorted; apply filter_length_le).
  assert (Br : (np.searchsorted arr d np.Right <= List.length arr)%nat)
    by (unfold np.searchsorted; apply filter_length_le).
  destruct (Qeq_bool d m) eqn:E.
  - apply Qeq_bool_iff in E. rewrite Hmax in E.
    set (c := np.searchsorted arr d np.Left) in *.
    assert (Hc : (c <= List.length arr - 1)%nat).
    { destruct (Nat.le_gt_cases c (List.length arr - 1)) as [|Hgt];
        [assumption|].
      exfalso. pose proof (L1 (List.length arr - 1)%nat ltac:(lia)) as Hlt.
      rewrite <- E in Hlt. exact (Qlt_irrefl _ Hlt). }
    destruct (Z.eqb_spec (Z.of_nat c) (Z.of_nat (List.length arr) - 1 + 1));
      [lia|].
    exists (Z.of_nat c). split; [reflexivity|]. rewrite Nat2Z.id.
    split; [|split; [|split]].
    + intros Hlo. destruct c as [|c']; [reflexivity|]. exfalso.
      pose proof (L1 0%nat ltac:(lia)) as Hlt.
      exact (Qlt_irrefl _ (Qlt_trans _ _ _ Hlo Hlt)).
    + intros _ Hhi. exfalso. rewrite E in Hhi. exact (Qlt_irrefl _ Hhi).
    + intros Hhi. exfalso. rewrite E in Hhi. exact (Qlt_irrefl _ Hhi).
    + intros _. split; [lia|]. split; [exact L1 | exact L2].
  - assert (Hneq : ~ (d == nth (List.length arr - 1) arr 0)%Q).
    { intros Hd. rewrite <- Hmax in Hd. apply Qeq_bool_iff in Hd. congruence. }
    set (c := np.searchsorted arr d np.Right) in *.
    destruct (Z.eqb_spec (Z.of_nat c) (Z.of_nat (List.length arr) - 1 + 1))
      as [Ec|Ec].
    + assert (Hc : c = List.length arr) by lia.
      exists 1. split; [reflexivity|]. split; [|split; [|split]].
      * intros Hlo. exfalso. apply (Qlt_not_le _ _ Hlo). apply P1. lia.
      * intros _ Hhi. exfalso. apply (Qlt_not_le _ _ Hhi). apply P1. lia.
      * intros _. reflexivity.
      * intros Hd. contradiction.
    + assert (Hc : (c < List.length arr)%nat) by lia.
      exists (Z.of_nat c). split; [reflexivity|]. rewrite Nat2Z.id.
      split; [|split; [|split]].
      * intros Hlo. destruct c as [|c']; [reflexivity|]. exfalso.
        apply (Qlt_not_le _ _ Hlo). apply P1. lia.
      * intros Hlo Hhi.
        assert (c <> O).
        { intros ->. apply (Qlt_not_le _ _ (P2 0%nat ltac:(lia))). exact Hlo. }
        split; [lia|]. split; [apply P1; lia | apply P2; lia].
      * intros Hhi. exfalso.
        pose proof (P2 (List.length arr - 1)%nat ltac:(lia)) as Hlt.
        exact (Qlt_irrefl _ (Qlt_trans _ _ _ Hlt Hhi)).
      * intros Hd. contradiction.
Qed.

Lemma series_apply_total {A B : Type} (f : A -> result B) (s : list (Z * A)) :
  (forall v, exists b, f v = Ok b) ->
  exists l, series_apply f s = Ok l /\
            Forall2 (fun x y => fst y = fst x /\ f (snd x) = Ok (snd y)) s l.
Proof.
  intros Hf. induction s as [|[t v] s [l [IH1 IH2]]].
  - exists []. split; [reflexivity | constructor].
  - destruct (Hf v) as [b Hb]. exists ((t, b) :: l). split.
    + cbn [series_apply]. now rewrite Hb, IH1.
    + constructor; [now split | assumption].
Qed.

Lemma custom_labels_closed (float_str : Q -> string) (arr : list Q) :
  _get_direction_bin_labels float_str (Z.of_nat (List.length arr) - 1) arr false
  = Ok (map (fun j => format_label float_str (nth j arr 0%Q) (nth (S j) arr 0%Q))
            (seq 0 (List.length arr - 1))).
Proof.
  destruct arr as [|a arr]; [reflexivity|].
  rewrite get_direction_bin_labels_closed by (cbn [List.length]; lia).
  replace (Z.to_nat (Z.of_nat (List.length (a :: arr)) - 1))
    with (List.length (a :: arr) - 1)%nat by lia.
  f_equal. apply map_ext. intros j. unfold label_at.
  now rewrite andb_false_r.
Qed.

Lemma binning_with_custom_array
      (float_str : Q -> string) (ds : Series) (sectors : Z) (arr : list Q) :
  get_distribution_by_wind_sector_binning float_str ds sectors (Some arr) None
  = (binned <- series_apply
                 (fun wdir => map_direction_bin
                                wdir arr (Z.of_nat (List.length arr) - 1))
                 (dropna ds) ;;
     Ok {| sb_sectors := Z.of_nat (List.length arr) - 1;
           sb_direction_bin_array := arr;
           sb_zero_centered := false;
           sb_direction_bin_labels :=
             map (fun j => format_label float_str (nth j arr 0%Q)
                                        (nth (S j) arr 0%Q))
                 (seq 0 (List.length arr - 1));
           sb_direction_binned_series := binned |}).
Proof.
  unfold get_distribution_by_wind_sector_binning. cbn [bind].
  rewrite custom_labels_closed. reflexivity.
Qed.

Lemma freq_table_binning_with_custom_array
      (float_str : Q -> string) (vs ds : Series) (vb : list Q)
      (vl : option (list string)) (sectors : Z) (arr : list Q) :
  get_freq_table_binning float_str vs ds vb sectors vl (Some arr) None
  = (c <- cut (dropna vs) vb vl ;;
     st <- get_distribution_by_wind_sector_binning
             float_str ds sectors (Some arr) None ;;
     Ok (c, st)).
Proof.
  rewrite binning_with_custom_array.
  unfold get_freq_table_binning. cbn [bind].
  rewrite custom_labels_closed. cbn [bind].
  destruct (cut (dropna vs) vb vl) as [c|e]; [|reflexivity]. cbn [bind].
  unfold get_binned_direction_series. cbn [bind].
  destruct (series_apply _ (dropna ds)); reflexivity.
Qed.

(** C7, as the code has it: with a custom bin array, both
    [get_distribution_by_wind_sector] and [get_freq_table] work with
    [sectors = len(array) - 1] whatever sector count was passed, with
    zero-centering off, and with labels made of adjacent edges.  The
    binning is still that of [map_direction_bin]: on sorted edges a
    direction inside the array falls between the two adjacent edges of
    its sector, a direction below the first edge gets 0, a direction that
    equals the last edge is put below that edge, and a direction above
    the last edge is wrapped around to sector 1. *)
Theorem custom_bin_array_redefines_sectors
        (float_str : Q -> string) (vs ds : Series) (vb : list Q)
        (vl : option (list string)) (sectors : Z) (arr : list Q) :
  (forall st,
      get_distribution_by_wind_sector_binning float_str ds sectors (Some arr) None
      = Ok st \/
      (exists c,
          get_freq_table_binning float_str vs ds vb sectors vl (Some arr) None
          = Ok (c, st)) ->
      sb_sectors st = Z.of_nat (List.length arr) - 1 /\
      sb_zero_centered st = false /\
      sb_direction_bin_array st = arr /\
      sb_direction_bin_labels st =
        map (fun j => format_label float_str (nth j arr 0%Q) (nth (S j) arr 0%Q))
            (seq 0 (List.length arr - 1)) /\
      series_apply (fun wdir => map_direction_bin
                                  wdir arr (Z.of_nat (List.length arr) - 1))
                   (dropna ds)
      = Ok (sb_direction_binned_series st)) /\
  (np.nondecreasing arr = true -> arr <> [] ->
   exists st,
     get_distribution_by_wind_sector_binning float_str ds sectors (Some arr) None
     = Ok st /\
     (forall c, cut (dropna vs) vb vl = Ok c ->
                get_freq_table_binning float_str vs ds vb sectors vl
                                       (Some arr) None
                = Ok (c, st)) /\
     Forall2
       (fun x y =>
          fst y = fst x /\
          ((snd x < nth 0 arr 0)%Q -> snd y = 0) /\
          ((nth 0 arr 0 <= snd x)%Q ->
           (snd x < nth (List.length arr - 1) arr 0)%Q ->
           1 <= snd y <= Z.of_nat (List.length arr) - 1 /\
           (nth (Z.to_nat (snd y) - 1) arr 0 <= snd x)%Q /\
           (snd x < nth (Z.to_nat (snd y)) arr 0)%Q) /\
          ((nth (List.length arr - 1) arr 0 < snd x)%Q -> snd y = 1) /\
          ((snd x == nth (List.length arr - 1) arr 0)%Q ->
           0 <= snd y <= Z.of_nat (List.length arr) - 1 /\
           (forall i, (i < Z.to_nat (snd y))%nat -> (nth i arr 0 < snd x)%Q) /\
           (forall i, (Z.to_nat (snd y) <= i < List.length arr)%nat ->
                      (snd x <= nth i arr 0)%Q)))
       (dropna ds) (sb_direction_binned_series st)).
Proof.
  split.
  - intros st H.
    assert (H' : get_distribution_by_wind_sector_binning
                   float_str ds sectors (Some arr) None = Ok st).
    { destruct H as [H|[c H]]; [exact H|].
      rewrite freq_table_binning_with_custom_array in H.
      destruct (cut (dropna vs) vb vl); [|discriminate]. cbn [bind] in H.
      destruct (get_distribution_by_wind_sector_binning
                  float_str ds sectors (Some arr) None) as [st'|e];
        [|discriminate].
      cbn [bind] in H. now injection H as _ <-. }
    clear H. rewrite binning_with_custom_array in H'.
    destruct (series_apply _ (dropna ds)) as [binned|e]; [|discriminate].
    cbn [bind] in H'. injection H' as <-. cbn.
    repeat split; reflexivity.
  - intros Hs Hne.
    destruct (series_apply_total
                (fun wdir => map_direction_bin
                               wdir arr (Z.of_nat (List.length arr) - 1))
                (dropna ds)) as [binned [Hb HF]].
    { intros v. destruct (map_direction_bin_custom arr v Hs Hne) as [k [Hk _]].
      now exists k. }
    eexists. split; [|split].
    + rewrite binning_with_custom_array, Hb. cbn [bind]. reflexivity.
    + intros c Hc. rewrite freq_table_binning_with_custom_array, Hc.
      cbn [bind]. rewrite binning_with_custom_array, Hb. reflexivity.
    + cbn [sb_direction_binned_series].
      eapply Forall2_impl; [|exact HF].
      intros [t d] [t' k] [Ht Hk]. cbn [fst snd] in *. split; [assumption|].
      destruct (map_direction_bin_custom arr d Hs Hne) as [k' [Hk' Hcases]].
      rewrite Hk in Hk'. injection Hk' as <-. exact Hcases.
Qed.

Lemma custom_bin_array_redefines_sectors_witness :
  np.nondecreasing [0; 90; 180; 270; 360]%Q = true /\
  [0; 90; 180; 270; 360]%Q <> [] /\
  exists c st,
    get_distribution_by_wind_sector_binning
      render_float [(0, Some 10%Q); (1, None); (2, Some 200%Q); (3, Some 359%Q)]
      12 (Some [0; 90; 180; 270; 360]%Q) None = Ok st /\
    get_freq_table_binning
      render_float sample_speed_1
      [(0, Some 10%Q); (1, None); (2, Some 200%Q); (3, Some 359%Q)]
      sample_bins 12 None (Some [0; 90; 180; 270; 360]%Q) None = Ok (c, st) /\
    sb_sectors st = 4 /\
    sb_zero_centered st = false /\
    sb_direction_bin_labels st
    = ["0.0-90.0"; "90.0-180.0"; "180.0-270.0"; "270.0-360.0"]%string /\
    sb_direction_binned_series st = [(0, 1); (2, 3); (3, 4)].
Proof.
  assert (H1 : np.nondecreasing [0; 90; 180; 270; 360]%Q = true)
    by reflexivity.
  assert (H2 : [0; 90; 180; 270; 360]%Q <> []) by discriminate.
  split; [exact H1|]. split; [exact H2|].
  destruct (custom_bin_array_redefines_sectors
              render_float sample_speed_1
              [(0, Some 10%Q); (1, None); (2, Some 200%Q); (3, Some 359%Q)]
              sample_bins None
              12 [0; 90; 180; 270; 360]%Q) as [HA HB].
  destruct (HB H1 H2) as [st [E1 [E2 _]]].
  destruct (HA st (or_introl E1)) as [S1 [S2 [_ [S4 S5]]]].
  eexists. exists st. split; [exact E1|].
  split; [apply E2; vm_compute; reflexivity|].
  split; [exact S1|]. split; [exact S2|]. split.
  - rewrite S4. vm_compute. reflexivity.
  - vm_compute in S5. now injection S5.
Defined.

(** C7 as stated fails for the binning: with the custom edges
    [0, 90, 180, 270] the direction 300, above the last edge, is put in
    sector 1, whose label joins the edges 0 and 90. *)
Lemma custom_bin_array_wraps_above_last_edge :
  map_direction_bin 300 [0; 90; 180; 270]%Q 3 = Ok 1 /\
  ~ ((0 <= 300)%Q /\ (300 < 90)%Q) /\
  exists c st,
    get_distribution_by_wind_sector_binning
      render_float [(0, Some 300%Q)] 12 (Some [0; 90; 180; 270]%Q) None
    = Ok st /\
    get_freq_table_binning
      render_float [(0, Some 5%Q)] [(0, Some 300%Q)] sample_bins 12 None
      (Some [0; 90; 180; 270]%Q) None
    = Ok (c, st) /\
    sb_sectors st = 3 /\
    sb_zero_centered st = false /\
    sb_direction_bin_labels st
    = ["0.0-90.0"; "90.0-180.0"; "180.0-270.0"]%string /\
    sb_direction_binned_series st = [(0, 1)].
Proof.
  split; [vm_compute; reflexivity|]. split.
  - intros [_ H]. vm_compute in H. discriminate H.
  - eexists. eexists. split; [vm_compute; reflexivity|].
    split; [vm_compute; reflexivity|].
    repeat split.
Qed.

(** ** Mean of monthly means *)

Lemma same_value_refl (v : option Q) : same_value v v.
Proof. destruct v; constructor. reflexivity. Qed.

Lemma same_row_refl {K : Type} (r : K * list (option Q)) : same_row r r.
Proof.
  split; [reflexivity|]. induction (snd r); constructor;
    [apply same_value_refl | assumption].
Qed.

Lemma Forall2_refl_on {A : Type} (R : A -> A -> Prop) (l : list A) :
  (forall x, R x x) -> Forall2 R l l.
Proof. intros HR. induction l; constructor; auto. Qed.

Lemma Forall2_flat_map {A B C : Type} (R : B -> C -> Prop)
      (F : A -> list B) (G : A -> list C) (l : list A) :
  (forall a, Forall2 R (F a) (G a)) ->
  Forall2 R (flat_map F l) (flat_map G l).
Proof.
  intros H. induction l as [|a l IH]; [constructor|].
  cbn [flat_map]. apply Forall2_app; [apply H | exact IH].
Qed.

Lemma Forall2_map_seq {B C : Type} (R : B -> C -> Prop)
      (f : nat -> B) (g : nat -> C) (a n : nat) :
  (forall j, R (f j) (g j)) -> Forall2 R (map f (seq a n)) (map g (seq a n)).
Proof.
  intros H. revert a. induction n as [|n IH]; intros a; [constructor|].
  cbn [seq map]. constructor; [apply H | apply IH].
Qed.

Lemma filter_repeat {A : Type} (p : A -> bool) (x : A) (n : nat) :
  filter p (repeat x n) = if p x then repeat x n else [].
Proof.
  induction n as [|n IH]; [now destruct (p x)|].
  cbn [repeat filter]. rewrite IH. now destruct (p x).
Qed.

Lemma month_group_duplicate (m m' : Z) (n : nat) (df : DataFrame) :
  month_group (duplicate_month m n df) m' =
  if m' =? m then flat_map (fun r => repeat r n) (month_group df m')
  else month_group df m'.
Proof.
  unfold month_group, duplicate_month, duplicate_rows. cbn [rows].
  destruct (Z.eqb_spec m' m) as [->|Hne];
    induction (rows df) as [|r rs IH]; try reflexivity;
    cbn [flat_map filter]; rewrite filter_app, IH;
    destruct (Z.eqb_spec (month_of (fst r)) m) as [Em|Em].
  - rewrite filter_repeat, Em, Z.eqb_refl. reflexivity.
  - cbn [filter]. destruct (Z.eqb_spec (month_of (fst r)) m); [lia|].
    reflexivity.
  - rewrite filter_repeat.
    destruct (Z.eqb_spec (month_of (fst r)) m'); [lia | reflexivity].
  - cbn [filter]. now destruct (month_of (fst r) =? m').
Qed.

Lemma present_app (a b : list (option Q)) :
  present (a ++ b) = present a ++ present b.
Proof. unfold present. apply flat_map_app. Qed.

Lemma present_repeat (v : option Q) (n : nat) :
  present (repeat v n) =
  match v with Some x => repeat x n | None => [] end.
Proof.
  induction n as [|n IH]; [now destruct v|].
  cbn [repeat]. change (v :: repeat v n) with ([v] ++ repeat v n).
  rewrite present_app, IH. now destruct v.
Qed.

Lemma present_column_repeated (j : nat) (n : nat)
      (g : list (Z * list (option Q))) :
  present (column_values j (flat_map (fun r => repeat r n) g))
  = flat_map (fun x => repeat x n) (present (column_values j g)).
Proof.
  unfold column_values. induction g as [|r g IH]; [reflexivity|].
  cbn [flat_map map]. rewrite map_app, present_app, IH, map_repeat.
  rewrite present_repeat.
  change (nth j (snd r) None :: map (fun r0 => nth j (snd r0) None) g)
    with ([nth j (snd r) None] ++ map (fun r0 => nth j (snd r0) None) g).
  rewrite present_app. unfold present at 3. rewrite flat_map_app.
  f_equal. destruct (nth j (snd r) None); cbn; [now rewrite app_nil_r|reflexivity].
Qed.

Lemma Qsum_cons (x : Q) (xs : list Q) : Qsum (x :: xs) = (x + Qsum xs)%Q.
Proof. reflexivity. Qed.

Lemma Qsum_app (a b : list Q) : (Qsum (a ++ b) == Qsum a + Qsum b)%Q.
Proof.
  induction a as [|x a IH].
  - change (Qsum []) with 0%Q. cbn [app]. ring.
  - cbn [app]. rewrite !Qsum_cons, IH. ring.
Qed.

Lemma Qsum_repeat (x : Q) (n : nat) :
  (Qsum (repeat x n) == inject_Z (Z.of_nat n) * x)%Q.
Proof.
  induction n as [|n IH].
  - change (Qsum (repeat x 0)) with 0%Q. change (Z.of_nat 0) with 0. ring.
  - cbn [repeat]. rewrite Qsum_cons, IH.
    rewrite Nat2Z.inj_succ. unfold Z.succ. rewrite inject_Z_plus. ring.
Qed.

Lemma Qsum_repeated (xs : list Q) (n : nat) :
  (Qsum (flat_map (fun x => repeat x n) xs)
   == inject_Z (Z.of_nat n) * Qsum xs)%Q.
Proof.
  induction xs as [|x xs IH]; cbn [flat_map].
  - change (Qsum []) with 0%Q. ring.
  - rewrite Qsum_app, Qsum_repeat, IH, Qsum_cons. ring.
Qed.

Lemma length_repeated {A : Type} (xs : list A) (n : nat) :
  List.length (flat_map (fun x => repeat x n) xs) = (n * List.length xs)%nat.
Proof.
  induction xs as [|x xs IH]; cbn [flat_map List.length]; [lia|].
  rewrite length_app, repeat_length, IH. lia.
Qed.

Lemma mean_present (vals : list (option Q)) :
  mean vals =
  match present vals with
  | [] => None
  | _ :: _ =>
      Some (Qsum (present vals)
            / inject_Z (Z.of_nat (List.length (present vals))))%Q
  end.
Proof. unfold mean. now destruct (present vals). Qed.

Lemma mean_of_repeated_rows (j n : nat) (g : list (Z * list (option Q))) :
  (1 <= n)%nat ->
  same_value (mean (column_values j (flat_map (fun r => repeat r n) g)))
             (mean (column_values j g)).
Proof.
  intros Hn. rewrite !mean_present, present_column_repeated.
  generalize (present (column_values j g)) as ys. intros [|y ys];
    [constructor|].
  remember (flat_map (fun x => repeat x n) (y :: ys)) as zs eqn:Ez.
  destruct zs as [|z zs].
  - apply (f_equal (@List.length Q)) in Ez.
    rewrite length_repeated in Ez. cbn [List.length] in Ez. nia.
  - rewrite Ez. constructor.
    rewrite Qsum_repeated, length_repeated.
    rewrite Nat2Z.inj_mul, inject_Z_mult.
    field. split; apply inject_Z_nonzero; cbn [List.length]; lia.
Qed.

Lemma flat_map_repeat_nil {A : Type} (g : list A) (n : nat) :
  (1 <= n)%nat -> flat_map (fun r => repeat r n) g = [] -> g = [].
Proof.
  intros Hn H. apply (f_equal (@List.length A)) in H.
  rewrite length_repeated in H. destruct g; [reflexivity|].
  cbn [List.length] in H. nia.
Qed.

Lemma groupby_month_mean_duplicate (m : Z) (n : nat) (df : DataFrame) :
  (1 <= n)%nat ->
  Forall2 same_row (groupby_month_mean (duplicate_month m n df))
          (groupby_month_mean df).
Proof.
  intros Hn. unfold groupby_month_mean. apply Forall2_flat_map. intros m'.
  rewrite month_group_duplicate. change (columns (duplicate_month m n df))
    with (columns df).
  destruct (Z.eqb_spec m' m) as [->|Hne].
  - destruct (month_group df m) as [|r g] eqn:Eg; [constructor|].
    destruct (flat_map (fun r0 => repeat r0 n) (r :: g)) as [|r' g'] eqn:Ed.
    { apply flat_map_repeat_nil in Ed; [discriminate | assumption]. }
    rewrite <- Ed. constructor; [|constructor].
    split; [reflexivity|]. cbn [snd]. apply Forall2_map_seq.
    intros j. now apply mean_of_repeated_rows.
  - apply Forall2_refl_on. intros r. apply same_row_refl.
Qed.

Lemma same_value_nth (l l' : list (option Q)) (j : nat) :
  Forall2 same_value l l' -> same_value (nth j l None) (nth j l' None).
Proof.
  intros H. revert j. induction H as [|v v' l l' Hv _ IH]; intros [|j];
    cbn [nth]; try constructor; auto.
Qed.

Lemma same_column {K : Type} (j : nat) (rs rs' : list (K * list (option Q))) :
  Forall2 same_row rs rs' ->
  Forall2 same_value (column_values j rs) (column_values j rs').
Proof.
  induction 1 as [|r r' rs rs' [_ Hr] _ IH]; [constructor|].
  cbn [column_values map]. constructor; [|exact IH].
  now apply same_value_nth.
Qed.

Lemma present_same (vs vs' : list (option Q)) :
  Forall2 same_value vs vs' -> Forall2 Qeq (present vs) (present vs').
Proof.
  induction 1 as [|v v' vs vs' Hv _ IH]; [constructor|].
  change (v :: vs) with ([v] ++ vs). change (v' :: vs') with ([v'] ++ vs').
  rewrite !present_app. apply Forall2_app; [|exact IH].
  destruct Hv; cbn; constructor; [assumption | constructor].
Qed.

Lemma Qsum_same (xs ys : list Q) :
  Forall2 Qeq xs ys -> (Qsum xs == Qsum ys)%Q.
Proof.
  induction 1 as [|x y xs ys Hxy _ IH]; [reflexivity|].
  rewrite !Qsum_cons, Hxy, IH. reflexivity.
Qed.

Lemma mean_same (vs vs' : list (option Q)) :
  Forall2 same_value vs vs' -> same_value (mean vs) (mean vs').
Proof.
  intros H. apply present_same in H. rewrite !mean_present.
  pose proof (Forall2_length H) as L. pose proof (Qsum_same _ _ H) as S.
  destruct H; [constructor|]. constructor. rewrite S, L. reflexivity.
Qed.

Lemma frame_mean_same (cols : list string)
      (rs rs' : list (Z * list (option Q))) :
  Forall2 same_row rs rs' ->
  same_series (frame_mean cols rs) (frame_mean cols rs').
Proof.
  intros H. unfold same_series, frame_mean. apply Forall2_map_seq.
  intros j. split; [reflexivity|]. cbn [snd].
  apply mean_same. now apply same_column.
Qed.

Lemma reindex1_same (s s' : list (string * option Q)) (label : string) :
  same_series s s' -> same_value (reindex1 s label) (reindex1 s' label).
Proof.
  induction 1 as [|[l v] [l' v'] s s' [Hl Hv] _ IH]; [constructor|].
  cbn [fst snd] in *. subst l'. cbn [reindex1].
  now destruct (String.eqb l label).
Qed.

(** The monthly table, column by column. *)
Lemma groupby_month_mean_column (df : DataFrame) (j : nat) :
  (j < List.length (columns df))%nat ->
  column_values j (groupby_month_mean df)
  = map (fun m => mean (column_values j (month_group df m)))
        (months_present df).
Proof.
  intros Hj. unfold groupby_month_mean, months_present, column_values.
  induction calendar_months as [|m ms IH]; [reflexivity|].
  cbn [flat_map filter]. rewrite map_app, IH.
  destruct (month_group df m) as [|r g] eqn:Eg; [reflexivity|].
  cbn [map app snd]. f_equal.
  set (f := fun j0 : nat =>
              mean (map (fun r0 : Z * list (option Q) => nth j0 (snd r0) None)
                        (r :: g))).
  rewrite (nth_indep _ None (f 0%nat))
    by now rewrite length_map, length_seq.
  rewrite map_nth, seq_nth by assumption. subst f. cbn beta.
  now rewrite Eg.
Qed.

(** The value found under a label in a series built column by column. *)
Lemma reindex1_by_position (cols : list string) (f : nat -> option Q)
      (label : string) :
  reindex1 (map (fun j => (nth j cols EmptyString, f j))
                (seq 0 (List.length cols))) label
  = match position cols label with
    | Some j => f j
    | None => None
    end.
Proof.
  revert f. induction cols as [|c t IH]; intros f; [reflexivity|].
  cbn [List.length seq map]. rewrite <- seq_shift, map_map.
  cbn [reindex1 nth position].
  destruct (String.eqb c label); [reflexivity|].
  rewrite (IH (fun j => f (S j))).
  destruct (position t label); reflexivity.
Qed.

(** C4: the frame that [mean_of_monthly_means] returns holds, under
    ['MOMM'], the mean over the calendar months that occur in the index of
    that month's mean, taken of the column of that label; every column's
    mean of monthly means in the series behind it is formed in this way;
    and repeating all rows of one calendar month [n >= 1] times changes
    neither the series of means nor the returned frame. *)
Theorem mean_of_monthly_means_weighs_months_equally
        (df : DataFrame) (m : Z) (n : nat) :
  (1 <= n)%nat ->
  mean_of_monthly_means df
  = {| columns := ["MOMM"%string];
       rows := [(0, [match position (columns df) "MOMM" with
                     | Some j =>
                         mean (map (fun m' =>
                                      mean (column_values j (month_group df m')))
                                   (months_present df))
                     | None => None
                     end])] |} /\
  momm_series df
  = map (fun j =>
           (nth j (columns df) EmptyString,
            mean (map (fun m' => mean (column_values j (month_group df m')))
                      (months_present df))))
        (seq 0 (List.length (columns df))) /\
  same_series (momm_series (duplicate_month m n df)) (momm_series df) /\
  same_frame (mean_of_monthly_means (duplicate_month m n df))
             (mean_of_monthly_means df).
Proof.
  intros Hn.
  assert (Hseries :
            momm_series df
            = map (fun j =>
                     (nth j (columns df) EmptyString,
                      mean (map (fun m' =>
                                   mean (column_values j (month_group df m')))
                                (months_present df))))
                  (seq 0 (List.length (columns df)))).
  { unfold momm_series, frame_mean. apply map_ext_in. intros j Hj.
    apply in_seq in Hj. rewrite groupby_month_mean_column by lia.
    reflexivity. }
  split; [|split; [exact Hseries|split]].
  - unfold mean_of_monthly_means. fold (momm_series df).
    rewrite Hseries.
    rewrite (reindex1_by_position
               (columns df)
               (fun j => mean (map (fun m' =>
                                      mean (column_values j (month_group df m')))
                                   (months_present df)))).
    reflexivity.
  - unfold momm_series. change (columns (duplicate_month m n df))
      with (columns df).
    apply frame_mean_same. now apply groupby_month_mean_duplicate.
  - unfold same_frame, mean_of_monthly_means. cbn [columns rows].
    split; [reflexivity|]. constructor; [|constructor].
    split; [reflexivity|]. cbn [snd]. constructor; [|constructor].
    apply reindex1_same. change (columns (duplicate_month m n df))
      with (columns df).
    apply frame_mean_same. now apply groupby_month_mean_duplicate.
Qed.

Lemma mean_of_monthly_means_weighs_months_equally_witness :
  (1 <= 3)%nat /\
  same_frame (mean_of_monthly_means (duplicate_month 1 3 winter_heavy))
             (mean_of_monthly_means winter_heavy) /\
  same_frame (mean_of_monthly_means winter_heavy)
             {| columns := ["MOMM"%string];
                rows := [(0, [Some (15 # 2)])] |} /\
  rmap (option_map Qred)
       (get_value (mean_of_monthly_means (duplicate_month 1 3 winter_heavy))
                  0 "MOMM")
  = Ok (Some (15 # 2)).
Proof.
  assert (H : (1 <= 3)%nat) by lia.
  destruct (mean_of_monthly_means_weighs_months_equally winter_heavy 1 3 H)
    as [Hvalue [_ [_ Hsame]]].
  split; [exact H|]. split; [exact Hsame|]. split.
  - rewrite Hvalue. split; [reflexivity|].
    constructor; [|constructor]. split; [reflexivity|].
    constructor; [|constructor]. vm_compute. constructor. reflexivity.
  - vm_compute. reflexivity.
Defined.

(** ** The ['MOMM'] column of the result *)

Lemma frame_mean_labels (cols : list string) (rs : list (Z * list (option Q))) :
  map fst (frame_mean cols rs) = cols.
Proof.
  unfold frame_mean. rewrite map_map. cbn [fst].
  apply nth_ext with (d := EmptyString) (d' := EmptyString).
  - now rewrite length_map, length_seq.
  - intros k Hk. rewrite length_map, length_seq in Hk.
    rewrite (nth_indep _ EmptyString
                       ((fun j => nth j cols EmptyString) 0%nat))
      by now rewrite length_map, length_seq.
    rewrite (map_nth (fun j => nth j cols EmptyString)).
    now rewrite seq_nth.
Qed.

Lemma reindex1_absent (s : list (string * option Q)) (label : string) :
  ~ In label (map fst s) -> reindex1 s label = None.
Proof.
  induction s as [|[l v] s IH]; intros H; [reflexivity|].
  cbn [reindex1]. destruct (String.eqb_spec l label) as [->|_].
  - exfalso. apply H. now left.
  - apply IH. intros Hin. apply H. now right.
Qed.

Lemma reindex1_all_missing (s : list (string * option Q)) (label : string) :
  (forall x, In x s -> snd x = None) -> reindex1 s label = None.
Proof.
  induction s as [|[l v] s IH]; intros H; [reflexivity|].
  cbn [reindex1]. destruct (String.eqb l label).
  - apply (H (l, v)). now left.
  - apply IH. intros x Hx. apply H. now right.
Qed.

Lemma get_value_momm (df : DataFrame) :
  get_value (mean_of_monthly_means df) 0 "MOMM"
  = Ok (reindex1 (momm_series df) "MOMM").
Proof. reflexivity. Qed.

Lemma momm_without_column (df : DataFrame) :
  ~ In "MOMM"%string (columns df) ->
  reindex1 (momm_series df) "MOMM" = None.
Proof.
  intros H. apply reindex1_absent. unfold momm_series.
  now rewrite frame_mean_labels.
Qed.

Lemma loc_slice_columns (data data' : DataFrame) (a b : Z) :
  loc_slice data a b = Ok data' -> columns data' = columns data.
Proof.
  unfold loc_slice.
  destruct (get_slice_bound (index data) a np.Left); [|discriminate].
  cbn [bind].
  destruct (get_slice_bound (index data) b np.Right); [|discriminate].
  cbn [bind]. intros H. now injection H as <-.
Qed.

(** What [calc_lt_ref_speed] hands to [mean_of_monthly_means]. *)
Lemma calc_lt_ref_speed_inv
      (data : DataFrame) (date_from date_to : date_arg) (v : option Q) :
  calc_lt_ref_speed data date_from date_to = Ok v ->
  exists data', columns data' = columns data /\
                v = reindex1 (momm_series data') "MOMM".
Proof.
  unfold calc_lt_ref_speed.
  destruct (is_date date_from && is_date date_to).
  - destruct (loc_slice data (instant date_from) (instant date_to))
      as [data'|e] eqn:E; [|discriminate].
    cbn [bind]. rewrite get_value_momm. intros H. injection H as <-.
    exists data'. split; [now apply loc_slice_columns in E | reflexivity].
  - destruct (truthy date_from && truthy date_to).
    + destruct (slice10 date_from) as [s1|e]; [|discriminate]. cbn [bind].
      destruct (strptime_ymd s1) as [a|e]; [|discriminate]. cbn [bind].
      destruct (slice10 date_to) as [s2|e]; [|discriminate]. cbn [bind].
      destruct (strptime_ymd s2) as [b|e]; [|discriminate]. cbn [bind].
      destruct (loc_slice data a b) as [data'|e] eqn:E; [|discriminate].
      cbn [bind]. rewrite get_value_momm. intros H. injection H as <-.
      exists data'. split; [now apply loc_slice_columns in E | reflexivity].
    + cbn [bind]. rewrite get_value_momm. intros H. injection H as <-.
      exists data. split; reflexivity.
Qed.

(** C9: the result frame holds the single column ['MOMM']; for a frame
    without a column of that name its one value is missing, and
    [calc_lt_ref_speed] returns a missing value whenever it returns, as
    it does with the default date arguments. *)
Theorem mean_of_monthly_means_needs_momm_column (df : DataFrame) :
  ~ In "MOMM"%string (columns df) ->
  mean_of_monthly_means df
  = {| columns := ["MOMM"%string]; rows := [(0, [None])] |} /\
  calc_lt_ref_speed df (Str "") (Str "") = Ok None /\
  forall date_from date_to v,
    calc_lt_ref_speed df date_from date_to = Ok v -> v = None.
Proof.
  intros H. split; [|split].
  - unfold mean_of_monthly_means. fold (momm_series df).
    now rewrite momm_without_column.
  - unfold calc_lt_ref_speed. cbn [is_date truthy andb String.eqb negb bind].
    now rewrite get_value_momm, momm_without_column.
  - intros date_from date_to v Hv.
    apply calc_lt_ref_speed_inv in Hv. destruct Hv as [data' [Hc ->]].
    apply momm_without_column. now rewrite Hc.
Qed.

Lemma mean_of_monthly_means_needs_momm_column_witness :
  ~ In "MOMM"%string (columns mast_speeds) /\
  mean_of_monthly_means mast_speeds
  = {| columns := ["MOMM"%string]; rows := [(0, [None])] |} /\
  calc_lt_ref_speed mast_speeds (Str "") (Str "") = Ok None.
Proof.
  assert (H : ~ In "MOMM"%string (columns mast_speeds)).
  { cbn. intros [E|[]]. discriminate E. }
  split; [exact H|].
  destruct (mean_of_monthly_means_needs_momm_column mast_speeds H)
    as [H1 [H2 _]].
  split; [exact H1 | exact H2].
Defined.

(** ** Date filtering in [calc_lt_ref_speed] *)

Lemma monotonic_increasing_head (a : Z) (l : list Z) :
  is_monotonic_increasing (a :: l) = true ->
  (forall e, In e l -> a <= e) /\ is_monotonic_increasing l = true.
Proof.
  revert a. induction l as [|b t IH]; intros a H.
  - split; [intros e []|reflexivity].
  - change (is_monotonic_increasing (a :: b :: t))
      with ((a <=? b) && is_monotonic_increasing (b :: t)) in H.
    apply andb_prop in H. destruct H as [Hab Ht].
    apply Z.leb_le in Hab. split; [|exact Ht].
    destruct (IH b Ht) as [Hb _].
    intros e [<-|He]; [exact Hab|]. specialize (Hb e He). lia.
Qed.

Lemma first_position_sorted (label : Z) (idx : list Z) :
  is_monotonic_increasing idx = true -> In label idx ->
  first_position label idx = List.length (filter (fun t => t <? label) idx).
Proof.
  induction idx as [|a t IH]; intros Hs Hin; [destruct Hin|].
  destruct (monotonic_increasing_head a t Hs) as [Hle Ht].
  cbn [first_position filter]. destruct (Z.eqb_spec a label) as [->|Hne].
  - destruct (Z.ltb_spec label label); [lia|].
    rewrite filter_none; [reflexivity|].
    intros x Hx. specialize (Hle x Hx). apply Z.ltb_ge. exact Hle.
  - destruct Hin as [E|Hin]; [congruence|].
    specialize (Hle label Hin).
    destruct (Z.ltb_spec a label); [|lia].
    cbn [List.length]. f_equal. now apply IH.
Qed.

Lemma stop_position_absent (label : Z) (idx : list Z) :
  ~ In label idx -> stop_position label idx = O.
Proof.
  induction idx as [|a t IH]; intros H; [reflexivity|].
  cbn [stop_position]. rewrite IH by (intros Hin; apply H; now right).
  destruct (Z.eqb_spec a label) as [->|_]; [|reflexivity].
  exfalso. apply H. now left.
Qed.

Lemma stop_position_sorted (label : Z) (idx : list Z) :
  is_monotonic_increasing idx = true -> In label idx ->
  stop_position label idx = List.length (filter (fun t => t <=? label) idx).
Proof.
  induction idx as [|a t IH]; intros Hs Hin; [destruct Hin|].
  destruct (monotonic_increasing_head a t Hs) as [Hle Ht].
  cbn [stop_position filter].
  destruct (in_dec Z.eq_dec label t) as [Hint|Hnot].
  - rewrite (IH Ht Hint). specialize (Hle label Hint).
    destruct (Z.leb_spec a label); [|lia].
    cbn [List.length].
    destruct (List.length (filter (fun t0 => t0 <=? label) t)) eqn:E;
      [|reflexivity].
    exfalso. apply length_zero_iff_nil in E.
    assert (Hf : In label (filter (fun t0 => t0 <=? label) t)).
    { apply filter_In. split; [exact Hint|]. apply Z.leb_le. lia. }
    rewrite E in Hf. destruct Hf.
  - rewrite (stop_position_absent label t Hnot).
    destruct Hin as [->|Hin]; [|contradiction].
    rewrite Z.eqb_refl, Z.leb_refl. cbn [List.length].
    rewrite filter_none; [reflexivity|].
    intros x Hx. specialize (Hle x Hx). apply Z.leb_gt.
    assert (x <> label) by (intros ->; contradiction). lia.
Qed.

Lemma occurrences_split (label : Z) (idx : list Z) :
  List.length (filter (fun t => t <=? label) idx)
  = Nat.add (List.length (filter (fun t => t <? label) idx))
            (occurrences label idx).
Proof.
  unfold occurrences. induction idx as [|a t IH]; [reflexivity|].
  cbn [filter].
  destruct (Z.leb_spec a label); destruct (Z.ltb_spec a label);
    destruct (Z.eqb_spec a label); try lia; cbn [List.length]; lia.
Qed.

Lemma occurrences_absent (label : Z) (idx : list Z) :
  existsb (fun t => t =? label) idx = false -> occurrences label idx = O.
Proof.
  intros H. unfold occurrences. rewrite filter_none; [reflexivity|].
  intros x Hx. destruct (x =? label) eqn:E; [|reflexivity].
  assert (Ht : existsb (fun t => t =? label) idx = true)
    by (apply existsb_exists; now exists x).
  congruence.
Qed.

(** On a sorted index the two bounds are counts: the labels below the
    start, and the labels not above the stop. *)
Lemma get_slice_bound_sorted (idx : list Z) (label : Z) :
  is_monotonic_increasing idx = true -> ts_in_bounds label = true ->
  get_slice_bound idx label np.Left
  = Ok (List.length (filter (fun t => t <? label) idx)) /\
  get_slice_bound idx label np.Right
  = Ok (List.length (filter (fun t => t <=? label) idx)).
Proof.
  intros Hs Hb. unfold get_slice_bound. rewrite Hb, Hs.
  pose proof (occurrences_split label idx) as Hsplit.
  destruct (existsb (fun t => t =? label) idx) eqn:E.
  - apply existsb_exists in E. destruct E as [x [Hx Ex]].
    apply Z.eqb_eq in Ex. subst x.
    rewrite (first_position_sorted label idx Hs Hx).
    rewrite (stop_position_sorted label idx Hs Hx).
    replace (Nat.sub (List.length (filter (fun t => t <=? label) idx))
                     (List.length (filter (fun t => t <? label) idx)))
      with (occurrences label idx) by lia.
    rewrite Nat.eqb_refl. split; reflexivity.
  - rewrite (occurrences_absent label idx E) in Hsplit.
    split; [reflexivity|]. f_equal. lia.
Qed.

Lemma slice_sorted {A : Type} (rs : list (Z * A)) (a b : Z) :
  is_monotonic_increasing (map fst rs) = true ->
  firstn (List.length (filter (fun t => t <=? b) (map fst rs))
          - List.length (filter (fun t => t <? a) (map fst rs)))
         (skipn (List.length (filter (fun t => t <? a) (map fst rs))) rs)
  = filter (fun r => (a <=? fst r) && (fst r <=? b)) rs.
Proof.
  induction rs as [|r rs IH]; intros Hs; [reflexivity|].
  change (map fst (r :: rs)) with (fst r :: map fst rs) in *.
  destruct (monotonic_increasing_head _ _ Hs) as [Hle Ht].
  specialize (IH Ht). cbn [filter].
  destruct (Z.ltb_spec (fst r) a) as [Hlt|Hge].
  - destruct (Z.leb_spec a (fst r)); [lia|]. cbn [andb List.length skipn].
    destruct (Z.leb_spec (fst r) b) as [Hb|Hb].
    + cbn [List.length]. rewrite <- IH. reflexivity.
    + rewrite (filter_none (fun t => t <=? b) (map fst rs)) in *.
      * rewrite <- IH. reflexivity.
      * intros x Hx. specialize (Hle x Hx). apply Z.leb_gt. lia.
      * intros x Hx. specialize (Hle x Hx). apply Z.leb_gt. lia.
  - destruct (Z.leb_spec a (fst r)); [|lia]. cbn [andb].
    rewrite (filter_none (fun t => t <? a) (map fst rs)) in *
      by (intros x Hx; specialize (Hle x Hx); apply Z.ltb_ge; lia).
    cbn [List.length skipn] in *. rewrite Nat.sub_0_r in *.
    destruct (Z.leb_spec (fst r) b) as [Hb|Hb].
    + cbn [List.length firstn]. f_equal. exact IH.
    + rewrite (filter_none (fun t => t <=? b) (map fst rs)) in *
        by (intros x Hx; specialize (Hle x Hx); apply Z.leb_gt; lia).
      cbn [List.length firstn] in *. exact IH.
Qed.

Lemma loc_slice_sorted (data : DataFrame) (a b : Z) :
  is_monotonic_increasing (index data) = true ->
  ts_in_bounds a = true -> ts_in_bounds b = true ->
  loc_slice data a b = Ok (in_range a b data).
Proof.
  intros H Ha Hb. unfold loc_slice.
  rewrite (proj1 (get_slice_bound_sorted (index data) a H Ha)).
  rewrite (proj2 (get_slice_bound_sorted (index data) b H Hb)).
  cbn [bind]. unfold in_range, index. f_equal. f_equal.
  apply slice_sorted. exact H.
Qed.

(** A bound outside the range of a [Timestamp] stops the slicing. *)
Lemma loc_slice_out_of_bounds (data : DataFrame) (a b : Z) :
  ts_in_bounds a = false \/
  (is_monotonic_increasing (index data) = true /\ ts_in_bounds b = false) ->
  loc_slice data a b = Raise OutOfBoundsDatetime.
Proof.
  intros [Ha|[Hs Hb]]; unfold loc_slice.
  - unfold get_slice_bound at 1. now rewrite Ha.
  - destruct (ts_in_bounds a) eqn:Ha.
    + rewrite (proj1 (get_slice_bound_sorted (index data) a Hs Ha)).
      cbn [bind]. unfold get_slice_bound. now rewrite Hb.
    + unfold get_slice_bound at 1. now rewrite Ha.
Qed.

Lemma strptime_ymd_nonempty (s : string) (t : Z) :
  strptime_ymd (substring 0 10 s) = Ok t -> truthy (Str s) = true.
Proof.
  destruct s as [|c s]; [discriminate | reflexivity].
Qed.

Lemma momm_of_no_rows (data : DataFrame) :
  rows data = [] -> reindex1 (momm_series data) "MOMM" = None.
Proof.
  intros H. apply reindex1_all_missing. intros x Hx.
  unfold momm_series, frame_mean in Hx. apply in_map_iff in Hx.
  destruct Hx as [j [<- _]]. cbn [snd].
  unfold groupby_month_mean, month_group. rewrite H. reflexivity.
Qed.

(** On an index that is not sorted the slice goes by position: with both
    bounds in the index the rows from the one to the other are kept,
    whatever their instants; a bound that is not in the index raises
    [KeyError]. *)
Example loc_slice_unsorted :
  rmap rows (loc_slice unsorted_mast (at_midnight 2018 6 1)
                       (at_midnight 2018 1 5))
  = Ok [(at_midnight 2018 6 1, [Some 10%Q]); (at_midnight 2018 1 5, [Some 4%Q])]
  /\ rmap rows (loc_slice unsorted_mast (at_midnight 2018 1 5)
                          (at_midnight 2018 6 1))
     = Ok []
  /\ loc_slice unsorted_mast (at_midnight 2018 1 1) (at_midnight 2018 1 5)
     = Raise KeyError.
Proof. repeat split. Qed.

(** C5, as the code has it: with two date-like values, or with two
    strings whose first ten characters parse as a date, a frame whose
    index is sorted in time is cut down to the rows between the two
    instants, both included, and the mean of monthly means of those rows
    is returned, provided both instants lie within the range of a
    [Timestamp]; when no row lies in the range nothing is raised: the
    value returned is missing.  With an instant outside the range of a
    [Timestamp] the call raises [OutOfBoundsDatetime]. *)
Theorem calc_lt_ref_speed_date_range (data : DataFrame) (a b : Z) :
  is_monotonic_increasing (index data) = true ->
  (ts_in_bounds a = true -> ts_in_bounds b = true ->
   calc_lt_ref_speed data (DateLike a) (DateLike b)
   = get_value (mean_of_monthly_means (in_range a b data)) 0 "MOMM" /\
   (forall s1 s2,
       strptime_ymd (substring 0 10 s1) = Ok a ->
       strptime_ymd (substring 0 10 s2) = Ok b ->
       calc_lt_ref_speed data (Str s1) (Str s2)
       = get_value (mean_of_monthly_means (in_range a b data)) 0 "MOMM") /\
   (rows (in_range a b data) = [] ->
    calc_lt_ref_speed data (DateLike a) (DateLike b) = Ok None /\
    forall s1 s2,
      strptime_ymd (substring 0 10 s1) = Ok a ->
      strptime_ymd (substring 0 10 s2) = Ok b ->
      calc_lt_ref_speed data (Str s1) (Str s2) = Ok None)) /\
  (ts_in_bounds a = false \/ ts_in_bounds b = false ->
   calc_lt_ref_speed data (DateLike a) (DateLike b)
   = Raise OutOfBoundsDatetime /\
   forall s1 s2,
     strptime_ymd (substring 0 10 s1) = Ok a ->
     strptime_ymd (substring 0 10 s2) = Ok b ->
     calc_lt_ref_speed data (Str s1) (Str s2) = Raise OutOfBoundsDatetime).
Proof.
  intros Hsorted.
  assert (HD : calc_lt_ref_speed data (DateLike a) (DateLike b)
               = (data' <- loc_slice data a b ;;
                  get_value (mean_of_monthly_means data') 0 "MOMM"))
    by reflexivity.
  assert (HS : forall s1 s2,
             strptime_ymd (substring 0 10 s1) = Ok a ->
             strptime_ymd (substring 0 10 s2) = Ok b ->
             calc_lt_ref_speed data (Str s1) (Str s2)
             = (data' <- loc_slice data a b ;;
                get_value (mean_of_monthly_means data') 0 "MOMM")).
  { intros s1 s2 H1 H2. unfold calc_lt_ref_speed. cbn [is_date andb].
    rewrite (strptime_ymd_nonempty s1 a H1), (strptime_ymd_nonempty s2 b H2).
    cbn [andb slice10 bind]. rewrite H1. cbn [bind]. rewrite H2. cbn [bind].
    reflexivity. }
  split.
  - intros Ha Hb. pose proof (loc_slice_sorted data a b Hsorted Ha Hb) as E.
    rewrite E in HD. cbn [bind] in HD.
    assert (HS' : forall s1 s2,
               strptime_ymd (substring 0 10 s1) = Ok a ->
               strptime_ymd (substring 0 10 s2) = Ok b ->
               calc_lt_ref_speed data (Str s1) (Str s2)
               = get_value (mean_of_monthly_means (in_range a b data))
                           0 "MOMM").
    { intros s1 s2 H1 H2. rewrite (HS s1 s2 H1 H2), E. reflexivity. }
    split; [exact HD|]. split; [exact HS'|].
    intros Hempty. split.
    + rewrite HD, get_value_momm. now rewrite momm_of_no_rows.
    + intros s1 s2 H1 H2. rewrite (HS' s1 s2 H1 H2), get_value_momm.
      now rewrite momm_of_no_rows.
  - intros Hout.
    assert (E : loc_slice data a b = Raise OutOfBoundsDatetime).
    { apply loc_slice_out_of_bounds. destruct Hout as [Ha|Hb];
        [now left | right; now split]. }
    split.
    + rewrite HD, E. reflexivity.
    + intros s1 s2 H1 H2. rewrite (HS s1 s2 H1 H2), E. reflexivity.
Qed.

Lemma calc_lt_ref_speed_date_range_witness :
  is_monotonic_increasing (index winter_heavy) = true /\
  rmap (option_map Qred)
       (calc_lt_ref_speed winter_heavy (Str "2018-01-06 00:00:00")
                          (Str "2018-12-31"))
  = Ok (Some 8%Q) /\
  rows (in_range (at_midnight 2019 1 1) (at_midnight 2019 12 31) winter_heavy)
  = [] /\
  calc_lt_ref_speed winter_heavy (DateLike (at_midnight 2019 1 1))
                    (DateLike (at_midnight 2019 12 31)) = Ok None /\
  calc_lt_ref_speed winter_heavy (DateLike (at_midnight 1500 1 1))
                    (DateLike (at_midnight 1600 1 1))
  = Raise OutOfBoundsDatetime.
Proof.
  assert (H : is_monotonic_increasing (index winter_heavy) = true)
    by reflexivity.
  assert (E : rows (in_range (at_midnight 2019 1 1) (at_midnight 2019 12 31)
                             winter_heavy) = []) by reflexivity.
  split; [exact H|]. split; [|split; [exact E|split]].
  - destruct (calc_lt_ref_speed_date_range
                winter_heavy (at_midnight 2018 1 6) (at_midnight 2018 12 31) H)
      as [HI _].
    destruct (HI eq_refl eq_refl) as [_ [HS _]].
    rewrite (HS "2018-01-06 00:00:00" "2018-12-31")%string
      by (vm_compute; reflexivity).
    vm_compute. reflexivity.
  - destruct (calc_lt_ref_speed_date_range
                winter_heavy (at_midnight 2019 1 1) (at_midnight 2019 12 31) H)
      as [HI _].
    destruct (HI eq_refl eq_refl) as [_ [_ HE]].
    exact (proj1 (HE E)).
  - destruct (calc_lt_ref_speed_date_range
                winter_heavy (at_midnight 1500 1 1) (at_midnight 1600 1 1) H)
      as [_ HO].
    exact (proj1 (HO (or_introl eq_refl))).
Defined.

(** C5 as stated fails: a range without rows yields a missing value,
    not an exception. *)
Lemma calc_lt_ref_speed_empty_range_returns :
  rows (in_range (at_midnight 2019 1 1) (at_midnight 2019 12 31) winter_heavy)
  = [] /\
  calc_lt_ref_speed winter_heavy (Str "2019-01-01") (Str "2019-12-31")
  = Ok None /\
  forall e : exn,
    calc_lt_ref_speed winter_heavy (Str "2019-01-01") (Str "2019-12-31")
    <> Raise e.
Proof.
  split; [reflexivity|].
  assert (E : calc_lt_ref_speed winter_heavy (Str "2019-01-01")
                                (Str "2019-12-31") = Ok None)
    by (vm_compute; reflexivity).
  split; [exact E|]. intros e. rewrite E. discriminate.
Qed.

(** C10: a single date string is ignored.  When one of the two date
    arguments is a string and the other is left at its default [""], the
    whole frame goes to [mean_of_monthly_means], exactly as with no date
    argument. *)
Theorem calc_lt_ref_speed_single_date_ignored (data : DataFrame) (s : string) :
  calc_lt_ref_speed data (Str s) (Str "")
  = calc_lt_ref_speed data (Str "") (Str "") /\
  calc_lt_ref_speed data (Str "") (Str s)
  = calc_lt_ref_speed data (Str "") (Str "") /\
  calc_lt_ref_speed data (Str "") (Str "")
  = get_value (mean_of_monthly_means data) 0 "MOMM".
Proof.
  unfold calc_lt_ref_speed. cbn [is_date truthy andb String.eqb negb bind].
  rewrite andb_false_r. cbn [bind]. repeat split; reflexivity.
Qed.

(** ** Time continuity gaps *)

Lemma combine_adjacent (l : list Z) :
  forall s : nat,
    combine (seq s (List.length l)) (combine (tl l) (removelast l))
    = map (fun i => ((s + i)%nat, (nth (S i) l 0, nth i l 0)))
          (seq 0 (List.length l - 1)).
Proof.
  induction l as [|a l IH]; intros s; [reflexivity|].
  destruct l as [|b t]; [reflexivity|].
  specialize (IH (S s)).
  remember (b :: t) as l' eqn:El.
  assert (Hlen : List.length l' = S (List.length l' - 1))
    by (subst l'; cbn [List.length]; lia).
  replace (List.length (a :: l') - 1)%nat with (List.length l')
    by (cbn [List.length]; lia).
  rewrite Hlen at 1. cbn [seq map]. rewrite <- seq_shift, map_map.
  assert (Hl : combine (seq s (List.length (a :: l')))
                       (combine (tl (a :: l')) (removelast (a :: l')))
               = (s, (b, a))
                   :: combine (seq (S s) (List.length l'))
                              (combine (tl l') (removelast l'))).
  { subst l'. reflexivity. }
  rewrite Hl, IH. subst l'. cbn [nth]. rewrite Nat.add_0_r. f_equal.
  apply map_ext. intros i. f_equal. lia.
Qed.

Lemma continuity_table_rows (indexes : list Z) :
  continuity_table indexes
  = map (continuity_row indexes) (seq 0 (List.length indexes - 1)).
Proof.
  unfold continuity_table. rewrite combine_adjacent, map_map.
  apply map_ext. intros i. reflexivity.
Qed.

Lemma filter_map_commute {A B : Type} (p : B -> bool) (f : A -> B)
      (l : list A) :
  filter p (map f l) = map f (filter (fun x => p (f x)) l).
Proof.
  induction l as [|a l IH]; [reflexivity|].
  cbn [map filter]. rewrite IH. now destruct (p (f a)).
Qed.

Lemma inv_ns_per_day_nonzero : ~ (/ inject_Z ns_per_day == 0)%Q.
Proof. vm_compute. discriminate. Qed.

(** Comparing days lost with the resolution in days is comparing the
    two durations. *)
Lemma days_lost_differs (a b res : Z) :
  negb (Qeq_bool (days_between a b) (inject_Z res / inject_Z ns_per_day))
  = negb (b - a =? res).
Proof.
  f_equal. unfold days_between, Qdiv.
  destruct (Z.eqb_spec (b - a) res) as [E|E].
  - rewrite E. apply Qeq_bool_iff. reflexivity.
  - destruct (Qeq_bool (inject_Z (b - a) * / inject_Z ns_per_day)
                       (inject_Z res * / inject_Z ns_per_day)) eqn:Eq;
      [|reflexivity].
    apply Qeq_bool_iff in Eq.
    apply -> (Qmult_inj_r (inject_Z (b - a)) (inject_Z res) _
                          inv_ns_per_day_nonzero) in Eq.
    apply -> inject_Z_injective in Eq. contradiction.
Qed.

Lemma get_time_continuity_gaps_rows
      (resolution_of : list Z -> result Z) (data : DataFrame) (res : Z) :
  resolution_of (index (dropna_all data)) = Ok res ->
  get_time_continuity_gaps resolution_of data
  = Ok (map (continuity_row (index (dropna_all data)))
            (filter (fun i =>
                       negb (nth (S i) (index (dropna_all data)) 0
                             - nth i (index (dropna_all data)) 0 =? res))
                    (seq 0 (List.length (index (dropna_all data)) - 1)))).
Proof.
  intros H. unfold get_time_continuity_gaps. rewrite H. cbn [bind].
  rewrite continuity_table_rows, filter_map_commute. do 2 f_equal.
  apply filter_ext. intros i. cbn [continuity_row snd Days_Lost].
  apply days_lost_differs.
Qed.

Lemma filter_seq_single (c a n : nat) :
  filter (fun i => (i =? c)%nat) (seq a n)
  = if ((a <=? c) && (c <? a + n))%nat then [c] else [].
Proof.
  revert a. induction n as [|n IH]; intros a.
  - cbn [seq filter].
    destruct (Nat.leb_spec a c), (Nat.ltb_spec c (a + 0)); cbn; try reflexivity.
    lia.
  - cbn [seq filter]. rewrite IH.
    destruct (Nat.eqb_spec a c) as [->|Hne].
    + destruct (Nat.leb_spec (S c) c); [lia|].
      destruct (Nat.leb_spec c c); [|lia].
      destruct (Nat.ltb_spec c (c + S n)); [|lia]. reflexivity.
    + destruct (Nat.leb_spec (S a) c), (Nat.leb_spec a c),
        (Nat.ltb_spec c (S a + n)), (Nat.ltb_spec c (a + S n));
        cbn [andb]; try reflexivity; lia.
Qed.

Lemma hourly_nth (t0 : Z) (n i : nat) :
  (i < n)%nat -> nth i (hourly t0 n) 0 = t0 + Z.of_nat i * ns_per_hour.
Proof.
  intros H. unfold hourly.
  rewrite (nth_indep _ 0 ((fun j => t0 + Z.of_nat j * ns_per_hour) 0%nat))
    by now rewrite length_map, length_seq.
  rewrite (map_nth (fun j => t0 + Z.of_nat j * ns_per_hour)).
  now rewrite seq_nth.
Qed.

Lemma hourly_with_gap_length (t0 : Z) (k n : nat) :
  List.length (hourly_with_gap t0 k n) = (k + n)%nat.
Proof.
  unfold hourly_with_gap, hourly.
  now rewrite length_app, !length_map, !length_seq.
Qed.

Lemma hourly_with_gap_nth (t0 : Z) (k n i : nat) :
  (i < k + n)%nat ->
  nth i (hourly_with_gap t0 k n) 0
  = t0 + (if (i <? k)%nat then Z.of_nat i else Z.of_nat i + 24) * ns_per_hour.
Proof.
  intros H. unfold hourly_with_gap.
  assert (Lk : List.length (hourly t0 k) = k)
    by (unfold hourly; now rewrite length_map, length_seq).
  destruct (Nat.ltb_spec i k).
  - rewrite app_nth1 by lia. now apply hourly_nth.
  - rewrite app_nth2 by lia. rewrite Lk, hourly_nth by lia.
    unfold ns_per_hour. lia.
Qed.

(** C6: the gaps reported are the rows of adjacent index timestamps
    whose distance differs from the inferred resolution, each with its
    start, its end and the days between them; for hourly data with one
    day missing and an inferred resolution of one hour that is one row,
    spanning 25 hours, more than the hour expected. *)
Theorem get_time_continuity_gaps_one_missing_day
        (resolution_of : list Z -> result Z) (data : DataFrame) :
  (forall res,
      resolution_of (index (dropna_all data)) = Ok res ->
      get_time_continuity_gaps resolution_of data
      = Ok (map (continuity_row (index (dropna_all data)))
                (filter (fun i =>
                           negb (nth (S i) (index (dropna_all data)) 0
                                 - nth i (index (dropna_all data)) 0 =? res))
                        (seq 0 (List.length (index (dropna_all data)) - 1))))) /\
  (forall (t0 : Z) (k n : nat),
      (1 <= k)%nat -> (1 <= n)%nat ->
      index (dropna_all data) = hourly_with_gap t0 k n ->
      resolution_of (hourly_with_gap t0 k n) = Ok ns_per_hour ->
      exists row,
        get_time_continuity_gaps resolution_of data
        = Ok [(Z.of_nat (k - 1), row)] /\
        Date_From row = t0 + Z.of_nat (k - 1) * ns_per_hour /\
        Date_To row = t0 + (Z.of_nat k + 24) * ns_per_hour /\
        (Days_Lost row == 25 # 24)%Q /\
        (inject_Z ns_per_hour / inject_Z ns_per_day < Days_Lost row)%Q).
Proof.
  split; [intros res; apply get_time_continuity_gaps_rows|].
  intros t0 k n Hk Hn Hidx Hres.
  rewrite <- Hidx in Hres.
  rewrite (get_time_continuity_gaps_rows _ _ _ Hres), Hidx.
  rewrite hourly_with_gap_length.
  rewrite (filter_ext_in _ (fun i => (i =? k - 1)%nat)).
  2:{ intros i Hi. apply in_seq in Hi.
      rewrite !hourly_with_gap_nth by lia.
      destruct (Nat.ltb_spec (S i) k), (Nat.ltb_spec i k),
        (Nat.eqb_spec i (k - 1)); try lia;
        match goal with
        | |- negb (?x =? ?y) = _ => destruct (Z.eqb_spec x y)
        end; try reflexivity; unfold ns_per_hour in *; lia. }
  rewrite filter_seq_single.
  destruct (Nat.leb_spec 0 (k - 1)); [|lia].
  destruct (Nat.ltb_spec (k - 1) (0 + (k + n - 1))); [|lia].
  cbn [andb map]. eexists. split; [reflexivity|].
  cbn [continuity_row Date_From Date_To Days_Lost].
  replace (S (k - 1)) with k by lia.
  rewrite !hourly_with_gap_nth by lia.
  destruct (Nat.ltb_spec (k - 1) k); [|lia].
  destruct (Nat.ltb_spec k k); [lia|].
  split; [reflexivity|]. split; [reflexivity|].
  assert (E : t0 + (Z.of_nat k + 24) * ns_per_hour
              - (t0 + Z.of_nat (k - 1) * ns_per_hour) = 25 * ns_per_hour)
    by (unfold ns_per_hour; lia).
  unfold days_between. rewrite E. split; vm_compute; reflexivity.
Qed.

Lemma get_time_continuity_gaps_one_missing_day_witness :
  (1 <= 3)%nat /\ (1 <= 2)%nat /\
  index (dropna_all gappy_mast) = hourly_with_gap (at_midnight 2018 1 1) 3 2 /\
  most_frequent_step (hourly_with_gap (at_midnight 2018 1 1) 3 2)
  = Ok ns_per_hour /\
  exists row,
    get_time_continuity_gaps most_frequent_step gappy_mast = Ok [(2, row)] /\
    Date_From row = at_midnight 2018 1 1 + 2 * ns_per_hour /\
    Date_To row = at_midnight 2018 1 1 + 27 * ns_per_hour /\
    (Days_Lost row == 25 # 24)%Q.
Proof.
  assert (H1 : (1 <= 3)%nat) by lia.
  assert (H2 : (1 <= 2)%nat) by lia.
  assert (H3 : index (dropna_all gappy_mast)
               = hourly_with_gap (at_midnight 2018 1 1) 3 2)
    by (vm_compute; reflexivity).
  assert (H4 : most_frequent_step (hourly_with_gap (at_midnight 2018 1 1) 3 2)
               = Ok ns_per_hour) by (vm_compute; reflexivity).
  split; [exact H1|]. split; [exact H2|]. split; [exact H3|].
  split; [exact H4|].
  destruct (proj2 (get_time_continuity_gaps_one_missing_day
                     most_frequent_step gappy_mast)
                  (at_midnight 2018 1 1) 3%nat 2%nat H1 H2 H3 H4)
    as [row [E [F [T [D _]]]]].
  exists row. split; [exact E|]. split; [exact F|].
  split; [exact T | exact D].
Defined.

(** ** Zero speed under SpeedSort *)

Lemma fitted_edges (m : SpeedSort) :
  fitted m -> direction_bin_array m = zero_centered_edges (sectors m).
Proof.
  intros [Hs [He _]]. rewrite get_direction_bin_array_closed in He by assumption.
  now injection He.
Qed.

Lemma synthesize_point_defined
      (blend : SectorSpeedModel -> Q -> Q) (m : SpeedSort) (spd dir : Q) :
  fitted m -> (0 <= dir)%Q -> (dir <= 360)%Q ->
  exists y, synthesize_point blend m spd dir = Ok y /\
            ((spd == 0)%Q -> y = 0%Q).
Proof.
  intros Hf H0 H360. pose proof (fitted_edges m Hf) as He.
  destruct Hf as [Hs [_ Hmodels]].
  unfold synthesize_point. rewrite He.
  destruct (map_direction_bin_on_circle (sectors m) dir Hs H0 H360)
    as [k [-> Hk]].
  cbn [bind]. destruct (Hmodels k Hk) as [sm ->]. cbn [bind].
  destruct (Qeq_bool spd 0) eqn:E.
  - exists 0%Q. split; reflexivity.
  - destruct (Qltb spd (cutoff sm)); eexists; (split; [reflexivity|]);
      intros Hz; apply Qeq_bool_iff in Hz; congruence.
Qed.

(** C3: a fitted SpeedSort model synthesizes one value for every
    (speed, direction) pair whose direction lies on the circle, and the
    value is exactly 0 wherever the input speed is 0, whatever the
    direction, the sector and its cutoff are. *)
Theorem synthesize_zero_speed
        (blend : SectorSpeedModel -> Q -> Q) (m : SpeedSort)
        (input : list (Q * Q)) :
  fitted m ->
  Forall (fun p => (0 <= snd p)%Q /\ (snd p <= 360)%Q) input ->
  exists output,
    synthesize blend m input = Ok output /\
    List.length output = List.length input /\
    forall i spd dir,
      nth_error input i = Some (spd, dir) -> (spd == 0)%Q ->
      nth_error output i = Some 0%Q.
Proof.
  intros Hf. induction 1 as [|[spd dir] input [H0 H360] _ IH].
  - exists []. split; [reflexivity|]. split; [reflexivity|].
    intros [|i] spd dir H; discriminate H.
  - destruct IH as [out [E [L Hz]]]. cbn [snd] in *.
    destruct (synthesize_point_defined blend m spd dir Hf H0 H360)
      as [y [Ey Hy]].
    exists (y :: out). cbn [synthesize]. rewrite Ey, E. cbn [bind].
    split; [reflexivity|]. split; [cbn [List.length]; now rewrite L|].
    intros [|i] spd' dir' Hi Hs; cbn [nth_error] in *.
    + injection Hi as <- <-. now rewrite (Hy Hs).
    + now apply (Hz i spd' dir').
Qed.

Lemma sample_speedsort_fitted : fitted sample_speedsort.
Proof.
  split; [cbn; lia|].
  split; [apply get_direction_bin_array_closed; cbn; lia|].
  intros k Hk. cbn [sectors sample_speedsort] in Hk.
  assert (C : k = 1 \/ k = 2 \/ k = 3 \/ k = 4) by lia.
  destruct C as [E|[E|[E|E]]]; subst k; eexists; reflexivity.
Defined.

Lemma synthesize_zero_speed_witness :
  fitted sample_speedsort /\
  Forall (fun p => (0 <= snd p)%Q /\ (snd p <= 360)%Q)
         [(0, 90); (5, 10); (0, 360); (1, 200)]%Q /\
  exists output,
    synthesize origin_blend sample_speedsort
               [(0, 90); (5, 10); (0, 360); (1, 200)]%Q = Ok output /\
    nth_error output 0 = Some 0%Q /\
    nth_error output 2 = Some 0%Q /\
    map Qred output = [0; 11 # 2; 0; 14 # 15]%Q.
Proof.
  assert (HF : Forall (fun p => (0 <= snd p)%Q /\ (snd p <= 360)%Q)
                      [(0, 90); (5, 10); (0, 360); (1, 200)]%Q).
  { repeat constructor; cbn [snd]; unfold Qle; simpl; lia. }
  split; [exact sample_speedsort_fitted|]. split; [exact HF|].
  destruct (synthesize_zero_speed origin_blend sample_speedsort
              [(0, 90); (5, 10); (0, 360); (1, 200)]%Q
              sample_speedsort_fitted HF) as [output [E [_ Hz]]].
  exists output. split; [exact E|].
  split; [apply (Hz 0%nat 0%Q 90%Q); reflexivity|].
  split; [apply (Hz 2%nat 0%Q 360%Q); reflexivity|].
  vm_compute in E. injection E as <-. vm_compute. reflexivity.
Defined.

(** * Further properties *)

(** ** The edges once more *)

Lemma zero_centered_edges_nth_inner (s : Z) (j : nat) :
  Z.of_nat j < s -> nth (S j) (zero_centered_edges s) 0%Q = inner_edge s j.
Proof.
  intros Hj. unfold zero_centered_edges. cbn [nth].
  rewrite app_nth1 by (rewrite length_map, length_seq; lia).
  rewrite (nth_indep _ 0%Q (inner_edge s 0))
    by (rewrite length_map, length_seq; lia).
  rewrite map_nth, seq_nth by lia. reflexivity.
Qed.

Lemma zero_centered_edges_nth_last (s : Z) :
  0 <= s -> nth (S (Z.to_nat s)) (zero_centered_edges s) 0%Q = 360%Q.
Proof.
  intros Hs. unfold zero_centered_edges. cbn [nth].
  rewrite app_nth2 by (rewrite length_map, length_seq; lia).
  rewrite length_map, length_seq, Nat.sub_diag. reflexivity.
Qed.

Lemma inner_edge_closed (s : Z) (j : nat) :
  0 < s ->
  (inner_edge s j == inject_Z (2 * Z.of_nat j + 1) * (180 / inject_Z s))%Q.
Proof.
  intros Hs. unfold inner_edge.
  rewrite inject_Z_plus, inject_Z_mult.
  field. apply inject_Z_nonzero. lia.
Qed.

Lemma half_sector_positive (s : Z) : 0 < s -> (0 < 180 / inject_Z s)%Q.
Proof.
  intros Hs. apply Qlt_shift_div_l.
  - unfold Qlt, inject_Z; cbn [Qnum Qden]. lia.
  - reflexivity.
Qed.

Lemma inner_edge_increasing (s : Z) (i j : nat) :
  0 < s -> (i < j)%nat -> (inner_edge s i < inner_edge s j)%Q.
Proof.
  intros Hs Hij. rewrite !inner_edge_closed by assumption.
  apply Qmult_lt_compat_r; [now apply half_sector_positive|].
  rewrite <- Zlt_Qlt. lia.
Qed.

(** The value at each position of the zero-centered edges. *)
Lemma zero_centered_edges_adjacent (s : Z) (i : nat) :
  0 < s -> (S i < List.length (zero_centered_edges s))%nat ->
  (nth i (zero_centered_edges s) 0 < nth (S i) (zero_centered_edges s) 0)%Q.
Proof.
  intros Hs Hi.
  pose proof (zero_centered_edges_length s ltac:(lia)) as L.
  destruct i as [|i].
  - rewrite zero_centered_edges_nth_inner by lia.
    apply inner_edge_bounds; lia.
  - rewrite (zero_centered_edges_nth_inner s i) by lia.
    destruct (Z.eq_dec (Z.of_nat (S i)) s) as [E|E].
    + replace (S (S i)) with (S (Z.to_nat s)) by lia.
      rewrite zero_centered_edges_nth_last by lia.
      apply inner_edge_bounds; lia.
    + rewrite zero_centered_edges_nth_inner by lia.
      apply inner_edge_increasing; [assumption | lia].
Qed.

(** X1: for a positive sector count the edges returned by
    [get_direction_bin_array] are strictly increasing, and they all lie
    between 0 and 360. *)
Theorem get_direction_bin_array_strictly_increasing (sectors : Z) :
  0 < sectors ->
  exists edges,
    get_direction_bin_array sectors = Ok edges /\
    (forall i j, (i < j < List.length edges)%nat ->
                 (nth i edges 0 < nth j edges 0)%Q) /\
    (forall e, In e edges -> (0 <= e <= 360)%Q).
Proof.
  intros Hs. exists (zero_centered_edges sectors).
  split; [now apply get_direction_bin_array_closed|]. split.
  - intros i j [Hij Hj]. induction j as [|j IH]; [lia|].
    destruct (Nat.eq_dec i j) as [->|Hne].
    + now apply zero_centered_edges_adjacent.
    + apply Qlt_trans with (nth j (zero_centered_edges sectors) 0%Q).
      * apply IH; lia.
      * now apply zero_centered_edges_adjacent.
  - intros e He. now apply (zero_centered_edges_in sectors).
Qed.

Lemma get_direction_bin_array_strictly_increasing_witness :
  0 < 7 /\
  exists edges,
    get_direction_bin_array 7 = Ok edges /\
    (nth 3 edges 0 < nth 4 edges 0)%Q /\
    map Qred edges
    = [0; 180 # 7; 540 # 7; 900 # 7; 180; 1620 # 7; 1980 # 7; 2340 # 7; 360]%Q.
Proof.
  assert (H : 0 < 7) by lia. split; [exact H|].
  destruct (get_direction_bin_array_strictly_increasing 7 H)
    as [edges [E [Hinc _]]].
  exists edges. split; [exact E|].
  assert (L : List.length edges = 9%nat)
    by (vm_compute in E; injection E as <-; reflexivity).
  split; [apply Hinc; rewrite L; lia|].
  vm_compute in E. injection E as <-. vm_compute. reflexivity.
Defined.

Lemma Qceiling_negative_half (s : Z) :
  s < 0 -> ~ (inject_Z s == 0)%Q /\
  Qceiling ((360 - 180 / inject_Z s) / (360 / inject_Z s)) = s.
Proof.
  intros Hs.
  assert (Hn : ~ (inject_Z s == 0)%Q) by (apply inject_Z_nonzero; lia).
  split; [exact Hn|].
  assert (E : ((360 - 180 / inject_Z s) / (360 / inject_Z s)
               == inject_Z s - (1 # 2))%Q) by (field; exact Hn).
  rewrite (Qceiling_comp _ _ E). apply Qceiling_minus_half.
Qed.

(** X2: [get_direction_bin_array] divides by the sector count: zero
    sectors raise [ZeroDivisionError]; a negative count yields no inner
    edge, only the two ends 0 and 360. *)
Theorem get_direction_bin_array_degenerate (sectors : Z) :
  (sectors = 0 -> get_direction_bin_array sectors = Raise ZeroDivisionError) /\
  (sectors < 0 -> get_direction_bin_array sectors = Ok [0; 360]%Q).
Proof.
  split.
  - intros ->. reflexivity.
  - intros Hs. unfold get_direction_bin_array.
    destruct (Z.eqb_spec sectors 0); [lia|].
    unfold np.arange.
    destruct (Qeq_bool (360 / inject_Z sectors) 0) eqn:E0.
    + apply Qeq_bool_iff in E0. exfalso.
      destruct (Qceiling_negative_half sectors Hs) as [Hn _].
      assert (H360 : (360 == 0)%Q).
      { rewrite <- (Qmult_div_r 360 (inject_Z sectors) Hn).
        rewrite E0. ring. }
      discriminate H360.
    + cbn [bind]. unfold np.arange_len.
      rewrite (proj2 (Qceiling_negative_half sectors Hs)).
      destruct sectors; try lia. reflexivity.
Qed.

Lemma get_direction_bin_array_degenerate_witness :
  0 = 0 /\ -3 < 0 /\
  get_direction_bin_array 0 = Raise ZeroDivisionError /\
  get_direction_bin_array (-3) = Ok [0; 360]%Q.
Proof.
  assert (H0 : 0 = 0) by reflexivity.
  assert (H3 : -3 < 0) by lia.
  split; [exact H0|]. split; [exact H3|]. split.
  - exact (proj1 (get_direction_bin_array_degenerate 0) H0).
  - exact (proj2 (get_direction_bin_array_degenerate (-3)) H3).
Defined.

(** ** Which sector a direction gets *)

Lemma map_direction_bin_count (s : Z) (d : Q) :
  0 < s -> (0 <= d)%Q -> (d < 360)%Q ->
  map_direction_bin d (zero_centered_edges s) s =
  Ok (if Z.of_nat (np.searchsorted (zero_centered_edges s) d np.Right)
         =? s + 1
      then 1
      else Z.of_nat (np.searchsorted (zero_centered_edges s) d np.Right)).
Proof.
  intros Hs H0 H360. unfold map_direction_bin.
  destruct (zero_centered_edges_max s Hs) as [m [-> Hm]]. cbn [bind].
  assert (E : Qeq_bool d m = false).
  { destruct (Qeq_bool d m) eqn:E; [|reflexivity].
    apply Qeq_bool_iff in E. rewrite E, Hm in H360.
    discriminate H360. }
  rewrite E, digitize_sorted by now apply zero_centered_edges_sorted.
  cbn [bind]. now destruct (_ =? _).
Qed.



Lemma full_turn_in_half_sectors (s : Z) :
  0 < s ->
  (360 - 180 / inject_Z s == inject_Z (2 * s - 1) * (180 / inject_Z s))%Q.
Proof.
  intros Hs. unfold Z.sub. rewrite inject_Z_plus, inject_Z_mult.
  change (inject_Z 2) with 2%Q. change (inject_Z (- (1))) with (- (1))%Q.
  field. apply inject_Z_nonzero. lia.
Qed.



Lemma map_direction_bin_in_sector (s : Z) (d : Q) :
  0 < s -> (0 <= d)%Q -> (d < 360)%Q ->
  exists k, map_direction_bin d (zero_centered_edges s) s = Ok k /\
            1 <= k <= s /\ in_sector s k d.
Proof.
  intros Hs H0 H360. rewrite map_direction_bin_count by assumption.
  pose proof (count_right_bounds s d Hs H0 H360) as B.
  destruct (searchsorted_right_prefix (zero_centered_edges s) d
              (zero_centered_edges_sorted s Hs)) as [P1 P2].
  pose proof (zero_centered_edges_length s ltac:(lia)) as L.
  set (c := np.searchsorted (zero_centered_edges s) d np.Right) in *.
  destruct (Z.eqb_spec (Z.of_nat c) (s + 1)) as [E|E].
  - exists 1. split; [reflexivity|]. split; [lia|]. left. split; [reflexivity|].
    right. specialize (P1 (Z.to_nat s) ltac:(lia)).
    replace (Z.to_nat s) with (S (Z.to_nat s - 1)) in P1 by lia.
    rewrite zero_centered_edges_nth_inner in P1 by lia.
    rewrite inner_edge_closed in P1 by assumption.
    rewrite full_turn_in_half_sectors by assumption.
    replace (2 * Z.of_nat (Z.to_nat s - 1) + 1) with (2 * s - 1) in P1 by lia.
    exact P1.
  - exists (Z.of_nat c). split; [reflexivity|]. split; [lia|].
    destruct (Z.eq_dec (Z.of_nat c) 1) as [E1|E1].
    + left. split; [assumption|]. left.
      specialize (P2 1%nat ltac:(lia)).
      rewrite zero_centered_edges_nth_inner, inner_edge_first in P2 by lia.
      exact P2.
    + right. split; [lia|].
      specialize (P1 (c - 1)%nat ltac:(lia)).
      specialize (P2 c ltac:(lia)).
      replace (c - 1)%nat with (S (c - 2)) in P1 by lia.
      replace (nth c (zero_centered_edges s) 0%Q)
        with (nth (S (c - 1)) (zero_centered_edges s) 0%Q) in P2
        by (f_equal; lia).
      rewrite zero_centered_edges_nth_inner, inner_edge_closed in P1 by lia.
      rewrite zero_centered_edges_nth_inner, inner_edge_closed in P2 by lia.
      replace (2 * Z.of_nat (c - 2) + 1) with (2 * Z.of_nat c - 3) in P1 by lia.
      replace (2 * Z.of_nat (c - 1) + 1) with (2 * Z.of_nat c - 1) in P2 by lia.
      split; assumption.
Qed.


(** X3: over any sorted array of [sectors + 2] edges, such as the one
    [get_direction_bin_array] builds, a direction from the first edge up
    to the last gets sector [k] exactly when it lies in the directions of
    that sector as the edges give them: sector 1 is what lies below edge
    1 together with what lies from edge [sectors] on, and sector
    [k >= 2] is what lies from edge [k - 1] up to edge [k]. *)
Theorem map_direction_bin_sector_intervals
        (edges : list Q) (sectors : Z) (d : Q) :
  0 < sectors ->
  np.nondecreasing edges = true ->
  Z.of_nat (List.length edges) = sectors + 2 ->
  (nth 0 edges 0 <= d)%Q -> (d < nth (Z.to_nat sectors + 1) edges 0)%Q ->
  forall k, map_direction_bin d edges sectors = Ok k
            <-> edges_sector edges sectors k d.
Proof.
  intros Hs Hsorted Hlen Hlo Hhi k.
  assert (Hne : edges <> []) by (destruct edges; [cbn in Hlen; lia | discriminate]).
  unfold map_direction_bin.
  destruct (py_max_defined edges Hne) as [m Hm]. rewrite Hm. cbn [bind].
  assert (E : Qeq_bool d m = false).
  { destruct (Qeq_bool d m) eqn:E; [|reflexivity].
    apply Qeq_bool_iff in E. exfalso. apply (Qlt_not_le _ _ Hhi).
    rewrite E. apply (py_max_upper edges m Hm). apply nth_In. lia. }
  rewrite E, digitize_sorted by assumption. cbn [bind].
  destruct (searchsorted_right_prefix edges d Hsorted) as [P1 P2].
  set (c := np.searchsorted edges d np.Right) in *.
  assert (Hc1 : (1 <= c)%nat).
  { destruct c as [|c']; [|lia]. exfalso.
    apply (Qlt_not_le _ _ (P2 0%nat ltac:(lia))). exact Hlo. }
  assert (Hc2 : (c <= Z.to_nat sectors + 1)%nat).
  { destruct (Nat.le_gt_cases c (Z.to_nat sectors + 1)) as [|Hgt];
      [assumption|].
    exfalso. apply (Qlt_not_le _ _ Hhi). apply P1. lia. }
  unfold edges_sector.
  destruct (Z.eqb_spec (Z.of_nat c) (sectors + 1)) as [Ec|Ec].
  - split.
    + intros H. injection H as <-. left. split; [reflexivity|].
      right. apply P1. lia.
    + intros [[-> _]|[Hk [Hk1 Hk2]]]; [reflexivity|]. exfalso.
      apply (Qlt_not_le _ _ Hk2). apply P1. lia.
  - split.
    + intros H. injection H as <-. rewrite Nat2Z.id.
      destruct (Nat.eq_dec c 1) as [->|Hc].
      * left. split; [reflexivity|]. left. apply P2. lia.
      * right. split; [lia|]. split; [apply P1; lia | apply P2; lia].
    + intros [[-> [H1|H1]]|[Hk [Hk1 Hk2]]]; f_equal.
      * destruct (Nat.eq_dec c 1) as [->|Hc]; [reflexivity|]. exfalso.
        apply (Qlt_not_le _ _ H1). apply P1. lia.
      * exfalso. apply (Qlt_not_le _ _ (P2 (Z.to_nat sectors) ltac:(lia))).
        exact H1.
      * destruct (Z.lt_trichotomy (Z.of_nat c) k) as [Hlt|[Heq|Hgt]];
          [|exact Heq|]; exfalso.
        -- apply (Qlt_not_le _ _ (P2 (Z.to_nat k - 1)%nat ltac:(lia))).
           exact Hk1.
        -- apply (Qlt_not_le _ _ Hk2). apply P1. lia.
Qed.

Lemma map_direction_bin_sector_intervals_witness :
  0 < 12 /\
  np.nondecreasing (zero_centered_edges 12) = true /\
  Z.of_nat (List.length (zero_centered_edges 12)) = 12 + 2 /\
  (nth 0 (zero_centered_edges 12) 0 <= 100)%Q /\
  (100 < nth (Z.to_nat 12 + 1) (zero_centered_edges 12) 0)%Q /\
  edges_sector (zero_centered_edges 12) 12 4 100 /\
  get_direction_bin_array 12 = Ok (zero_centered_edges 12) /\
  map_direction_bin 100 (zero_centered_edges 12) 12 = Ok 4.
Proof.
  assert (H1 : 0 < 12) by lia.
  assert (H2 : np.nondecreasing (zero_centered_edges 12) = true)
    by reflexivity.
  assert (H3 : Z.of_nat (List.length (zero_centered_edges 12)) = 12 + 2)
    by reflexivity.
  assert (H4 : (nth 0 (zero_centered_edges 12) 0 <= 100)%Q)
    by (vm_compute; discriminate).
  assert (H5 : (100 < nth (Z.to_nat 12 + 1) (zero_centered_edges 12) 0)%Q)
    by (vm_compute; reflexivity).
  assert (H6 : edges_sector (zero_centered_edges 12) 12 4 100).
  { right. split; [lia|]. split; vm_compute; [discriminate | reflexivity]. }
  split; [exact H1|]. split; [exact H2|]. split; [exact H3|].
  split; [exact H4|]. split; [exact H5|]. split; [exact H6|].
  split; [apply get_direction_bin_array_closed; exact H1|].
  apply (map_direction_bin_sector_intervals
           (zero_centered_edges 12) 12 100 H1 H2 H3 H4 H5 4).
  exact H6.
Defined.

(** X4: a direction outside the circle gets no sector: above 360 the
    result is [sectors + 2], below 0 it is 0. *)
Theorem map_direction_bin_outside_circle (sectors : Z) :
  0 < sectors ->
  exists edges,
    get_direction_bin_array sectors = Ok edges /\
    (forall d, (360 < d)%Q ->
               map_direction_bin d edges sectors = Ok (sectors + 2)) /\
    (forall d, (d < 0)%Q -> map_direction_bin d edges sectors = Ok 0).
Proof.
  intros Hs. exists (zero_centered_edges sectors).
  split; [now apply get_direction_bin_array_closed|].
  pose proof (zero_centered_edges_length sectors ltac:(lia)) as L.
  split; intros d Hd; unfold map_direction_bin;
    destruct (zero_centered_edges_max sectors Hs) as [m [-> Hm]];
    cbn [bind].
  - assert (E : Qeq_bool d m = false).
    { destruct (Qeq_bool d m) eqn:E; [|reflexivity].
      apply Qeq_bool_iff in E. rewrite E, Hm in Hd.
      exfalso. exact (Qlt_irrefl _ Hd). }
    rewrite E, digitize_sorted by now apply zero_centered_edges_sorted.
    cbn [bind]. unfold np.searchsorted. rewrite filter_all.
    + rewrite L. destruct (Z.eqb_spec (sectors + 2) (sectors + 1)); [lia|].
      reflexivity.
    + intros e He. apply Qle_bool_iff. apply Qlt_le_weak.
      apply Qle_lt_trans with 360%Q; [|exact Hd].
      now apply (zero_centered_edges_in sectors).
  - assert (E : Qeq_bool d m = false).
    { destruct (Qeq_bool d m) eqn:E; [|reflexivity].
      apply Qeq_bool_iff in E. rewrite E, Hm in Hd. discriminate Hd. }
    rewrite E, digitize_sorted by now apply zero_centered_edges_sorted.
    cbn [bind]. unfold np.searchsorted. rewrite filter_none.
    + cbn [List.length]. destruct (Z.eqb_spec (Z.of_nat 0) (sectors + 1));
        [lia | reflexivity].
    + intros e He. destruct (Qle_bool e d) eqn:Ee; [|reflexivity].
      apply Qle_bool_iff in Ee. exfalso. apply (Qlt_not_le _ _ Hd).
      apply Qle_trans with e; [|exact Ee].
      now apply (zero_centered_edges_in sectors).
Qed.

Lemma map_direction_bin_outside_circle_witness :
  0 < 12 /\
  exists edges,
    get_direction_bin_array 12 = Ok edges /\
    map_direction_bin 370 edges 12 = Ok 14 /\
    map_direction_bin (-5) edges 12 = Ok 0.
Proof.
  assert (H : 0 < 12) by lia. split; [exact H|].
  destruct (map_direction_bin_outside_circle 12 H) as [edges [E [Ha Hb]]].
  exists edges. split; [exact E|]. split.
  - apply (Ha 370%Q). reflexivity.
  - apply (Hb (-5)%Q). reflexivity.
Defined.

(** ** Errors and bounds of the sector assignment *)

Lemma monotonicity_cases (bins : list Q) :
  (np.monotonicity bins = 1 /\ np.nondecreasing bins = true) \/
  (np.monotonicity bins = -1 /\ np.nondecreasing bins = false) \/
  np.monotonicity bins = 0.
Proof.
  unfold np.monotonicity.
  destruct (np.nondecreasing bins); [now left|].
  destruct (np.nonincreasing bins); [right; now left | right; now right].
Qed.

Lemma digitize_bounds (x : Q) (bins : list Q) (right : bool) :
  np.monotonicity bins <> 0 ->
  exists k, np.digitize x bins right = Ok k /\
            0 <= k <= Z.of_nat (List.length bins).
Proof.
  intros Hm. unfold np.digitize.
  destruct (monotonicity_cases bins) as [[-> _]|[[-> _]|E]]; [| |contradiction].
  - eexists. split; [reflexivity|].
    unfold np.searchsorted. destruct right.
    + pose proof (filter_length_le (fun e => Qltb e x) bins). lia.
    + pose proof (filter_length_le (fun e => Qle_bool e x) bins). lia.
  - eexists. split; [reflexivity|].
    unfold np.searchsorted. destruct right.
    + pose proof (filter_length_le (fun e => Qltb e x) (rev bins)) as L.
      rewrite length_rev in L. lia.
    + pose proof (filter_length_le (fun e => Qle_bool e x) (rev bins)) as L.
      rewrite length_rev in L. lia.
Qed.

(** X5: [map_direction_bin] raises [ValueError] when the bins are empty
    (from [max]) or neither non-decreasing nor non-increasing (from
    [np.digitize]); on any other bins it returns a number between 0 and
    [len(bins)], which is not [sectors + 1] unless [sectors] is 0. *)
Theorem map_direction_bin_errors (wdir : Q) (bins : list Q) (sectors : Z) :
  (bins = [] \/ np.monotonicity bins = 0 ->
   map_direction_bin wdir bins sectors = Raise ValueError) /\
  (bins <> [] -> np.monotonicity bins <> 0 ->
   exists k,
     map_direction_bin wdir bins sectors = Ok k /\
     0 <= k <= Z.of_nat (List.length bins) /\
     (sectors <> 0 -> k <> sectors + 1)).
Proof.
  split.
  - intros [->|Hm]; [reflexivity|].
    unfold map_direction_bin. destruct bins as [|b bins]; [reflexivity|].
    cbn [py_max bind]. unfold np.digitize. now rewrite Hm.
  - intros Hne Hm. unfold map_direction_bin.
    destruct (py_max_defined bins Hne) as [m ->]. cbn [bind].
    destruct (digitize_bounds wdir bins (Qeq_bool wdir m) Hm) as [k [-> Hk]].
    cbn [bind].
    assert (L : 1 <= Z.of_nat (List.length bins))
      by (destruct bins; [congruence | cbn [List.length]; lia]).
    destruct (Z.eqb_spec k (sectors + 1)).
    + exists 1. split; [reflexivity|]. split; lia.
    + exists k. split; [reflexivity|]. split; [lia | intros _; assumption].
Qed.

Lemma map_direction_bin_errors_witness :
  ([0; 20; 10]%Q = [] \/ np.monotonicity [0; 20; 10]%Q = 0) /\
  [30; 20; 10; 0]%Q <> [] /\ np.monotonicity [30; 20; 10; 0]%Q <> 0 /\
  map_direction_bin 5 [0; 20; 10]%Q 2 = Raise ValueError /\
  map_direction_bin 15 [30; 20; 10; 0]%Q 3 = Ok 2.
Proof.
  assert (H1 : [0; 20; 10]%Q = [] \/ np.monotonicity [0; 20; 10]%Q = 0)
    by (right; reflexivity).
  assert (H2 : [30; 20; 10; 0]%Q <> []) by discriminate.
  assert (H3 : np.monotonicity [30; 20; 10; 0]%Q <> 0)
    by (vm_compute; discriminate).
  split; [exact H1|]. split; [exact H2|]. split; [exact H3|]. split.
  - exact (proj1 (map_direction_bin_errors 5 [0; 20; 10]%Q 2) H1).
  - destruct (proj2 (map_direction_bin_errors 15 [30; 20; 10; 0]%Q 3) H2 H3)
      as [k [E _]].
    rewrite E. vm_compute in E. symmetry. exact E.
Defined.

Lemma series_apply_forall {A B : Type} (f : A -> result B) (P : B -> Prop)
      (s : list (Z * A)) :
  Forall (fun x => exists b, f (snd x) = Ok b /\ P b) s ->
  exists l, series_apply f s = Ok l /\
            map fst l = map fst s /\
            Forall (fun y => P (snd y)) l.
Proof.
  induction 1 as [|[t v] s [b [Hb Pb]] _ [l [E [Hi HP]]]].
  - exists []. repeat split; constructor.
  - cbn [snd] in Hb. exists ((t, b) :: l). split.
    + cbn [series_apply]. now rewrite Hb, E.
    + split; [cbn [map fst]; now rewrite Hi|]. now constructor.
Qed.

Lemma get_binned_direction_series_default_aux
      (direction_series : list (Z * Q)) (sectors : Z) :
  0 < sectors ->
  Forall (fun p => (0 <= snd p)%Q /\ (snd p <= 360)%Q) direction_series ->
  exists binned,
    get_binned_direction_series direction_series sectors None = Ok binned /\
    map fst binned = map fst direction_series /\
    Forall (fun p => 1 <= snd p <= sectors) binned.
Proof.
  intros Hs Hd. unfold get_binned_direction_series.
  rewrite get_direction_bin_array_closed by assumption. cbn [bind].
  apply (series_apply_forall _ (fun k => 1 <= k <= sectors)).
  eapply Forall_impl; [|exact Hd]. intros [t d] [H0 H360]. cbn [snd] in *.
  now apply map_direction_bin_on_circle.
Qed.

(** X6: without a custom array [get_binned_direction_series] bins over
    the zero-centered edges: for a positive sector count and directions
    between 0 and 360 it returns one sector id between 1 and [sectors] per
    direction, under the index label of that direction. *)
Theorem get_binned_direction_series_default
        (direction_series : list (Z * Q)) (sectors : Z) :
  0 < sectors ->
  Forall (fun p => (0 <= snd p)%Q /\ (snd p <= 360)%Q) direction_series ->
  exists binned,
    get_binned_direction_series direction_series sectors None = Ok binned /\
    map fst binned = map fst direction_series /\
    Forall (fun p => 1 <= snd p <= sectors) binned.
Proof.
  intros Hs Hd. now apply get_binned_direction_series_default_aux.
Qed.

Lemma get_binned_direction_series_default_witness :
  0 < 4 /\
  Forall (fun p => (0 <= snd p)%Q /\ (snd p <= 360)%Q) sample_directions /\
  get_binned_direction_series sample_directions 4 None
  = Ok [(10, 1); (20, 1); (30, 2); (40, 1); (50, 1)].
Proof.
  assert (H : 0 < 4) by lia.
  assert (HF : Forall (fun p => (0 <= snd p)%Q /\ (snd p <= 360)%Q)
                      sample_directions).
  { repeat constructor; cbn [snd]; unfold Qle; simpl; lia. }
  split; [exact H|]. split; [exact HF|].
  destruct (get_binned_direction_series_default sample_directions 4 H HF)
    as [binned [E _]].
  rewrite E. vm_compute in E. symmetry. exact E.
Defined.

(** ** Labels: errors, the copy in [_get_direction_bin_dict], and the
    sector a label stands for *)

Lemma py_index_beyond {A : Type} (l : list A) (i : Z) :
  Z.of_nat (List.length l) <= i \/ i + Z.of_nat (List.length l) < 0 ->
  py_index l i = Raise IndexError.
Proof.
  intros H. unfold py_index.
  destruct (Z.ltb_spec i 0).
  - destruct (Z.leb_spec 0 (i + Z.of_nat (List.length l))); [lia|].
    reflexivity.
  - destruct (Z.leb_spec 0 i); [|lia].
    destruct (Z.ltb_spec i (Z.of_nat (List.length l))); [lia|]. reflexivity.
Qed.

Lemma labels_of_slice (float_str : Q -> string) (direction_bins : list Q)
      (zero_centred : bool) (n : nat) :
  (n < List.length direction_bins)%nat ->
  labels_loop float_str direction_bins zero_centred 0
              (firstn n direction_bins) []
  = Ok (map (fun j => (Z.of_nat j + 1,
                       label_at float_str direction_bins zero_centred j))
            (seq 0 n)).
Proof.
  intros Hn.
  assert (L : List.length (firstn n direction_bins) = n)
    by (rewrite length_firstn; lia).
  change 0 with (Z.of_nat 0).
  rewrite labels_loop_spec.
  - now rewrite L.
  - now rewrite L.
  - rewrite L. lia.
  - constructor.
Qed.

Lemma labels_loop_raises (float_str : Q -> string) (direction_bins : list Q)
      (zero_centred : bool) (items : list Q) :
  forall (i : nat) (mapper : dict string),
    items <> [] ->
    (i + List.length items = List.length direction_bins)%nat ->
    labels_loop float_str direction_bins zero_centred (Z.of_nat i) items mapper
    = Raise IndexError.
Proof.
  induction items as [|x rest IH]; intros i mapper Hne Hlen; [congruence|].
  cbn [List.length] in Hlen. cbn [labels_loop].
  replace (Z.of_nat i =? 0) with (i =? 0)%nat by (destruct i; reflexivity).
  destruct rest as [|y rest'].
  - cbn [List.length] in Hlen.
    destruct ((i =? 0)%nat && zero_centred) eqn:Ec.
    + apply andb_prop in Ec. destruct Ec as [Ei _].
      apply Nat.eqb_eq in Ei. subst i.
      rewrite py_index_beyond by lia. reflexivity.
    + rewrite py_index_beyond by lia. reflexivity.
  - cbn [List.length] in Hlen.
    assert (Hlabel : exists label,
      (if (i =? 0)%nat && zero_centred then
         a <- py_index direction_bins (-2) ;;
         b <- py_index direction_bins 1 ;;
         Ok (format_label float_str a b)
       else
         b <- py_index direction_bins (Z.of_nat i + 1) ;;
         Ok (format_label float_str x b)) = Ok label).
    { destruct ((i =? 0)%nat && zero_centred).
      - rewrite (py_index_penultimate direction_bins 0%Q) by lia.
        change 1 with (Z.of_nat 1).
        rewrite (py_index_nat direction_bins 1 0%Q) by lia.
        eexists. reflexivity.
      - replace (Z.of_nat i + 1) with (Z.of_nat (S i)) by lia.
        rewrite (py_index_nat direction_bins (S i) 0%Q) by lia.
        eexists. reflexivity. }
    destruct Hlabel as [label ->]. cbn [bind].
    replace (Z.of_nat i + 1) with (Z.of_nat (S i)) by lia.
    apply IH; [discriminate | cbn [List.length]; lia].
Qed.

Lemma py_slice_to_length {A : Type} (l : list A) (k : Z) :
  ~ (0 < Z.of_nat (List.length l) <= k) ->
  py_slice_to l k = firstn (List.length (py_slice_to l k)) l /\
  (List.length l = 0%nat \/
   (List.length (py_slice_to l k) < List.length l)%nat).
Proof.
  intros H. destruct l as [|a l].
  - unfold py_slice_to. rewrite !firstn_nil. split; [reflexivity | now left].
  - unfold py_slice_to. rewrite length_firstn.
    cbn [List.length] in *.
    destruct (Z.ltb_spec k 0); (split; [f_equal; lia | right; lia]).
Qed.

Lemma get_direction_bin_labels_short
      (float_str : Q -> string) (sectors : Z) (direction_bins : list Q)
      (zero_centred : bool) :
  0 < Z.of_nat (List.length direction_bins) <= sectors ->
  _get_direction_bin_labels float_str sectors direction_bins zero_centred
  = Raise IndexError.
Proof.
  intros H; unfold _get_direction_bin_labels.
  assert (E : py_slice_to direction_bins sectors = direction_bins).
  { unfold py_slice_to. destruct (Z.ltb_spec sectors 0); [lia|].
    apply firstn_all2. lia. }
  rewrite E. change 0 with (Z.of_nat 0).
  rewrite labels_loop_raises; [reflexivity | | reflexivity].
  destruct direction_bins; [cbn in H; lia | discriminate].
Qed.

(** X7: [_get_direction_bin_labels] raises [IndexError] exactly when the
    edges are not empty and number at most [sectors]; otherwise it
    returns one label per element of [direction_bins[:sectors]]. *)
Theorem get_direction_bin_labels_index_error
        (float_str : Q -> string) (sectors : Z) (direction_bins : list Q)
        (zero_centred : bool) :
  (0 < Z.of_nat (List.length direction_bins) <= sectors ->
   _get_direction_bin_labels float_str sectors direction_bins zero_centred
   = Raise IndexError) /\
  (~ (0 < Z.of_nat (List.length direction_bins) <= sectors) ->
   exists labels,
     _get_direction_bin_labels float_str sectors direction_bins zero_centred
     = Ok labels /\
     List.length labels = List.length (py_slice_to direction_bins sectors)).
Proof.
  split; intros H; [now apply get_direction_bin_labels_short|];
    unfold _get_direction_bin_labels.
  - destruct (py_slice_to_length direction_bins sectors H) as [E [L|L]].
    + destruct direction_bins; [|discriminate L].
      unfold py_slice_to. rewrite firstn_nil. cbn. eexists. split; reflexivity.
    + rewrite E, labels_of_slice by assumption. cbn [bind].
      eexists. split; [reflexivity|].
      unfold dict_values. rewrite !length_map, length_seq.
      rewrite <- E. reflexivity.
Qed.

Lemma get_direction_bin_labels_index_error_witness :
  0 < Z.of_nat (List.length [0; 120; 240]%Q) <= 3 /\
  ~ (0 < Z.of_nat (List.length [0; 120; 240; 360]%Q) <= 3) /\
  _get_direction_bin_labels render_float 3 [0; 120; 240]%Q false
  = Raise IndexError /\
  _get_direction_bin_labels render_float 3 [0; 120; 240; 360]%Q false
  = Ok ["0.0-120.0"; "120.0-240.0"; "240.0-360.0"]%string.
Proof.
  assert (H1 : 0 < Z.of_nat (List.length [0; 120; 240]%Q) <= 3)
    by (simpl; lia).
  assert (H2 : ~ (0 < Z.of_nat (List.length [0; 120; 240; 360]%Q) <= 3))
    by (simpl; lia).
  split; [exact H1|]. split; [exact H2|]. split.
  - exact (proj1 (get_direction_bin_labels_index_error
                    render_float 3 [0; 120; 240]%Q false) H1).
  - destruct (proj2 (get_direction_bin_labels_index_error
                       render_float 3 [0; 120; 240; 360]%Q false) H2)
      as [labels [E _]].
    rewrite E. vm_compute in E. symmetry. exact E.
Defined.

Lemma bin_dict_loop_same (float_str : Q -> string) (direction_bins : list Q)
      (items : list Q) :
  forall (i : Z) (mapper : dict string),
    bin_dict_loop float_str direction_bins i items mapper
    = labels_loop float_str direction_bins true i items mapper.
Proof.
  induction items as [|x rest IH]; intros i mapper; [reflexivity|].
  cbn [bin_dict_loop labels_loop]. rewrite andb_true_r.
  destruct (if i =? 0 then _ else _) as [label|e]; [|reflexivity].
  cbn [bind]. apply IH.
Qed.

(** X8: [_get_direction_bin_dict], the copy kept beside the
    turbulence-intensity functions, gives the labels that
    [_get_direction_bin_labels] gives for zero-centered sectors, and when
    it returns its keys are the sector ids 1, 2, ... in order. *)
Theorem get_direction_bin_dict_agrees
        (float_str : Q -> string) (direction_bins : list Q) (sectors : Z) :
  rmap dict_values (_get_direction_bin_dict float_str direction_bins sectors)
  = _get_direction_bin_labels float_str sectors direction_bins true /\
  forall d,
    _get_direction_bin_dict float_str direction_bins sectors = Ok d ->
    map fst d = map (fun j => Z.of_nat j + 1) (seq 0 (List.length d)).
Proof.
  unfold _get_direction_bin_dict. rewrite bin_dict_loop_same.
  split; [reflexivity|]. intros d Hd.
  destruct (Z_lt_le_dec 0 (Z.of_nat (List.length direction_bins)))
    as [Hpos|Hzero].
  - destruct (Z_le_gt_dec (Z.of_nat (List.length direction_bins)) sectors)
      as [Hle|Hgt].
    + exfalso.
      pose proof (get_direction_bin_labels_short
                    float_str sectors direction_bins true
                    (conj Hpos Hle)) as R.
      unfold _get_direction_bin_labels in R. rewrite Hd in R. discriminate R.
    + destruct (py_slice_to_length direction_bins sectors ltac:(lia))
        as [E [L|L]]; [lia|].
      rewrite E, labels_of_slice in Hd by assumption.
      injection Hd as <-. rewrite !length_map, length_seq, map_map.
      reflexivity.
  - destruct direction_bins; [|cbn [List.length] in Hzero; lia].
    unfold py_slice_to in Hd. rewrite firstn_nil in Hd.
    injection Hd as <-. reflexivity.
Qed.

Lemma get_direction_bin_dict_agrees_witness :
  exists d,
    _get_direction_bin_dict render_float [0; 45; 135; 225; 315; 360]%Q 4
    = Ok d /\
    map fst d = [1; 2; 3; 4] /\
    _get_direction_bin_labels render_float 4 [0; 45; 135; 225; 315; 360]%Q true
    = Ok (dict_values d).
Proof.
  destruct (_get_direction_bin_dict
              render_float [0; 45; 135; 225; 315; 360]%Q 4) as [d|e] eqn:E;
    [|vm_compute in E; discriminate E].
  exists d. split; [reflexivity|].
  destruct (get_direction_bin_dict_agrees
              render_float [0; 45; 135; 225; 315; 360]%Q 4) as [Hv Hk].
  split.
  - rewrite (Hk d E). vm_compute in E. injection E as <-. reflexivity.
  - rewrite <- Hv, E. reflexivity.
Defined.

(** X9: labels and binning fit together.  For a positive sector count and
    a direction in [0, 360), the default label of the sector that
    [map_direction_bin] assigns is built from two edges that bracket the
    direction: [lower <= d < upper] for every sector but the first, and
    [lower <= d] or [d < upper] for the first, which wraps around north. *)
Theorem default_label_brackets_direction
        (float_str : Q -> string) (sectors : Z) (d : Q) :
  0 < sectors -> (0 <= d)%Q -> (d < 360)%Q ->
  exists edges labels k lower upper,
    get_direction_bin_array sectors = Ok edges /\
    _get_direction_bin_labels float_str sectors edges true = Ok labels /\
    Z.of_nat (List.length labels) = sectors /\
    map_direction_bin d edges sectors = Ok k /\
    nth_error labels (Z.to_nat k - 1) = Some (format_label float_str lower upper) /\
    ((k = 1 /\ ((lower <= d)%Q \/ (d < upper)%Q)) \/
     (2 <= k <= sectors /\ (lower <= d)%Q /\ (d < upper)%Q)).
Proof.
  intros Hs H0 H360.
  pose proof (zero_centered_edges_length sectors ltac:(lia)) as L.
  destruct (map_direction_bin_in_sector sectors d Hs H0 H360)
    as [k [Ek [Hk Hin]]].
  exists (zero_centered_edges sectors).
  exists (map (label_at float_str (zero_centered_edges sectors) true)
              (seq 0 (Z.to_nat sectors))).
  exists k.
  assert (Hlabel : nth_error
            (map (label_at float_str (zero_centered_edges sectors) true)
                 (seq 0 (Z.to_nat sectors))) (Z.to_nat k - 1)
          = Some (label_at float_str (zero_centered_edges sectors) true
                           (Z.to_nat k - 1))).
  { rewrite nth_error_map, nth_error_seq.
    destruct (Nat.ltb_spec (Z.to_nat k - 1) (Z.to_nat sectors)); [|lia].
    reflexivity. }
  destruct Hin as [[-> H1]|[Hk2 [Hlo Hhi]]].
  - exists (nth (List.length (zero_centered_edges sectors) - 2)
                (zero_centered_edges sectors) 0%Q),
           (nth 1 (zero_centered_edges sectors) 0%Q).
    split; [now apply get_direction_bin_array_closed|].
    split; [apply get_direction_bin_labels_closed; lia|].
    split; [rewrite length_map, length_seq; lia|].
    split; [exact Ek|]. split; [exact Hlabel|].
    left. split; [reflexivity|].
    replace (List.length (zero_centered_edges sectors) - 2)%nat
      with (S (Z.to_nat sectors - 1)) by lia.
    rewrite !zero_centered_edges_nth_inner by lia.
    rewrite inner_edge_first, inner_edge_closed by assumption.
    replace (2 * Z.of_nat (Z.to_nat sectors - 1) + 1) with (2 * sectors - 1)
      by lia.
    rewrite <- full_turn_in_half_sectors by assumption.
    destruct H1 as [H1|H1]; [now right | now left].
  - exists (nth (Z.to_nat k - 1) (zero_centered_edges sectors) 0%Q),
           (nth (S (Z.to_nat k - 1)) (zero_centered_edges sectors) 0%Q).
    split; [now apply get_direction_bin_array_closed|].
    split; [apply get_direction_bin_labels_closed; lia|].
    split; [rewrite length_map, length_seq; lia|].
    split; [exact Ek|]. split.
    + rewrite Hlabel. unfold label_at.
      destruct (Nat.eqb_spec (Z.to_nat k - 1) 0); [lia | reflexivity].
    + right. split; [exact Hk2|].
      replace (Z.to_nat k - 1)%nat with (S (Z.to_nat k - 2)) at 1 by lia.
      rewrite !zero_centered_edges_nth_inner by lia.
      rewrite !inner_edge_closed by assumption.
      replace (2 * Z.of_nat (Z.to_nat k - 2) + 1) with (2 * k - 3) by lia.
      replace (2 * Z.of_nat (Z.to_nat k - 1) + 1) with (2 * k - 1) by lia.
      split; assumption.
Qed.

Lemma default_label_brackets_direction_witness :
  0 < 12 /\ (0 <= 100)%Q /\ (100 < 360)%Q /\
  exists edges labels,
    get_direction_bin_array 12 = Ok edges /\
    _get_direction_bin_labels render_float 12 edges true = Ok labels /\
    map_direction_bin 100 edges 12 = Ok 4 /\
    nth_error labels 3 = Some "75.0-105.0"%string.
Proof.
  assert (H1 : 0 < 12) by lia.
  assert (H2 : (0 <= 100)%Q) by (unfold Qle; simpl; lia).
  assert (H3 : (100 < 360)%Q) by (unfold Qlt; simpl; lia).
  split; [exact H1|]. split; [exact H2|]. split; [exact H3|].
  destruct (default_label_brackets_direction render_float 12 100 H1 H2 H3)
    as [edges [labels [k [lo [hi [E1 [E2 [_ [E3 _]]]]]]]]].
  exists edges, labels. split; [exact E1|]. split; [exact E2|].
  vm_compute in E1. injection E1 as <-.
  vm_compute in E2. injection E2 as <-.
  split; vm_compute; reflexivity.
Defined.

(** ** Speed bins *)

Lemma speed_bins_closed : speed_bins = Ok (map speed_edge (seq 0 42)).
Proof. vm_compute. reflexivity. Qed.

Lemma speed_bins_sorted : np.nondecreasing (map speed_edge (seq 0 42)) = true.
Proof. vm_compute. reflexivity. Qed.

Lemma speed_bins_max :
  py_max (map speed_edge (seq 0 42)) = Ok (speed_edge 41).
Proof. vm_compute. reflexivity. Qed.

Lemma speed_bins_nth (i : nat) :
  (i < 42)%nat -> nth i (map speed_edge (seq 0 42)) 0%Q = speed_edge i.
Proof.
  intros H. rewrite (nth_indep _ 0%Q (speed_edge 0))
    by (rewrite length_map, length_seq; lia).
  rewrite map_nth, seq_nth by lia. reflexivity.
Qed.

Lemma Qfloor_between (x : Q) (z : Z) :
  (inject_Z z <= x)%Q -> (x < inject_Z (z + 1))%Q -> Qfloor x = z.
Proof.
  intros Hlo Hhi.
  pose proof (Qfloor_le x) as F1. pose proof (Qlt_floor x) as F2.
  assert (A : z < Qfloor x + 1).
  { rewrite Zlt_Qlt. eapply Qle_lt_trans; [exact Hlo | exact F2]. }
  assert (B : Qfloor x < z + 1).
  { rewrite Zlt_Qlt. eapply Qle_lt_trans; [exact F1 | exact Hhi]. }
  lia.
Qed.

(** X10: over the speed bins of [get_TI_by_Speed], [map_speed_bin] sends
    a speed in [-0.5, 40.5) to the nearest whole number (halves go up):
    the floor of the speed plus one half. *)
Theorem map_speed_bin_nearest_integer (wdspd : Q) :
  (- (1 # 2) <= wdspd)%Q -> (wdspd < 81 # 2)%Q ->
  exists bins r,
    speed_bins = Ok bins /\
    map_speed_bin wdspd bins = Ok r /\
    (r == inject_Z (Qfloor (wdspd + (1 # 2))))%Q.
Proof.
  intros Hlo Hhi. exists (map speed_edge (seq 0 42)).
  destruct (searchsorted_right_prefix _ wdspd speed_bins_sorted) as [P1 P2].
  set (c := np.searchsorted (map speed_edge (seq 0 42)) wdspd np.Right) in *.
  assert (L : List.length (map speed_edge (seq 0 42)) = 42%nat)
    by now rewrite length_map, length_seq.
  assert (Hc42 : (c <= 42)%nat).
  { subst c. unfold np.searchsorted.
    pose proof (filter_length_le (fun e => Qle_bool e wdspd)
                                 (map speed_edge (seq 0 42))). lia. }
  assert (c1 : (1 <= c)%nat).
  { destruct c as [|c']; [|lia]. exfalso.
    specialize (P2 0%nat ltac:(lia)). rewrite speed_bins_nth in P2 by lia.
    apply (Qlt_not_le _ _ P2). exact Hlo. }
  assert (c2 : (c <= 41)%nat).
  { destruct (Nat.eq_dec c 42) as [E|E]; [|lia]. exfalso.
    specialize (P1 41%nat ltac:(lia)). rewrite speed_bins_nth in P1 by lia.
    apply (Qlt_not_le _ _ Hhi). exact P1. }
  exists (inject_Z (Z.of_nat c) - 1)%Q.
  split; [exact speed_bins_closed|]. split.
  - unfold map_speed_bin. rewrite speed_bins_max. cbn [bind].
    assert (E : Qeq_bool wdspd (speed_edge 41) = false).
    { destruct (Qeq_bool wdspd (speed_edge 41)) eqn:E; [|reflexivity].
      apply Qeq_bool_iff in E. rewrite E in Hhi. discriminate Hhi. }
    rewrite E, digitize_sorted by exact speed_bins_sorted. cbn [bind].
    fold c. rewrite (py_index_nat _ c 0%Q) by lia. cbn [bind].
    replace (Z.of_nat c - 1) with (Z.of_nat (c - 1)) by lia.
    rewrite (py_index_nat _ (c - 1) 0%Q) by lia. reflexivity.
  - specialize (P1 (c - 1)%nat ltac:(lia)). specialize (P2 c ltac:(lia)).
    rewrite speed_bins_nth in P1, P2 by lia. unfold speed_edge in P1, P2.
    rewrite (Qfloor_between (wdspd + (1 # 2)) (Z.of_nat c - 1)).
    + unfold Z.sub. rewrite inject_Z_plus. reflexivity.
    + replace (Z.of_nat c - 1) with (Z.of_nat (c - 1)) by lia.
      apply Qplus_le_l with (z := (- (1 # 2))%Q).
      rewrite <- Qplus_assoc. setoid_replace ((1 # 2) + - (1 # 2))%Q with 0%Q
        by ring.
      rewrite Qplus_0_r, Qplus_comm.
      setoid_replace (inject_Z (Z.of_nat (c - 1)))
        with (inject_Z (Z.of_nat (c - 1)) * 1)%Q by ring.
      exact P1.
    + replace (Z.of_nat c - 1 + 1) with (Z.of_nat c) by lia.
      apply Qplus_lt_l with (z := (- (1 # 2))%Q).
      rewrite <- Qplus_assoc. setoid_replace ((1 # 2) + - (1 # 2))%Q with 0%Q
        by ring.
      rewrite Qplus_0_r, (Qplus_comm (inject_Z (Z.of_nat c))).
      setoid_replace (inject_Z (Z.of_nat c))
        with (inject_Z (Z.of_nat c) * 1)%Q by ring.
      exact P2.
Qed.

Lemma map_speed_bin_nearest_integer_witness :
  (- (1 # 2) <= 7 # 2)%Q /\ (7 # 2 < 81 # 2)%Q /\
  exists bins r,
    speed_bins = Ok bins /\
    map_speed_bin (7 # 2) bins = Ok r /\ (r == 4)%Q.
Proof.
  assert (H1 : (- (1 # 2) <= 7 # 2)%Q) by (unfold Qle; simpl; lia).
  assert (H2 : (7 # 2 < 81 # 2)%Q) by (unfold Qlt; simpl; lia).
  split; [exact H1|]. split; [exact H2|].
  destruct (map_speed_bin_nearest_integer (7 # 2) H1 H2)
    as [bins [r [E1 [E2 E3]]]].
  exists bins, r. split; [exact E1|]. split; [exact E2|].
  rewrite E3. reflexivity.
Defined.

(** X11: [map_speed_bin] on sorted bins: a speed above the last edge
    raises [IndexError] (the look-up [bins[len(bins)]]); a speed below
    the first edge does not raise and gives -1. *)
Theorem map_speed_bin_out_of_range (wdspd : Q) (bins : list Q) :
  np.nondecreasing bins = true -> bins <> [] ->
  (forall m, py_max bins = Ok m -> (m < wdspd)%Q ->
             map_speed_bin wdspd bins = Raise IndexError) /\
  ((wdspd < nth 0 bins 0)%Q ->
   exists r, map_speed_bin wdspd bins = Ok r /\ (r == - (1))%Q).
Proof.
  intros Hs Hne. split.
  - intros m Hm Hgt. unfold map_speed_bin. rewrite Hm. cbn [bind].
    assert (E : Qeq_bool wdspd m = false).
    { destruct (Qeq_bool wdspd m) eqn:E; [|reflexivity].
      apply Qeq_bool_iff in E. rewrite E in Hgt.
      exfalso. exact (Qlt_irrefl _ Hgt). }
    rewrite E, digitize_sorted by assumption. cbn [bind].
    unfold np.searchsorted. rewrite filter_all.
    + rewrite py_index_beyond by lia. reflexivity.
    + intros e He. apply Qle_bool_iff.
      apply Qle_trans with m; [now apply (py_max_upper bins) | lra].
  - intros Hlt. unfold map_speed_bin.
    destruct (py_max_defined bins Hne) as [m Hm]. rewrite Hm. cbn [bind].
    destruct bins as [|b bins]; [congruence|]. cbn [nth] in Hlt.
    assert (E : Qeq_bool wdspd m = false).
    { destruct (Qeq_bool wdspd m) eqn:E; [|reflexivity].
      apply Qeq_bool_iff in E. exfalso.
      pose proof (py_max_upper _ m Hm b (or_introl eq_refl)). lra. }
    rewrite E, digitize_sorted by assumption. cbn [bind].
    unfold np.searchsorted. rewrite filter_none.
    + cbn [List.length].
      rewrite (py_index_nat (b :: bins) 0 0%Q) by (cbn [List.length]; lia).
      cbn [bind]. change (Z.of_nat 0 - 1) with (-1).
      assert (Hlast : exists x, py_index (b :: bins) (-1) = Ok x).
      { unfold py_index. cbn [Z.ltb Z.compare].
        cbn [List.length].
        destruct (Z.leb_spec 0 (-1 + Z.of_nat (S (List.length bins))));
          [|lia].
        destruct (Z.ltb_spec (-1 + Z.of_nat (S (List.length bins)))
                             (Z.of_nat (S (List.length bins)))); [|lia].
        cbn [andb].
        destruct (nth_error (b :: bins)
                    (Z.to_nat (-1 + Z.of_nat (S (List.length bins)))))
          eqn:En; [eexists; reflexivity|].
        apply nth_error_None in En. cbn [List.length] in En. lia. }
      destruct Hlast as [x ->]. cbn [bind].
      eexists. split; reflexivity.
    + intros e He. destruct (Qle_bool e wdspd) eqn:Ee; [|reflexivity].
      apply Qle_bool_iff in Ee. exfalso.
      destruct He as [<-|He]; [lra|].
      pose proof (nondecreasing_head_le b bins Hs e He). lra.
Qed.

Lemma map_speed_bin_out_of_range_witness :
  exists bins,
    speed_bins = Ok bins /\
    np.nondecreasing bins = true /\ bins <> [] /\
    map_speed_bin 41 bins = Raise IndexError /\
    exists r, map_speed_bin (- (2)) bins = Ok r /\ (r == - (1))%Q.
Proof.
  exists (map speed_edge (seq 0 42)).
  assert (H1 : np.nondecreasing (map speed_edge (seq 0 42)) = true)
    by (vm_compute; reflexivity).
  assert (H2 : map speed_edge (seq 0 42) <> []) by discriminate.
  split; [vm_compute; reflexivity|]. split; [exact H1|]. split; [exact H2|].
  destruct (map_speed_bin_out_of_range 41 _ H1 H2) as [Ha _].
  destruct (map_speed_bin_out_of_range (- (2)) _ H1 H2) as [_ Hb].
  split.
  - apply (Ha (speed_edge 41)); [vm_compute; reflexivity|].
    vm_compute. reflexivity.
  - apply Hb. vm_compute. reflexivity.
Defined.

(** ** The sectors of [get_TI_by_sector] *)












(** ** Months, bounds and the plain mean *)

Lemma month_of_range (t : Z) : 1 <= month_of t <= 12.
Proof.
  unfold month_of, civil_from_days. cbv zeta.
  set (z := t / ns_per_day + 719468).
  set (doe := z - z / 146097 * 146097).
  assert (Hdoe : 0 <= doe <= 146096).
  { subst doe. pose proof (Z.mod_pos_bound z 146097 ltac:(lia)) as H.
    rewrite Z.mod_eq in H by lia. lia. }
  set (yoe := (doe - doe / 1460 + doe / 36524 - doe / 146096) / 365).
  assert (Hdoy : 0 <= doe - (365 * yoe + yoe / 4 - yoe / 100) <= 365).
  { subst yoe. clearbody doe. clear z.
    Z.to_euclidean_division_equations. lia. }
  set (doy := doe - (365 * yoe + yoe / 4 - yoe / 100)) in *.
  clearbody doy.
  assert (Hmp : 0 <= (5 * doy + 2) / 153 <= 11).
  { Z.to_euclidean_division_equations. lia. }
  set (mp := (5 * doy + 2) / 153) in *. clearbody mp.
  destruct (Z.ltb_spec mp 10); lia.
Qed.

Lemma month_in_calendar (t : Z) : In (month_of t) calendar_months.
Proof.
  pose proof (month_of_range t) as H. unfold calendar_months.
  assert (C : month_of t = 1 \/ month_of t = 2 \/ month_of t = 3 \/
              month_of t = 4 \/ month_of t = 5 \/ month_of t = 6 \/
              month_of t = 7 \/ month_of t = 8 \/ month_of t = 9 \/
              month_of t = 10 \/ month_of t = 11 \/ month_of t = 12) by lia.
  cbn [In]. intuition auto.
Qed.

Lemma months_present_spec (df : DataFrame) (m : Z) :
  In m (months_present df) <-> In m calendar_months /\ month_group df m <> [].
Proof.
  unfold months_present. rewrite filter_In.
  destruct (month_group df m); split; intros [H1 H2]; split;
    auto; try discriminate; congruence.
Qed.

Lemma row_in_month_group (df : DataFrame) (r : Z * list (option Q)) :
  In r (rows df) ->
  In r (month_group df (month_of (fst r))) /\
  In (month_of (fst r)) (months_present df).
Proof.
  intros Hr.
  assert (Hg : In r (month_group df (month_of (fst r)))).
  { unfold month_group. apply filter_In. split; [exact Hr|].
    apply Z.eqb_refl. }
  split; [exact Hg|]. apply months_present_spec.
  split; [apply month_in_calendar|]. intros E. now rewrite E in Hg.
Qed.

Lemma present_in (vals : list (option Q)) (x : Q) :
  In x (present vals) <-> In (Some x) vals.
Proof.
  unfold present. rewrite in_flat_map. split.
  - intros [[y|] [Hv Hx]]; [|destruct Hx].
    destruct Hx as [<-|[]]. exact Hv.
  - intros H. exists (Some x). split; [exact H | now left].
Qed.

Lemma column_values_in {K : Type} (j : nat) (rs : list (K * list (option Q)))
      (v : option Q) :
  In v (column_values j rs) <-> exists r, In r rs /\ nth j (snd r) None = v.
Proof.
  unfold column_values. rewrite in_map_iff. split.
  - intros [r [E H]]. now exists r.
  - intros [r [H E]]. now exists r.
Qed.

Lemma mean_none (vals : list (option Q)) :
  mean vals = None <-> present vals = [].
Proof.
  rewrite mean_present. destruct (present vals); split;
    intros H; try reflexivity; discriminate.
Qed.

Lemma Qsum_between (xs : list Q) (lo hi : Q) :
  (forall x, In x xs -> (lo <= x)%Q /\ (x <= hi)%Q) ->
  (inject_Z (Z.of_nat (List.length xs)) * lo <= Qsum xs)%Q /\
  (Qsum xs <= inject_Z (Z.of_nat (List.length xs)) * hi)%Q.
Proof.
  induction xs as [|x xs IH]; intros H.
  - change (Qsum []) with 0%Q. cbn [List.length].
    change (inject_Z (Z.of_nat 0)) with 0%Q. split; lra.
  - destruct IH as [I1 I2]; [intros y Hy; apply H; now right|].
    destruct (H x (or_introl eq_refl)) as [H1 H2].
    rewrite Qsum_cons. cbn [List.length].
    rewrite Nat2Z.inj_succ. unfold Z.succ. rewrite inject_Z_plus.
    change (inject_Z 1) with 1%Q. split; lra.
Qed.

Lemma mean_between (vals : list (option Q)) (lo hi v : Q) :
  mean vals = Some v ->
  (forall x, In (Some x) vals -> (lo <= x)%Q /\ (x <= hi)%Q) ->
  (lo <= v)%Q /\ (v <= hi)%Q.
Proof.
  intros Hm Hb. rewrite mean_present in Hm.
  destruct (present vals) as [|y ys] eqn:E; [discriminate|].
  injection Hm as <-.
  destruct (Qsum_between (y :: ys) lo hi) as [S1 S2].
  { intros x Hx. apply Hb. apply present_in. now rewrite E. }
  assert (Hn : (0 < inject_Z (Z.of_nat (List.length (y :: ys))))%Q).
  { rewrite <- (Zlt_Qlt 0). cbn [List.length]. lia. }
  split.
  - apply Qle_shift_div_l; [exact Hn|]. now rewrite Qmult_comm.
  - apply Qle_shift_div_r; [exact Hn|]. now rewrite Qmult_comm.
Qed.

Lemma momm_series_nth (df : DataFrame) (j : nat) :
  (j < List.length (columns df))%nat ->
  nth_error (momm_series df) j
  = Some (nth j (columns df) EmptyString,
          mean (map (fun m => mean (column_values j (month_group df m)))
                    (months_present df))).
Proof.
  intros Hj. unfold momm_series, frame_mean.
  rewrite nth_error_map, nth_error_seq.
  destruct (Nat.ltb_spec j (List.length (columns df))); [|lia].
  cbn [option_map Nat.add]. now rewrite groupby_month_mean_column.
Qed.

(** X13: for every column, the mean of monthly means is missing exactly
    when the column holds no value at all, and otherwise it lies between
    any two bounds that enclose the values of the column. *)
Theorem momm_series_within_bounds (df : DataFrame) (j : nat) (lo hi : Q) :
  (j < List.length (columns df))%nat ->
  (forall x, In (Some x) (column_values j (rows df)) ->
             (lo <= x)%Q /\ (x <= hi)%Q) ->
  exists v,
    nth_error (momm_series df) j = Some (nth j (columns df) EmptyString, v) /\
    (v = None <-> forall x, ~ In (Some x) (column_values j (rows df))) /\
    (forall x, v = Some x -> (lo <= x)%Q /\ (x <= hi)%Q).
Proof.
  intros Hj Hb. eexists. split; [now apply momm_series_nth|].
  assert (Hsub : forall m x,
             In (Some x) (column_values j (month_group df m)) ->
             In (Some x) (column_values j (rows df))).
  { intros m x H. apply column_values_in in H. destruct H as [r [Hr E]].
    apply column_values_in. exists r. split; [|exact E].
    unfold month_group in Hr. now apply filter_In in Hr. }
  split; [split|].
  - intros Hnone x Hx. apply mean_none in Hnone.
    apply column_values_in in Hx. destruct Hx as [r [Hr E]].
    destruct (row_in_month_group df r Hr) as [Hg Hm].
    assert (Hmean : mean (column_values j (month_group df (month_of (fst r))))
                    <> None).
    { intros Hn. apply mean_none in Hn.
      assert (Hin : In x (present (column_values
                                     j (month_group df (month_of (fst r)))))).
      { apply present_in. apply column_values_in. now exists r. }
      now rewrite Hn in Hin. }
    destruct (mean (column_values j (month_group df (month_of (fst r)))))
      as [y|] eqn:Ey; [|congruence].
    assert (Hin : In y (present
                          (map (fun m => mean (column_values
                                                 j (month_group df m)))
                               (months_present df)))).
    { apply present_in. apply in_map_iff.
      exists (month_of (fst r)). split; [exact Ey | exact Hm]. }
    now rewrite Hnone in Hin.
  - intros Hno. apply mean_none.
    destruct (present _) as [|y ys] eqn:E; [reflexivity|]. exfalso.
    assert (Hin : In y (y :: ys)) by now left.
    rewrite <- E in Hin. apply present_in in Hin.
    apply in_map_iff in Hin. destruct Hin as [m [Hm _]].
    rewrite mean_present in Hm.
    destruct (present (column_values j (month_group df m))) as [|z zs] eqn:Ez;
      [discriminate|].
    apply (Hno z). apply (Hsub m). apply present_in. rewrite Ez. now left.
  - intros x Hx. apply (mean_between _ lo hi x Hx).
    intros y Hy. apply in_map_iff in Hy. destruct Hy as [m [Hm _]].
    apply (mean_between _ lo hi y Hm).
    intros z Hz. apply Hb. now apply (Hsub m).
Qed.

Lemma momm_series_within_bounds_witness :
  (0 < List.length (columns winter_heavy))%nat /\
  (forall x, In (Some x) (column_values 0 (rows winter_heavy)) ->
             (4 <= x)%Q /\ (x <= 10)%Q) /\
  exists x,
    nth_error (momm_series winter_heavy) 0 = Some ("MOMM"%string, Some x) /\
    (4 <= x)%Q /\ (x <= 10)%Q /\ (x == 15 # 2)%Q.
Proof.
  assert (H1 : (0 < List.length (columns winter_heavy))%nat) by (cbn; lia).
  assert (H2 : forall x, In (Some x) (column_values 0 (rows winter_heavy)) ->
                         (4 <= x)%Q /\ (x <= 10)%Q).
  { intros x Hx. cbn in Hx.
    destruct Hx as [E|[E|[E|[]]]]; injection E as <-;
      split; unfold Qle; simpl; lia. }
  split; [exact H1|]. split; [exact H2|].
  destruct (momm_series_within_bounds winter_heavy 0 4 10 H1 H2)
    as [v [E [_ Hb]]].
  destruct v as [x|]; [|vm_compute in E; discriminate E].
  exists x. split; [exact E|].
  destruct (Hb x eq_refl) as [B1 B2].
  split; [exact B1|]. split; [exact B2|].
  vm_compute in E. injection E as <-. reflexivity.
Defined.

Lemma flat_map_ext_on {A B : Type} (f g : A -> list B) (l : list A) :
  (forall a, In a l -> f a = g a) -> flat_map f l = flat_map g l.
Proof.
  induction l as [|a l IH]; intros H; [reflexivity|].
  cbn [flat_map]. rewrite (H a (or_introl eq_refl)), IH; [reflexivity|].
  intros b Hb. apply H. now right.
Qed.

Lemma flat_map_insert {A : Type} (X : Z -> list A) (a : list A) (mr : Z)
      (ms : list Z) :
  NoDup ms -> In mr ms ->
  Permutation (flat_map (fun m => if mr =? m then a ++ X m else X m) ms)
              (a ++ flat_map X ms).
Proof.
  induction 1 as [|m ms Hm Hnd IH]; intros Hin; [destruct Hin|].
  cbn [flat_map]. destruct (Z.eqb_spec mr m) as [->|Hne].
  - rewrite (flat_map_ext_on (fun m0 => if m =? m0 then a ++ X m0 else X m0) X).
    + now rewrite app_assoc.
    + intros m' Hm'. destruct (Z.eqb_spec m m'); [congruence | reflexivity].
  - destruct Hin as [E|Hin]; [congruence|].
    rewrite (IH Hin). apply Permutation_app_swap_app.
Qed.

Lemma month_groups_partition (j : nat) (rs : list (Z * list (option Q)))
      (ms : list Z) :
  NoDup ms ->
  (forall r, In r rs -> In (month_of (fst r)) ms) ->
  Permutation
    (flat_map (fun m => present (column_values
                                   j (filter (fun r => month_of (fst r) =? m)
                                             rs))) ms)
    (present (column_values j rs)).
Proof.
  intros Hnd. induction rs as [|r rs IH]; intros Hin.
  - cbn [filter column_values map]. change (present []) with (@nil Q).
    clear Hnd Hin. induction ms as [|m ms IHm]; [constructor|].
    cbn [flat_map app]. exact IHm.
  - rewrite (flat_map_ext
               (fun m => present (column_values
                                    j (filter (fun r0 => month_of (fst r0) =? m)
                                              (r :: rs))))
               (fun m => if month_of (fst r) =? m
                         then present [nth j (snd r) None]
                              ++ present (column_values
                                            j (filter (fun r0 =>
                                                         month_of (fst r0) =? m)
                                                      rs))
                         else present (column_values
                                         j (filter (fun r0 =>
                                                      month_of (fst r0) =? m)
                                                   rs)))).
    + rewrite flat_map_insert;
        [|exact Hnd | apply Hin; now left].
      change (column_values j (r :: rs))
        with ([nth j (snd r) None] ++ column_values j rs).
      rewrite present_app. apply Permutation_app_head.
      apply IH. intros r' Hr'. apply Hin. now right.
    + intros m. cbn [filter].
      destruct (month_of (fst r) =? m); [|reflexivity].
      change (column_values j (r :: filter (fun r0 => month_of (fst r0) =? m) rs))
        with ([nth j (snd r) None]
                ++ column_values j (filter (fun r0 => month_of (fst r0) =? m)
                                           rs)).
      now rewrite present_app.
Qed.

Lemma Qsum_perm (xs ys : list Q) :
  Permutation xs ys -> (Qsum xs == Qsum ys)%Q.
Proof.
  induction 1 as [|x xs ys _ IH|x y xs|xs ys zs _ IH1 _ IH2].
  - reflexivity.
  - rewrite !Qsum_cons, IH. reflexivity.
  - rewrite !Qsum_cons. ring.
  - now rewrite IH1.
Qed.

Lemma calendar_months_nodup : NoDup calendar_months.
Proof.
  unfold calendar_months.
  repeat (constructor; [cbn [In]; intuition discriminate|]). constructor.
Qed.

Lemma flat_map_present_months (df : DataFrame) (j : nat) :
  flat_map (fun m => present (column_values j (month_group df m)))
           (months_present df)
  = flat_map (fun m => present (column_values j (month_group df m)))
             calendar_months.
Proof.
  unfold months_present. induction calendar_months as [|m ms IH];
    [reflexivity|].
  cbn [filter flat_map]. destruct (month_group df m) eqn:E.
  - rewrite IH. reflexivity.
  - cbn [flat_map]. now rewrite IH, E.
Qed.

Lemma column_partitioned_by_month (df : DataFrame) (j : nat) :
  Permutation
    (flat_map (fun m => present (column_values j (month_group df m)))
              (months_present df))
    (present (column_values j (rows df))).
Proof.
  rewrite flat_map_present_months. unfold month_group.
  apply month_groups_partition; [exact calendar_months_nodup|].
  intros r _. apply month_in_calendar.
Qed.

Lemma Qsum_flat_map {A : Type} (P : A -> list Q) (l : list A) :
  (Qsum (flat_map P l) == Qsum (map (fun a => Qsum (P a)) l))%Q.
Proof.
  induction l as [|a l IH]; [reflexivity|].
  cbn [flat_map map]. rewrite Qsum_app, Qsum_cons, IH. reflexivity.
Qed.

Lemma length_flat_map_const {A B : Type} (P : A -> list B) (l : list A)
      (c : nat) :
  (forall a, In a l -> List.length (P a) = c) ->
  List.length (flat_map P l) = (c * List.length l)%nat.
Proof.
  induction l as [|a l IH]; intros H; [cbn; lia|].
  cbn [flat_map List.length]. rewrite length_app, IH, (H a).
  - lia.
  - now left.
  - intros b Hb. apply H. now right.
Qed.

Lemma monthly_means_of_equal_months (df : DataFrame) (j : nat) (c : nat)
      (ms : list Z) :
  (1 <= c)%nat ->
  (forall m, In m ms ->
             List.length (present (column_values j (month_group df m))) = c) ->
  present (map (fun m => mean (column_values j (month_group df m))) ms)
  = map (fun m => (Qsum (present (column_values j (month_group df m)))
                   / inject_Z (Z.of_nat c))%Q) ms.
Proof.
  intros Hc. induction ms as [|m ms IH]; intros H; [reflexivity|].
  cbn [map].
  change (mean (column_values j (month_group df m))
            :: map (fun m0 => mean (column_values j (month_group df m0))) ms)
    with ([mean (column_values j (month_group df m))]
            ++ map (fun m0 => mean (column_values j (month_group df m0))) ms).
  rewrite present_app, IH by (intros m' Hm'; apply H; now right).
  rewrite mean_present. pose proof (H m (or_introl eq_refl)) as Hm.
  destruct (present (column_values j (month_group df m))) as [|x xs] eqn:E.
  - cbn [List.length] in Hm. lia.
  - rewrite Hm. reflexivity.
Qed.

Lemma Qsum_map_div {A : Type} (f : A -> Q) (d : Q) (l : list A) :
  (Qsum (map (fun a => f a / d) l) == Qsum (map f l) / d)%Q.
Proof.
  induction l as [|a l IH].
  - cbn [map]. change (Qsum []) with 0%Q. unfold Qdiv. ring.
  - cbn [map]. rewrite !Qsum_cons, IH. unfold Qdiv. ring.
Qed.

(** X14: when every calendar month that occurs holds the same number of
    values of a column, the mean of monthly means of that column is the
    plain mean of the column. *)
Theorem momm_is_mean_for_equal_months (df : DataFrame) (j c : nat) :
  (j < List.length (columns df))%nat ->
  (1 <= c)%nat ->
  (forall m, In m (months_present df) ->
             List.length (present (column_values j (month_group df m))) = c) ->
  exists v,
    nth_error (momm_series df) j = Some (nth j (columns df) EmptyString, v) /\
    same_value v (mean (column_values j (rows df))).
Proof.
  intros Hj Hc Heq. eexists. split; [now apply momm_series_nth|].
  pose proof (column_partitioned_by_month df j) as Hperm.
  pose proof (Permutation_length Hperm) as Hlen.
  rewrite (length_flat_map_const _ _ c Heq) in Hlen.
  pose proof (Qsum_perm _ _ Hperm) as Hsum. rewrite Qsum_flat_map in Hsum.
  rewrite (mean_present (map _ (months_present df))).
  rewrite (monthly_means_of_equal_months df j c _ Hc Heq).
  rewrite (mean_present (column_values j (rows df))).
  destruct (months_present df) as [|m ms] eqn:EM.
  - cbn [map]. cbn [List.length] in Hlen.
    destruct (present (column_values j (rows df))); [constructor|].
    cbn [List.length] in Hlen. lia.
  - destruct (present (column_values j (rows df))) as [|x xs] eqn:EP.
    { cbn [List.length] in Hlen. nia. }
    remember (m :: ms) as M eqn:EMM.
    assert (HM : (1 <= List.length M)%nat)
      by (subst M; cbn [List.length]; lia).
    destruct (map (fun m0 => (Qsum (present (column_values
                                              j (month_group df m0)))
                              / inject_Z (Z.of_nat c))%Q) M)
      as [|y ys] eqn:EY.
    { apply (f_equal (@List.length Q)) in EY.
      rewrite length_map in EY. cbn [List.length] in EY. lia. }
    rewrite <- EY. constructor.
    rewrite Qsum_map_div, length_map, Hsum, <- Hlen.
    rewrite Nat2Z.inj_mul, inject_Z_mult.
    field. split; apply inject_Z_nonzero; lia.
Qed.

Lemma momm_is_mean_for_equal_months_witness :
  (0 < List.length (columns balanced_mast))%nat /\ (1 <= 2)%nat /\
  (forall m, In m (months_present balanced_mast) ->
             List.length (present (column_values
                                     0 (month_group balanced_mast m))) = 2%nat) /\
  exists x,
    nth_error (momm_series balanced_mast) 0 = Some ("Spd80mN"%string, Some x) /\
    (x == 8)%Q /\
    same_value (Some x) (mean (column_values 0 (rows balanced_mast))).
Proof.
  assert (H1 : (0 < List.length (columns balanced_mast))%nat) by (cbn; lia).
  assert (H2 : (1 <= 2)%nat) by lia.
  assert (H3 : forall m, In m (months_present balanced_mast) ->
                         List.length (present (column_values
                                                 0 (month_group balanced_mast m)))
                         = 2%nat).
  { intros m Hm. vm_compute in Hm.
    destruct Hm as [E|[E|[]]]; subst m; vm_compute; reflexivity. }
  split; [exact H1|]. split; [exact H2|]. split; [exact H3|].
  destruct (momm_is_mean_for_equal_months balanced_mast 0 2 H1 H2 H3)
    as [v [E Hv]].
  destruct v as [x|]; [|vm_compute in E; discriminate E].
  exists x. split; [exact E|]. split; [|exact Hv].
  vm_compute in E. injection E as <-. reflexivity.
Defined.

(** ** Gaps and regular data *)

(** X15: when the resolution is inferred, [get_time_continuity_gaps]
    returns no row exactly when every two adjacent timestamps that carry
    a value are one resolution apart; and it returns at most one row per
    pair of adjacent timestamps. *)
Theorem get_time_continuity_gaps_none_iff_regular
        (resolution_of : list Z -> result Z) (data : DataFrame) (res : Z) :
  resolution_of (index (dropna_all data)) = Ok res ->
  (get_time_continuity_gaps resolution_of data = Ok [] <->
   forall i, (S i < List.length (index (dropna_all data)))%nat ->
             nth (S i) (index (dropna_all data)) 0
             - nth i (index (dropna_all data)) 0 = res) /\
  exists gaps,
    get_time_continuity_gaps resolution_of data = Ok gaps /\
    (List.length gaps <= List.length (index (dropna_all data)) - 1)%nat.
Proof.
  intros Hres. rewrite (get_time_continuity_gaps_rows _ _ _ Hres).
  set (idx := index (dropna_all data)).
  set (p := fun i => negb (nth (S i) idx 0 - nth i idx 0 =? res)).
  split; [split|].
  - intros H i Hi. injection H as H.
    apply map_eq_nil in H.
    assert (Hin : In i (seq 0 (List.length idx - 1))) by (apply in_seq; lia).
    destruct (p i) eqn:Ep.
    + assert (Hf : In i (filter p (seq 0 (List.length idx - 1))))
        by (apply filter_In; now split).
      now rewrite H in Hf.
    + unfold p in Ep. apply negb_false_iff in Ep. now apply Z.eqb_eq.
  - intros H. rewrite filter_none; [reflexivity|].
    intros i Hi. apply in_seq in Hi. unfold p.
    apply negb_false_iff. apply Z.eqb_eq. apply H. lia.
  - eexists. split; [reflexivity|].
    rewrite length_map.
    pose proof (filter_length_le p (seq 0 (List.length idx - 1))) as L.
    now rewrite length_seq in L.
Qed.

Lemma get_time_continuity_gaps_none_iff_regular_witness :
  most_frequent_step (index (dropna_all regular_mast)) = Ok ns_per_hour /\
  get_time_continuity_gaps most_frequent_step regular_mast = Ok [] /\
  most_frequent_step (index (dropna_all gappy_mast)) = Ok ns_per_hour /\
  get_time_continuity_gaps most_frequent_step gappy_mast <> Ok [].
Proof.
  assert (H1 : most_frequent_step (index (dropna_all regular_mast))
               = Ok ns_per_hour) by (vm_compute; reflexivity).
  assert (H2 : most_frequent_step (index (dropna_all gappy_mast))
               = Ok ns_per_hour) by (vm_compute; reflexivity).
  split; [exact H1|]. split; [|split; [exact H2|]].
  - apply (proj1 (get_time_continuity_gaps_none_iff_regular
                    most_frequent_step regular_mast ns_per_hour H1)).
    intros i Hi.
    assert (L : List.length (index (dropna_all regular_mast)) = 4%nat)
      by (vm_compute; reflexivity).
    rewrite L in Hi.
    destruct i as [|[|[|i]]]; [vm_compute; reflexivity ..|lia].
  - intros E.
    pose proof (proj1 (proj1 (get_time_continuity_gaps_none_iff_regular
                                most_frequent_step gappy_mast ns_per_hour H2))
                      E 2%nat) as R.
    assert (L : (3 < List.length (index (dropna_all gappy_mast)))%nat)
      by (vm_compute; lia).
    specialize (R L). vm_compute in R. discriminate R.
Defined.

(** ** Column names of the coverage table *)

Lemma coverage_name_clean : contains "_Coverage" "Coverage" = false.
Proof. vm_compute. reflexivity. Qed.

Lemma coverage_columns_clean (cols : list string) (c : string) :
  In c (coverage_columns cols) -> contains "_Coverage" c = false.
Proof.
  unfold coverage_columns. intros H. apply in_map_iff in H.
  destruct H as [col [E _]].
  destruct (contains "_Coverage" col) eqn:Ec; subst c;
    [exact coverage_name_clean | exact Ec].
Qed.

(** X16: after [get_concurrent_coverage] no column name contains
    ["_Coverage"]: each such name has become ["Coverage"] and every other
    name is kept, so the renaming changes nothing when applied again, and
    the frame has as many columns called ["Coverage"] as it had columns
    whose name contained ["_Coverage"] or was ["Coverage"] already. *)
Theorem get_concurrent_coverage_columns (coverage_df : DataFrame) :
  List.length (columns (get_concurrent_coverage coverage_df))
  = List.length (columns coverage_df) /\
  (forall c, In c (columns (get_concurrent_coverage coverage_df)) ->
             contains "_Coverage" c = false) /\
  get_concurrent_coverage (get_concurrent_coverage coverage_df)
  = get_concurrent_coverage coverage_df /\
  count_occ string_dec (columns (get_concurrent_coverage coverage_df))
            "Coverage"%string
  = List.length
      (filter (fun col => contains "_Coverage" col
                          || String.eqb col "Coverage")
              (columns coverage_df)).
Proof.
  unfold get_concurrent_coverage. cbn [columns rows].
  split; [unfold coverage_columns; now rewrite length_map|].
  split; [apply coverage_columns_clean|]. split.
  - f_equal. unfold coverage_columns at 1.
    rewrite <- (map_id (coverage_columns (columns coverage_df))) at 2.
    apply map_ext_in. intros c Hc.
    now rewrite (coverage_columns_clean _ c Hc).
  - unfold coverage_columns.
    induction (columns coverage_df) as [|col cols IH]; [reflexivity|].
    cbn [map filter count_occ].
    destruct (contains "_Coverage" col) eqn:Ec.
    + cbn [orb List.length].
      destruct (string_dec "Coverage" "Coverage"); [|congruence].
      now rewrite IH.
    + cbn [orb]. destruct (String.eqb_spec col "Coverage") as [E|E].
      * destruct (string_dec col "Coverage"); [|congruence].
        cbn [List.length]. now rewrite IH.
      * destruct (string_dec col "Coverage"); [congruence|]. exact IH.
Qed.

(** ** Date arguments of [calc_lt_ref_speed] *)

Lemma substring_prefix_idem (n : nat) (s : string) :
  substring 0 n (substring 0 n s) = substring 0 n s.
Proof.
  revert s. induction n as [|n IH]; intros s.
  - now destruct s.
  - destruct s as [|c s]; [reflexivity|].
    cbn [substring]. now rewrite IH.
Qed.

Lemma truthy_prefix (s : string) :
  truthy (Str (substring 0 10 s)) = truthy (Str s).
Proof. now destruct s. Qed.

(** X17: of a date string only the first ten characters count: anything
    after them, a time of day for instance, is dropped, so a string bound
    always stands for midnight of its date. *)
Theorem calc_lt_ref_speed_reads_ten_characters
        (data : DataFrame) (s1 s2 : string) :
  calc_lt_ref_speed data (Str s1) (Str s2)
  = calc_lt_ref_speed data (Str (substring 0 10 s1)) (Str (substring 0 10 s2)).
Proof.
  unfold calc_lt_ref_speed. cbn [is_date andb slice10].
  rewrite !truthy_prefix, !substring_prefix_idem. reflexivity.
Qed.

(** X18: a date-like value mixed with a string never filters.  With an
    empty string the whole frame is averaged; with a non-empty string the
    call raises: [TypeError] when the date-like value comes first, and
    [ValueError] or [TypeError] when the string comes first.  Two
    non-empty strings of which the first does not parse raise what the
    parser raises. *)
Theorem calc_lt_ref_speed_mixed_arguments
        (data : DataFrame) (t : Z) (s : string) :
  (s = EmptyString ->
   calc_lt_ref_speed data (DateLike t) (Str s)
   = calc_lt_ref_speed data (Str "") (Str "") /\
   calc_lt_ref_speed data (Str s) (DateLike t)
   = calc_lt_ref_speed data (Str "") (Str "")) /\
  (s <> EmptyString ->
   calc_lt_ref_speed data (DateLike t) (Str s) = Raise TypeError /\
   (calc_lt_ref_speed data (Str s) (DateLike t) = Raise TypeError \/
    calc_lt_ref_speed data (Str s) (DateLike t) = Raise ValueError) /\
   forall s2 e,
     s2 <> EmptyString ->
     strptime_ymd (substring 0 10 s) = Raise e ->
     calc_lt_ref_speed data (Str s) (Str s2) = Raise e).
Proof.
  split.
  - intros ->. split; reflexivity.
  - intros Hs.
    assert (Ht : truthy (Str s) = true)
      by (destruct s; [congruence | reflexivity]).
    split; [|split].
    + unfold calc_lt_ref_speed. cbn [is_date andb]. rewrite Ht.
      reflexivity.
    + unfold calc_lt_ref_speed. cbn [is_date andb]. rewrite Ht.
      cbn [truthy andb slice10 bind].
      destruct (strptime_ymd (substring 0 10 s)) as [a|e] eqn:E.
      * left. reflexivity.
      * right. cbn [bind]. f_equal.
        unfold strptime_ymd in E.
        repeat match type of E with
               | match ?x with _ => _ end = _ => destruct x
               | (if ?b then _ else _) = _ => destruct b
               end; congruence.
    + intros s2 e Hs2 He.
      assert (Ht2 : truthy (Str s2) = true)
        by (destruct s2; [congruence | reflexivity]).
      unfold calc_lt_ref_speed. cbn [is_date andb]. rewrite Ht, Ht2.
      cbn [andb slice10 bind]. now rewrite He.
Qed.

Lemma calc_lt_ref_speed_mixed_arguments_witness :
  "2018-01-01"%string <> EmptyString /\
  calc_lt_ref_speed winter_heavy (DateLike (at_midnight 2018 1 1))
                    (Str "2018-01-01") = Raise TypeError /\
  calc_lt_ref_speed winter_heavy (Str "01/01/2018") (Str "2018-12-31")
  = Raise ValueError.
Proof.
  assert (H : "2018-01-01"%string <> EmptyString) by discriminate.
  assert (H' : "01/01/2018"%string <> EmptyString) by discriminate.
  split; [exact H|]. split.
  - exact (proj1 (proj2 (calc_lt_ref_speed_mixed_arguments
                           winter_heavy (at_midnight 2018 1 1) "2018-01-01")
                        H)).
  - apply (proj2 (proj2 (proj2 (calc_lt_ref_speed_mixed_arguments
                                  winter_heavy 0 "01/01/2018") H'))).
    + discriminate.
    + vm_compute. reflexivity.
Defined.

(** ** Distribution by wind sector *)

Lemma insert_key_in (k x : Z) (l : list Z) :
  In x (insert_key k l) <-> x = k \/ In x l.
Proof.
  induction l as [|h t IH]; cbn [insert_key In].
  - intuition auto.
  - destruct (Z.ltb_spec k h); [cbn [In]; intuition auto|].
    destruct (Z.eqb_spec k h) as [->|Hne]; cbn [In];
      [intuition auto|]. rewrite IH. intuition auto.
Qed.

Lemma group_keys_in (x : Z) (ks : list Z) :
  In x (group_keys ks) <-> In x ks.
Proof.
  induction ks as [|k ks IH]; [reflexivity|].
  cbn [group_keys fold_right]. fold (group_keys ks).
  rewrite insert_key_in, IH. cbn [In]. intuition auto.
Qed.

Lemma insert_key_sorted (k : Z) (l : list Z) :
  StronglySorted Z.lt l -> StronglySorted Z.lt (insert_key k l).
Proof.
  induction 1 as [|h t Hs IH Hf]; cbn [insert_key].
  - repeat constructor.
  - destruct (Z.ltb_spec k h).
    + constructor; [now constructor|]. constructor; [assumption|].
      eapply Forall_impl; [|exact Hf]. intros a Ha. cbn beta in Ha. lia.
    + destruct (Z.eqb_spec k h); [now constructor|].
      constructor; [exact IH|]. apply Forall_forall. intros x Hx.
      apply insert_key_in in Hx. destruct Hx as [->|Hx]; [lia|].
      rewrite Forall_forall in Hf. now apply Hf.
Qed.

Lemma group_keys_sorted (ks : list Z) : StronglySorted Z.lt (group_keys ks).
Proof.
  induction ks as [|k ks IH]; [constructor|].
  cbn [group_keys fold_right]. now apply insert_key_sorted.
Qed.

Lemma sorted_nodup (l : list Z) : StronglySorted Z.lt l -> NoDup l.
Proof.
  induction 1 as [|h t _ IH Hf]; constructor; [|exact IH].
  intros Hin. rewrite Forall_forall in Hf. specialize (Hf h Hin). lia.
Qed.

(** A strictly increasing list of whole numbers between [a] and [b] has
    at most [b - a + 1] elements, and all of them when it has that many. *)
Lemma sorted_within (l : list Z) :
  forall a b,
    StronglySorted Z.lt l ->
    Forall (fun k => a <= k <= b) l ->
    Z.of_nat (List.length l) <= Z.max 0 (b - a + 1) /\
    (Z.of_nat (List.length l) = b - a + 1 ->
     forall k, a <= k <= b -> In k l).
Proof.
  induction l as [|h t IH]; intros a b Hs Hf.
  - cbn [List.length]. split; [lia|]. intros E k Hk. lia.
  - inversion Hs as [|? ? Hst Hlt]; subst. inversion Hf as [|? ? Hh Hft]; subst.
    assert (Hf' : Forall (fun k => h + 1 <= k <= b) t).
    { rewrite Forall_forall in *. intros x Hx.
      specialize (Hlt x Hx). specialize (Hft x Hx). lia. }
    destruct (IH (h + 1) b Hst Hf') as [L1 L2].
    cbn [List.length]. split; [lia|].
    intros E k Hk.
    assert (h = a) by lia. subst h.
    destruct (Z.eq_dec k a) as [->|Hne]; [now left|].
    right. apply L2; lia.
Qed.

Lemma lookup_in {B : Type} (t : Z) (s : list (Z * B)) (b : B) :
  lookup t s = Some b -> In (t, b) s.
Proof.
  induction s as [|[t' b'] s IH]; [discriminate|].
  cbn [lookup]. destruct (Z.eqb_spec t' t) as [->|_].
  - intros H. injection H as ->. now left.
  - intros H. right. now apply IH.
Qed.

Lemma inner_join_in {A B : Type} (a : list (Z * A)) (b : list (Z * B))
      (t : Z) (x : A) (y : B) :
  In (t, (x, y)) (inner_join a b) <-> In (t, x) a /\ lookup t b = Some y.
Proof.
  unfold inner_join. rewrite in_flat_map. split.
  - intros [[t' x'] [Hin H]]. cbn [fst snd] in H.
    destruct (lookup t' b) as [y'|] eqn:E; [|destruct H].
    destruct H as [H|[]]. injection H as -> -> ->. now split.
  - intros [Hin E]. exists (t, x). split; [exact Hin|].
    cbn [fst snd]. rewrite E. now left.
Qed.

Lemma partition_by_key {A : Type} (key : A -> Z) (l : list A) (ks : list Z) :
  NoDup ks -> (forall a, In a l -> In (key a) ks) ->
  Permutation (flat_map (fun k => filter (fun a => key a =? k) l) ks) l.
Proof.
  intros Hnd. induction l as [|r l IH]; intros Hin.
  - cbn [filter]. clear. induction ks as [|k ks IHk]; [constructor|].
    cbn [flat_map app]. exact IHk.
  - rewrite (flat_map_ext
               (fun k => filter (fun a => key a =? k) (r :: l))
               (fun k => if key r =? k
                         then [r] ++ filter (fun a => key a =? k) l
                         else filter (fun a => key a =? k) l)).
    + rewrite flat_map_insert; [|exact Hnd | apply Hin; now left].
      cbn [app]. constructor. apply IH. intros a Ha. apply Hin. now right.
    + intros k. cbn [filter]. now destruct (key r =? k).
Qed.

Lemma Qsum_percentages {K A : Type} (F : K -> list A) (n : Q) (ks : list K) :
  (Qsum (map (fun k => inject_Z (Z.of_nat (List.length (F k))) / n * 100) ks)
   == inject_Z (Z.of_nat (List.length (flat_map F ks))) / n * 100)%Q.
Proof.
  induction ks as [|k ks IH].
  - cbn [map flat_map List.length]. change (Qsum []) with 0%Q.
    change (inject_Z (Z.of_nat 0)) with 0%Q. unfold Qdiv. ring.
  - cbn [map flat_map]. rewrite Qsum_cons, IH, length_app.
    rewrite Nat2Z.inj_add, inject_Z_plus. unfold Qdiv. ring.
Qed.

Lemma map_fst_combine {A B : Type} (l : list A) (l' : list B) :
  List.length l = List.length l' -> map fst (combine l l') = l.
Proof.
  revert l'. induction l as [|a l IH]; intros [|b l'] H;
    try reflexivity; try discriminate.
  cbn [combine map fst]. f_equal. apply IH. now injection H.
Qed.

Lemma map_snd_combine {A B : Type} (l : list A) (l' : list B) :
  List.length l = List.length l' -> map snd (combine l l') = l'.
Proof.
  revert l'. induction l as [|a l IH]; intros [|b l'] H;
    try reflexivity; try discriminate.
  cbn [combine map snd]. f_equal. apply IH. now injection H.
Qed.

(** The binning with the default edges and labels. *)
Lemma binning_default (float_str : Q -> string) (ds : Series) (s : Z) :
  0 < s ->
  Forall (fun p => (0 <= snd p)%Q /\ (snd p <= 360)%Q) (dropna ds) ->
  exists binned,
    get_binned_direction_series (dropna ds) s None = Ok binned /\
    Forall (fun p => 1 <= snd p <= s) binned /\
    get_distribution_by_wind_sector_binning float_str ds s None None
    = Ok {| sb_sectors := s;
            sb_direction_bin_array := zero_centered_edges s;
            sb_zero_centered := true;
            sb_direction_bin_labels :=
              map (label_at float_str (zero_centered_edges s) true)
                  (seq 0 (Z.to_nat s));
            sb_direction_binned_series := binned |}.
Proof.
  intros Hs Hd.
  destruct (get_binned_direction_series_default_aux (dropna ds) s Hs Hd)
    as [binned [E [_ Hb]]].
  exists binned. split; [exact E|]. split; [exact Hb|].
  unfold get_distribution_by_wind_sector_binning.
  rewrite get_direction_bin_array_closed by assumption. cbn [bind].
  pose proof (zero_centered_edges_length s ltac:(lia)) as L.
  rewrite get_direction_bin_labels_closed by lia. cbn [bind].
  unfold get_binned_direction_series in E |- *.
  rewrite get_direction_bin_array_closed in E by assumption.
  cbn [bind] in E |- *. now rewrite E.
Qed.

Lemma sector_ids_nodup (n : nat) : NoDup (map Z.of_nat (seq 1 n)).
Proof.
  apply Injective_map_NoDup; [|apply seq_NoDup].
  intros a b H. now apply Nat2Z.inj.
Qed.

Lemma keys_cover_sectors (keys : list Z) (s : Z) :
  0 < s ->
  StronglySorted Z.lt keys ->
  Forall (fun k => 1 <= k <= s) keys ->
  (Z.of_nat (List.length keys) = s <-> forall k, 1 <= k <= s -> In k keys).
Proof.
  intros Hs Hsorted Hf.
  destruct (sorted_within keys 1 s Hsorted Hf) as [L1 L2].
  split.
  - intros E. apply L2. lia.
  - intros Hall.
    assert (Hincl : incl (map Z.of_nat (seq 1 (Z.to_nat s))) keys).
    { intros k Hk. apply in_map_iff in Hk. destruct Hk as [i [<- Hi]].
      apply in_seq in Hi. apply Hall. lia. }
    pose proof (NoDup_incl_length (sector_ids_nodup (Z.to_nat s)) Hincl) as L.
    rewrite length_map, length_seq in L. lia.
Qed.

Lemma sorted_full (l : list Z) :
  forall a b,
    StronglySorted Z.lt l ->
    Forall (fun k => a <= k <= b) l ->
    Z.of_nat (List.length l) = b - a + 1 ->
    l = map (fun i => a + Z.of_nat i) (seq 0 (List.length l)).
Proof.
  induction l as [|h t IH]; intros a b Hs Hf E; [reflexivity|].
  inversion Hs as [|? ? Hst Hlt]; subst. inversion Hf as [|? ? Hh Hft]; subst.
  assert (Hf' : Forall (fun k => h + 1 <= k <= b) t).
  { rewrite Forall_forall in *. intros x Hx.
    specialize (Hlt x Hx). specialize (Hft x Hx). lia. }
  destruct (sorted_within t (h + 1) b Hst Hf') as [L1 _].
  cbn [List.length] in E |- *.
  assert (h = a) by lia. subst h.
  cbn [seq map]. rewrite Z.add_0_r. f_equal.
  rewrite <- seq_shift, map_map.
  rewrite (IH (a + 1) b Hst Hf') at 1 by lia.
  apply map_ext. intros i. lia.
Qed.

(** The table that the default call builds, and when it does. *)
Lemma distribution_default_table
      (float_str : Q -> string) (var_series direction_series : Series)
      (sectors : Z) (aggregation : aggregation_method) :
  0 < sectors ->
  Forall (fun p => (0 <= snd p)%Q /\ (snd p <= 360)%Q)
         (dropna direction_series) ->
  exists binned,
    get_binned_direction_series (dropna direction_series) sectors None
    = Ok binned /\
    Forall (fun p => 1 <= snd p <= sectors) binned /\
    ((forall k, 1 <= k <= sectors ->
                In k (map (fun r => snd (snd r))
                          (inner_join (dropna var_series) binned))) ->
     get_distribution_by_wind_sector
       float_str var_series direction_series sectors aggregation None None
     = Ok (combine
             (map (label_at float_str (zero_centered_edges sectors) true)
                  (seq 0 (Z.to_nat sectors)))
             (map (fun k => aggregate
                              aggregation
                              (List.length
                                 (inner_join (dropna var_series) binned))
                              (group_values
                                 (inner_join (dropna var_series) binned) k))
                  (map (fun i => 1 + Z.of_nat i)
                       (seq 0 (Z.to_nat sectors)))))) /\
    ((exists k, 1 <= k <= sectors /\
                ~ In k (map (fun r => snd (snd r))
                            (inner_join (dropna var_series) binned))) ->
     get_distribution_by_wind_sector
       float_str var_series direction_series sectors aggregation None None
     = Raise ValueError).
Proof.
  intros Hs Hd.
  destruct (binning_default float_str direction_series sectors Hs Hd)
    as [binned [Eb [Hb Est]]].
  exists binned. split; [exact Eb|]. split; [exact Hb|].
  set (data := inner_join (dropna var_series) binned).
  set (keys := group_keys (map (fun r => snd (snd r)) data)).
  assert (Hkeys_in : forall k, In k keys <->
                               In k (map (fun r => snd (snd r)) data))
    by (intros k; apply group_keys_in).
  assert (Hkeys_b : Forall (fun k => 1 <= k <= sectors) keys).
  { apply Forall_forall. intros k Hk. apply Hkeys_in in Hk.
    apply in_map_iff in Hk. destruct Hk as [[t [x k']] [E Hin]].
    cbn [snd] in E. subst k'. apply inner_join_in in Hin.
    destruct Hin as [_ Hl]. apply lookup_in in Hl.
    rewrite Forall_forall in Hb. exact (Hb (t, k) Hl). }
  pose proof (keys_cover_sectors keys sectors Hs
                                 (group_keys_sorted _) Hkeys_b) as Hcover.
  assert (Eval : get_distribution_by_wind_sector
                   float_str var_series direction_series sectors
                   aggregation None None
                 = set_index
                     (map (label_at float_str (zero_centered_edges sectors) true)
                          (seq 0 (Z.to_nat sectors)))
                     (map (fun k => aggregate aggregation (List.length data)
                                              (group_values data k)) keys)).
  { unfold get_distribution_by_wind_sector. rewrite Est. reflexivity. }
  split.
  - intros Hall.
    assert (Hlen : Z.of_nat (List.length keys) = sectors).
    { apply Hcover. intros k Hk. apply Hkeys_in. now apply Hall. }
    assert (Ekeys : keys = map (fun i => 1 + Z.of_nat i)
                               (seq 0 (Z.to_nat sectors))).
    { rewrite (sorted_full keys 1 sectors (group_keys_sorted _) Hkeys_b)
        by lia.
      f_equal. f_equal. lia. }
    rewrite Eval, <- Ekeys. unfold set_index.
    rewrite !length_map, length_seq.
    destruct (Nat.eqb_spec (Z.to_nat sectors) (List.length keys));
      [reflexivity | lia].
  - intros [k0 [Hk0 Hout]]. rewrite Eval. unfold set_index.
    rewrite !length_map, length_seq.
    destruct (Nat.eqb_spec (Z.to_nat sectors) (List.length keys)) as [E|E];
      [|reflexivity].
    exfalso. apply Hout. apply Hkeys_in.
    apply (proj1 Hcover); [lia | exact Hk0].
Qed.

Lemma sector_ids_spec (s k : Z) :
  In k (map (fun i => 1 + Z.of_nat i) (seq 0 (Z.to_nat s))) <-> 1 <= k <= s.
Proof.
  rewrite in_map_iff. split.
  - intros [i [<- Hi]]. apply in_seq in Hi. lia.
  - intros Hk. exists (Z.to_nat (k - 1)). split; [lia|]. apply in_seq. lia.
Qed.

Lemma sector_ids_nodup' (s : Z) :
  NoDup (map (fun i => 1 + Z.of_nat i) (seq 0 (Z.to_nat s))).
Proof.
  apply Injective_map_NoDup; [|apply seq_NoDup].
  intros a b H. lia.
Qed.

(** X19: with the default edges and labels and directions between 0 and
    360, [get_distribution_by_wind_sector] returns a table only when
    every sector receives at least one row of the joined data.  The table
    then has one row per sector, in sector order under the sector labels,
    each the aggregate of the rows of that sector, and for ['%frequency']
    its values are positive and add up to 100.  When some sector receives
    no row, assigning the labels raises [ValueError]. *)
Theorem get_distribution_by_wind_sector_needs_every_sector
        (float_str : Q -> string) (var_series direction_series : Series)
        (sectors : Z) (aggregation : aggregation_method) :
  0 < sectors ->
  Forall (fun p => (0 <= snd p)%Q /\ (snd p <= 360)%Q)
         (dropna direction_series) ->
  exists binned labels,
    get_binned_direction_series (dropna direction_series) sectors None
    = Ok binned /\
    (exists edges,
        get_direction_bin_array sectors = Ok edges /\
        _get_direction_bin_labels float_str sectors edges true = Ok labels) /\
    ((forall k, 1 <= k <= sectors ->
                In k (map (fun r => snd (snd r))
                          (inner_join (dropna var_series) binned))) ->
     exists table,
       get_distribution_by_wind_sector
         float_str var_series direction_series sectors aggregation None None
       = Ok table /\
       map fst table = labels /\
       map snd table
       = map (fun k => aggregate
                         aggregation
                         (List.length (inner_join (dropna var_series) binned))
                         (group_values
                            (inner_join (dropna var_series) binned) k))
             (map (fun i => 1 + Z.of_nat i) (seq 0 (Z.to_nat sectors))) /\
       (aggregation = pct_frequency ->
        (Qsum (map snd table) == 100)%Q /\
        Forall (fun x => (0 < x)%Q) (map snd table))) /\
    ((exists k, 1 <= k <= sectors /\
                ~ In k (map (fun r => snd (snd r))
                            (inner_join (dropna var_series) binned))) ->
     get_distribution_by_wind_sector
       float_str var_series direction_series sectors aggregation None None
     = Raise ValueError).
Proof.
  intros Hs Hd.
  destruct (distribution_default_table
              float_str var_series direction_series sectors aggregation Hs Hd)
    as [binned [Eb [Hb [Hok Hraise]]]].
  pose proof (zero_centered_edges_length sectors ltac:(lia)) as Ledges.
  exists binned,
    (map (label_at float_str (zero_centered_edges sectors) true)
         (seq 0 (Z.to_nat sectors))).
  split; [exact Eb|]. split.
  { exists (zero_centered_edges sectors).
    split; [now apply get_direction_bin_array_closed|].
    apply get_direction_bin_labels_closed; lia. }
  split; [|exact Hraise].
  intros Hall. eexists. split; [exact (Hok Hall)|].
  set (data := inner_join (dropna var_series) binned) in *.
  set (ids := map (fun i => 1 + Z.of_nat i) (seq 0 (Z.to_nat sectors))).
  assert (Hlen' : List.length
                    (map (label_at float_str (zero_centered_edges sectors)
                                   true) (seq 0 (Z.to_nat sectors)))
                  = List.length
                      (map (fun k => aggregate aggregation (List.length data)
                                               (group_values data k)) ids)).
  { subst ids. now rewrite !length_map. }
  split; [now apply map_fst_combine|].
  split; [now apply map_snd_combine|].
  intros ->. rewrite map_snd_combine by exact Hlen'.
  assert (Hn : (1 <= List.length data)%nat).
  { specialize (Hall 1 ltac:(lia)). destruct data; [destruct Hall|].
    cbn [List.length]. lia. }
  assert (HnQ : (0 < inject_Z (Z.of_nat (List.length data)))%Q).
  { rewrite <- (Zlt_Qlt 0). lia. }
  assert (Hbins : forall r, In r data -> In (snd (snd r)) ids).
  { intros [t [x k]] Hr. cbn [snd]. apply sector_ids_spec.
    apply inner_join_in in Hr. destruct Hr as [_ Hl]. apply lookup_in in Hl.
    rewrite Forall_forall in Hb. exact (Hb (t, k) Hl). }
  cbn [aggregate]. split.
  - rewrite (map_ext
               (fun k => (inject_Z (Z.of_nat (List.length
                                                (group_values data k)))
                          / inject_Z (Z.of_nat (List.length data)) * 100)%Q)
               (fun k => (inject_Z
                            (Z.of_nat
                               (List.length
                                  (filter (fun r : Z * (Q * Z) =>
                                             snd (snd r) =? k) data)))
                          / inject_Z (Z.of_nat (List.length data)) * 100)%Q)).
    2:{ intros k. unfold group_values. now rewrite length_map. }
    rewrite (Qsum_percentages
               (fun k => filter (fun r : Z * (Q * Z) => snd (snd r) =? k)
                                data)).
    rewrite (Permutation_length
               (partition_by_key (fun r : Z * (Q * Z) => snd (snd r))
                                 data ids (sector_ids_nodup' sectors) Hbins)).
    field. intros E. rewrite E in HnQ. exact (Qlt_irrefl _ HnQ).
  - apply Forall_forall. intros x Hx. apply in_map_iff in Hx.
    destruct Hx as [k [<- Hk]]. apply sector_ids_spec in Hk.
    specialize (Hall k Hk).
    apply in_map_iff in Hall. destruct Hall as [r [Er Hr]].
    assert (Hg : (1 <= List.length (group_values data k))%nat).
    { unfold group_values. rewrite length_map.
      assert (Hin : In r (filter (fun r0 : Z * (Q * Z) => snd (snd r0) =? k)
                                 data)).
      { apply filter_In. split; [exact Hr|]. now apply Z.eqb_eq. }
      destruct (filter _ data); [destruct Hin | cbn [List.length]; lia]. }
    assert (HgQ : (0 < inject_Z (Z.of_nat
                                   (List.length (group_values data k))))%Q).
    { rewrite <- (Zlt_Qlt 0). lia. }
    assert (Hq : (0 < inject_Z (Z.of_nat
                                  (List.length (group_values data k)))
                      / inject_Z (Z.of_nat (List.length data)))%Q).
    { apply Qlt_shift_div_l; [exact HnQ|]. lra. }
    lra.
Qed.

Lemma sample_direction_turn_on_circle :
  Forall (fun p => (0 <= snd p)%Q /\ (snd p <= 360)%Q)
         (dropna sample_direction_turn).
Proof. repeat constructor; cbn [snd]; unfold Qle; simpl; lia. Defined.

Lemma sample_direction_north_east_on_circle :
  Forall (fun p => (0 <= snd p)%Q /\ (snd p <= 360)%Q)
         (dropna sample_direction_north_east).
Proof. repeat constructor; cbn [snd]; unfold Qle; simpl; lia. Defined.

Lemma get_distribution_by_wind_sector_needs_every_sector_witness :
  0 < 4 /\
  Forall (fun p => (0 <= snd p)%Q /\ (snd p <= 360)%Q)
         (dropna sample_direction_turn) /\
  rmap (map (fun r => (fst r, Qred (snd r))))
       (get_distribution_by_wind_sector
          render_float sample_speed_1 sample_direction_turn 4 pct_frequency
          None None)
  = Ok [("315.0-45.0"%string, 50%Q); ("45.0-135.0"%string, 50 # 3);
        ("135.0-225.0"%string, 50 # 3); ("225.0-315.0"%string, 50 # 3)] /\
  get_distribution_by_wind_sector
    render_float sample_speed_1 sample_direction_north_east 4 pct_frequency
    None None
  = Raise ValueError.
Proof.
  assert (H : 0 < 4) by lia.
  split; [exact H|]. split; [exact sample_direction_turn_on_circle|].
  split.
  - destruct (get_distribution_by_wind_sector_needs_every_sector
                render_float sample_speed_1 sample_direction_turn 4
                pct_frequency H sample_direction_turn_on_circle)
      as [binned [labels [Eb [_ [Hok _]]]]].
    vm_compute in Eb. injection Eb as <-.
    destruct Hok as [table [E _]].
    + intros k Hk.
      assert (C : k = 1 \/ k = 2 \/ k = 3 \/ k = 4) by lia.
      destruct C as [C|[C|[C|C]]]; subst k; vm_compute; tauto.
    + rewrite E. vm_compute in E. injection E as <-.
      vm_compute. reflexivity.
  - destruct (get_distribution_by_wind_sector_needs_every_sector
                render_float sample_speed_1 sample_direction_north_east 4
                pct_frequency H sample_direction_north_east_on_circle)
      as [binned [labels [Eb [_ [_ Hraise]]]]].
    vm_compute in Eb. injection Eb as <-.
    apply Hraise. exists 3. split; [lia|].
    vm_compute. intuition discriminate.
Defined.

(** ** Sector ratio *)

Lemma mod360_range (d : Q) : (0 <= mod360 d)%Q /\ (mod360 d < 360)%Q.
Proof.
  unfold mod360.
  pose proof (Qfloor_le (d / 360)) as F1.
  pose proof (Qlt_floor (d / 360)) as F2.
  rewrite inject_Z_plus in F2. change (inject_Z 1) with 1%Q in F2.
  assert (E : (d == 360 * (d / 360))%Q) by (field; discriminate).
  set (q := inject_Z (Qfloor (d / 360))) in *.
  set (x := (d / 360)%Q) in *.
  split; lra.
Qed.

Lemma dropna_in (s : Series) (t : Z) (x : Q) :
  In (t, x) (dropna s) <-> In (t, Some x) s.
Proof.
  unfold dropna. rewrite in_flat_map. split.
  - intros [[t' [y|]] [Hin H]]; cbn [fst snd] in H; [|destruct H].
    destruct H as [H|[]]. injection H as -> ->. exact Hin.
  - intros H. exists (t, Some x). split; [exact H | now left].
Qed.

Lemma above_3_in (s : Series) (t : Z) (x : Q) :
  In (t, x) (above_3 s) -> (3 < x)%Q.
Proof.
  unfold above_3. intros H. apply filter_In in H. destruct H as [_ H].
  cbn [snd] in H. now apply Qltb_lt.
Qed.

Lemma sec_rat_dir_on_circle (wdspd_1 wdspd_2 direction : Series) :
  Forall (fun p => (0 <= snd p)%Q /\ (snd p <= 360)%Q)
         (dropna (sec_rat_dir (sec_rat_frame wdspd_1 wdspd_2 direction))).
Proof.
  apply Forall_forall. intros [t x] H. cbn [snd].
  apply dropna_in in H. unfold sec_rat_dir in H. apply in_map_iff in H.
  destruct H as [r [E _]]. injection E as _ E.
  destruct (snd (snd r)) as [d|]; [|discriminate].
  cbn [option_map] in E. injection E as <-.
  destruct (mod360_range d). split; lra.
Qed.

Lemma sec_rat_ratio_positive (wdspd_1 wdspd_2 direction : Series)
      (t : Z) (x : Q) :
  In (t, x) (dropna (sec_rat_ratio (sec_rat_frame wdspd_1 wdspd_2 direction)))
  -> (0 < x)%Q.
Proof.
  intros H. apply dropna_in in H. unfold sec_rat_ratio in H.
  apply in_map_iff in H. destruct H as [[t' [[v1 v2] d]] [E Hin]].
  cbn [fst snd] in E. injection E as _ <-.
  unfold sec_rat_frame in Hin. apply inner_join_in in Hin.
  destruct Hin as [Hin _]. apply inner_join_in in Hin.
  destruct Hin as [H1 H2]. apply lookup_in in H2.
  apply above_3_in in H1. apply above_3_in in H2.
  apply Qlt_shift_div_l; lra.
Qed.

Lemma Qsum_positive (xs : list Q) :
  xs <> [] -> (forall x, In x xs -> (0 < x)%Q) -> (0 < Qsum xs)%Q.
Proof.
  intros Hne H.
  assert (Hnn : forall ys, (forall y, In y ys -> (0 < y)%Q) ->
                           (0 <= Qsum ys)%Q).
  { induction ys as [|y ys IH]; intros Hy.
    - change (Qsum []) with 0%Q. lra.
    - rewrite Qsum_cons.
      pose proof (Hy y (or_introl eq_refl)).
      assert (0 <= Qsum ys)%Q by (apply IH; intros z Hz; apply Hy; now right).
      lra. }
  destruct xs as [|x xs]; [congruence|]. rewrite Qsum_cons.
  pose proof (H x (or_introl eq_refl)).
  assert (0 <= Qsum xs)%Q by (apply Hnn; intros z Hz; apply H; now right).
  lra.
Qed.

(** X20: [get_sector_ratio] reduces every direction to one turn before
    binning, so every row in which both speeds exceed 3 and the direction
    is known gets a sector between 1 and [sectors], whatever the
    direction.  It returns a table only when every sector receives such a
    row; the table then has one row per sector and every ratio in it is
    positive.  Otherwise it raises [ValueError]. *)
Theorem get_sector_ratio_bins_every_direction
        (float_str : Q -> string) (wdspd_1 wdspd_2 direction : Series)
        (sectors : Z) :
  0 < sectors ->
  exists binned,
    get_binned_direction_series
      (dropna (sec_rat_dir (sec_rat_frame wdspd_1 wdspd_2 direction)))
      sectors None
    = Ok binned /\
    Forall (fun p => 1 <= snd p <= sectors) binned /\
    ((forall k, 1 <= k <= sectors ->
                In k (map (fun r => snd (snd r))
                          (inner_join
                             (dropna (sec_rat_ratio
                                        (sec_rat_frame wdspd_1 wdspd_2
                                                       direction)))
                             binned))) ->
     exists table,
       get_sector_ratio float_str wdspd_1 wdspd_2 direction sectors = Ok table /\
       Z.of_nat (List.length table) = sectors /\
       Forall (fun x => (0 < x)%Q) (map snd table)) /\
    ((exists k, 1 <= k <= sectors /\
                ~ In k (map (fun r => snd (snd r))
                            (inner_join
                               (dropna (sec_rat_ratio
                                          (sec_rat_frame wdspd_1 wdspd_2
                                                         direction)))
                               binned))) ->
     get_sector_ratio float_str wdspd_1 wdspd_2 direction sectors
     = Raise ValueError).
Proof.
  intros Hs. unfold get_sector_ratio.
  set (sr := sec_rat_frame wdspd_1 wdspd_2 direction).
  destruct (distribution_default_table
              float_str (sec_rat_ratio sr) (sec_rat_dir sr) sectors agg_mean
              Hs (sec_rat_dir_on_circle wdspd_1 wdspd_2 direction))
    as [binned [Eb [Hb [Hok Hraise]]]].
  exists binned. split; [exact Eb|]. split; [exact Hb|].
  split; [|exact Hraise].
  intros Hall. eexists. split; [exact (Hok Hall)|].
  set (data := inner_join (dropna (sec_rat_ratio sr)) binned) in *.
  set (ids := map (fun i => 1 + Z.of_nat i) (seq 0 (Z.to_nat sectors))).
  assert (Hlen' : List.length
                    (map (label_at float_str (zero_centered_edges sectors)
                                   true) (seq 0 (Z.to_nat sectors)))
                  = List.length
                      (map (fun k => aggregate agg_mean (List.length data)
                                               (group_values data k)) ids)).
  { subst ids. now rewrite !length_map. }
  split.
  - rewrite length_combine, <- Hlen', Nat.min_id, length_map, length_seq. lia.
  - rewrite map_snd_combine by exact Hlen'.
    apply Forall_forall. intros x Hx. apply in_map_iff in Hx.
    destruct Hx as [k [<- Hk]]. apply sector_ids_spec in Hk.
    specialize (Hall k Hk).
    apply in_map_iff in Hall. destruct Hall as [r [Er Hr]].
    cbn [aggregate].
    assert (Hne : group_values data k <> []).
    { unfold group_values.
      assert (Hin : In r (filter (fun r0 : Z * (Q * Z) => snd (snd r0) =? k)
                                 data)).
      { apply filter_In. split; [exact Hr|]. now apply Z.eqb_eq. }
      destruct (filter _ data); [destruct Hin | discriminate]. }
    assert (Hpos : forall y, In y (group_values data k) -> (0 < y)%Q).
    { intros y Hy. unfold group_values in Hy. apply in_map_iff in Hy.
      destruct Hy as [[t [y' k']] [E Hin]]. cbn [fst snd] in E. subst y'.
      apply filter_In in Hin. destruct Hin as [Hin _].
      apply inner_join_in in Hin. destruct Hin as [Hin _].
      exact (sec_rat_ratio_positive wdspd_1 wdspd_2 direction t y Hin). }
    apply Qlt_shift_div_l.
    + rewrite <- (Zlt_Qlt 0).
      destruct (group_values data k); [congruence | cbn [List.length]; lia].
    + pose proof (Qsum_positive _ Hne Hpos). lra.
Qed.

Lemma get_sector_ratio_bins_every_direction_witness :
  0 < 4 /\
  rmap (map (fun r => (fst r, Qred (snd r))))
       (get_sector_ratio render_float sample_speed_1 sample_speed_2
                         sample_direction 4)
  = Ok [("315.0-45.0"%string, 5 # 4); ("45.0-135.0"%string, 3 # 2);
        ("135.0-225.0"%string, 1 # 2); ("225.0-315.0"%string, 3 # 2)].
Proof.
  assert (H : 0 < 4) by lia. split; [exact H|].
  destruct (get_sector_ratio_bins_every_direction
              render_float sample_speed_1 sample_speed_2 sample_direction 4 H)
    as [binned [Eb [_ [Hok _]]]].
  vm_compute in Eb. injection Eb as <-.
  destruct Hok as [table [E _]].
  - intros k Hk.
    assert (C : k = 1 \/ k = 2 \/ k = 3 \/ k = 4) by lia.
    destruct C as [C|[C|[C|C]]]; subst k; vm_compute; tauto.
  - rewrite E. vm_compute in E. injection E as <-.
    vm_compute. reflexivity.
Defined.

(** ** Distribution over bins *)

Lemma any_decrease_sorted (bins : list Q) :
  any_decrease bins = false -> np.nondecreasing bins = true.
Proof.
  induction bins as [|a bins IH]; [reflexivity|].
  destruct bins as [|b t]; [reflexivity|].
  cbn [any_decrease np.nondecreasing]. intros H.
  apply orb_false_elim in H. destruct H as [H1 H2].
  apply Qltb_ge in H1. apply Qle_bool_iff in H1. rewrite H1.
  now apply IH.
Qed.

Lemma intervals_length (bins : list Q) :
  List.length (intervals bins) = (List.length bins - 1)%nat.
Proof.
  induction bins as [|a bins IH]; [reflexivity|].
  destruct bins as [|b t]; [reflexivity|].
  cbn [intervals List.length] in *. lia.
Qed.

Lemma intervals_nth (bins : list Q) (j : nat) (d : category) :
  (S j < List.length bins)%nat ->
  nth j (intervals bins) d = Interval (nth j bins 0%Q) (nth (S j) bins 0%Q).
Proof.
  revert j. induction bins as [|a bins IH]; intros j Hj;
    [cbn [List.length] in Hj; lia|].
  destruct bins as [|b t]; [cbn [List.length] in Hj; lia|].
  destruct j as [|j]; [reflexivity|].
  change (intervals (a :: b :: t)) with (Interval a b :: intervals (b :: t)).
  cbn [nth]. apply IH. cbn [List.length] in *. lia.
Qed.

(** With sorted edges the code of a value is the number of the half-open
    interval that holds it. *)
Lemma cut_code_interval (bins : list Q) (x : Q) (j : nat) :
  np.nondecreasing bins = true ->
  (cut_code bins x = Some j <->
   (S j < List.length bins)%nat /\
   (nth j bins 0 <= x)%Q /\ (x < nth (S j) bins 0)%Q).
Proof.
  intros Hs. destruct (searchsorted_right_prefix bins x Hs) as [P1 P2].
  unfold cut_code.
  set (ids := np.searchsorted bins x np.Right) in *.
  assert (Hids : (ids <= List.length bins)%nat).
  { subst ids. unfold np.searchsorted. apply filter_length_le. }
  split.
  - destruct (Nat.eqb_spec ids 0); [discriminate|].
    destruct (Nat.eqb_spec ids (List.length bins)); [discriminate|].
    cbn [orb]. intros H. injection H as <-.
    replace (S (ids - 1)) with ids by lia.
    split; [lia|]. split; [apply P1; lia | apply P2; lia].
  - intros [Hj [Hlo Hhi]].
    assert (E : ids = S j).
    { destruct (Nat.lt_trichotomy ids (S j)) as [H|[H|H]]; [|exact H|].
      - exfalso. apply (Qlt_not_le _ _ (P2 j ltac:(lia))). exact Hlo.
      - exfalso. apply (Qlt_not_le _ _ Hhi). apply P1. lia. }
    rewrite E.
    destruct (Nat.eqb_spec (S j) 0); [lia|].
    destruct (Nat.eqb_spec (S j) (List.length bins)); [lia|].
    cbn [orb]. f_equal. lia.
Qed.

Lemma cut_code_bound (bins : list Q) (x : Q) (c : nat) :
  cut_code bins x = Some c -> (c < List.length bins - 1)%nat.
Proof.
  unfold cut_code.
  pose proof (filter_length_le (fun e => Qle_bool e x) bins) as L.
  unfold np.searchsorted.
  destruct (Nat.eqb_spec (List.length (filter (fun e => Qle_bool e x) bins)) 0);
    [discriminate|].
  destruct (Nat.eqb_spec (List.length (filter (fun e => Qle_bool e x) bins))
                         (List.length bins)); [discriminate|].
  cbn [orb]. intros H. injection H as <-. lia.
Qed.

Lemma cut_accepts (series : list (Z * Q)) (bins : list Q) :
  any_decrease bins = false -> has_duplicates bins = false ->
  cut series bins None
  = Ok (intervals bins, map (fun r => (fst r, cut_code bins (snd r))) series).
Proof.
  intros H1 H2. unfold cut. now rewrite H1, H2.
Qed.

Lemma category_values_length (data : list (Z * (Q * option nat))) (j : nat) :
  List.length (category_values data j)
  = List.length
      (filter (fun r => match snd (snd r) with
                        | Some c => Z.of_nat c
                        | None => -1
                        end =? Z.of_nat j) (rows_inside data)).
Proof.
  unfold category_values, rows_inside. rewrite length_map.
  induction data as [|[t [v [c|]]] data IH]; [reflexivity| |];
    cbn [filter snd].
  - cbn [filter snd].
    destruct (Nat.eqb_spec c j); destruct (Z.eqb_spec (Z.of_nat c) (Z.of_nat j));
      try lia; cbn [List.length]; now rewrite IH.
  - exact IH.
Qed.

(** X21: [get_distribution] with two or more strictly increasing edges and
    no labels
    returns one row per pair of adjacent edges, zero counts included, the
    row of edges [a, b] standing for the values [v] with [a <= v < b].
    With no joined row every frequency is missing; otherwise the
    frequencies are not negative and add up to 100 times the share of the
    joined rows whose binned value lies inside the edges. *)
Theorem get_distribution_frequencies
        (var1_series var2_series : Series) (bins : list Q) :
  (2 <= List.length bins)%nat ->
  any_decrease bins = false -> has_duplicates bins = false ->
  exists table,
    get_distribution var1_series var2_series bins None pct_frequency
    = Ok table /\
    List.length table = (List.length bins - 1)%nat /\
    (forall j, (S j < List.length bins)%nat ->
               nth_error (map fst table) j
               = Some (Interval (nth j bins 0%Q) (nth (S j) bins 0%Q)) /\
               forall x, cut_code bins x = Some j <->
                         (nth j bins 0 <= x)%Q /\ (x < nth (S j) bins 0)%Q) /\
    let data :=
      inner_join (dropna var1_series)
                 (map (fun r => (fst r, cut_code bins (snd r)))
                      (dropna var2_series)) in
    (data = [] -> Forall (fun v => v = None) (map snd table)) /\
    (data <> [] ->
     exists fs,
       map snd table = map Some fs /\
       Forall (fun f => (0 <= f)%Q) fs /\
       (Qsum fs == inject_Z (Z.of_nat (List.length (rows_inside data)))
                   / inject_Z (Z.of_nat (List.length data)) * 100)%Q).
Proof.
  intros _ Hd Hu. pose proof (any_decrease_sorted bins Hd) as Hs.
  eexists. split.
  { unfold get_distribution. rewrite cut_accepts by assumption.
    cbn [bind]. reflexivity. }
  set (data := inner_join (dropna var1_series)
                          (map (fun r => (fst r, cut_code bins (snd r)))
                               (dropna var2_series))).
  split; [now rewrite length_map, length_seq, intervals_length|].
  split.
  { intros j Hj. split.
    - rewrite map_map. cbn [fst]. rewrite nth_error_map, nth_error_seq.
      rewrite intervals_length.
      destruct (Nat.ltb_spec j (List.length bins - 1)); [|lia].
      cbn [option_map Nat.add]. f_equal. now apply intervals_nth.
    - intros x. rewrite (cut_code_interval bins x j Hs). intuition auto. }
  cbv zeta. rewrite map_map. cbn [snd]. rewrite intervals_length. split.
  - intros E. fold data. rewrite E. apply Forall_forall.
    intros v Hv. apply in_map_iff in Hv. destruct Hv as [j [<- _]].
    reflexivity.
  - intros Hne. fold data.
    exists (map (fun j => aggregate pct_frequency (List.length data)
                                    (category_values data j))
                (seq 0 (List.length bins - 1))).
    split.
    { rewrite map_map. apply map_ext. intros j.
      unfold aggregate_category.
      destruct (List.length data) eqn:E; [|reflexivity].
      destruct data; [congruence | discriminate E]. }
    assert (HnQ : (0 < inject_Z (Z.of_nat (List.length data)))%Q).
    { rewrite <- (Zlt_Qlt 0).
      destruct data; [congruence | cbn [List.length]; lia]. }
    split.
    + apply Forall_forall. intros f Hf. apply in_map_iff in Hf.
      destruct Hf as [j [<- _]]. cbn [aggregate].
      assert (Hq : (0 <= inject_Z (Z.of_nat
                                     (List.length (category_values data j)))
                         / inject_Z (Z.of_nat (List.length data)))%Q).
      { apply Qle_shift_div_l; [exact HnQ|].
        assert (0 <= inject_Z (Z.of_nat
                                 (List.length (category_values data j))))%Q
          by (rewrite <- (Zle_Qle 0); lia).
        lra. }
      lra.
    + cbn [aggregate].
      rewrite (map_ext
                 (fun j => (inject_Z (Z.of_nat (List.length
                                                  (category_values data j)))
                            / inject_Z (Z.of_nat (List.length data)) * 100)%Q)
                 (fun j =>
                    (inject_Z
                       (Z.of_nat
                          (List.length
                             (filter (fun r : Z * (Q * option nat) =>
                                        match snd (snd r) with
                                        | Some c => Z.of_nat c
                                        | None => -1
                                        end =? Z.of_nat j)
                                     (rows_inside data))))
                     / inject_Z (Z.of_nat (List.length data)) * 100)%Q))
        by (intros j; now rewrite category_values_length).
      rewrite (Qsum_percentages
                 (fun j => filter (fun r : Z * (Q * option nat) =>
                                     match snd (snd r) with
                                     | Some c => Z.of_nat c
                                     | None => -1
                                     end =? Z.of_nat j)
                                  (rows_inside data))).
      assert (Hperm : Permutation
                (flat_map
                   (fun j => filter (fun r : Z * (Q * option nat) =>
                                       match snd (snd r) with
                                       | Some c => Z.of_nat c
                                       | None => -1
                                       end =? Z.of_nat j)
                                    (rows_inside data))
                   (seq 0 (List.length bins - 1)))
                (rows_inside data)).
      { eapply Permutation_trans;
          [|apply (partition_by_key
                     (fun r : Z * (Q * option nat) =>
                        match snd (snd r) with
                        | Some c => Z.of_nat c
                        | None => -1
                        end)
                     (rows_inside data)
                     (map Z.of_nat (seq 0 (List.length bins - 1))))].
        - rewrite (flat_map_concat_map _ (map Z.of_nat _)), map_map,
            <- flat_map_concat_map.
          reflexivity.
        - apply Injective_map_NoDup; [|apply seq_NoDup].
          intros a b H. now apply Nat2Z.inj.
        - intros [t [v c]] Hr. unfold rows_inside in Hr.
          apply filter_In in Hr. destruct Hr as [Hr Hc]. cbn [snd] in *.
          destruct c as [c|]; [|discriminate].
          apply in_map. apply in_seq.
          subst data. apply inner_join_in in Hr. destruct Hr as [_ Hl].
          apply lookup_in in Hl. apply in_map_iff in Hl.
          destruct Hl as [r [E _]]. injection E as _ E.
          apply cut_code_bound in E. lia. }
      rewrite (Permutation_length Hperm). reflexivity.
Qed.

Lemma get_distribution_frequencies_witness :
  (2 <= List.length sample_bins)%nat /\
  any_decrease sample_bins = false /\ has_duplicates sample_bins = false /\
  rmap (map (fun r => (fst r, option_map Qred (snd r))))
       (get_distribution sample_speed_1 sample_speed_2 sample_bins None
                         pct_frequency)
  = Ok [(Interval 4 6, Some (100 # 3)); (Interval 6 (19 # 2), Some 50%Q)].
Proof.
  assert (H2 : (2 <= List.length sample_bins)%nat) by (cbn; lia).
  assert (Hd : any_decrease sample_bins = false) by reflexivity.
  assert (Hu : has_duplicates sample_bins = false) by reflexivity.
  split; [exact H2|]. split; [exact Hd|]. split; [exact Hu|].
  destruct (get_distribution_frequencies sample_speed_1 sample_speed_2
                                         sample_bins H2 Hd Hu)
    as [table [E _]].
  rewrite E. vm_compute in E. injection E as <-. reflexivity.
Defined.
